(** * quick.reader: positions, chapter attribution, annotations, search

    A shallow embedding of the position/annotation engine of the reader:

    - [app/services/cfi.ts]      ordering and same-anchor test on position tokens;
    - [app/services/search.ts]   chapter attribution and whole-book search;
    - [~/services/db]            the annotation store (bookmarks, highlights);
                                 the books, their files, the chat messages and
                                 the settings;
    - [~/services/epub]          the label of the current chapter;
    - [useBookmarks], [useNotes], [useNavigation] ([app/hooks/])
                                 the bookmark toggle, the highlight popup, the
                                 position in the book;
    - [SearchModal], the route of a book
                                 running a search, loading the page.

    Position tokens are CFI strings.  The library that parses and compares
    them (epub.js, [EpubCFI]) is not part of the repository: its operations
    are parameters of the development ([compare], [spinePos], [cfiToString]),
    taken total on the tokens the renderer produces, and every property of
    them that a proof needs is a named hypothesis. *)

From Stdlib Require Import ZArith Ascii String List Lia Bool Permutation Sorting.Sorted.
From stdpp Require Import base option list strings gmap fin_maps.
Import ListNotations.

(* ===================================================================== *)
(** * JavaScript strings and arrays *)
(* ===================================================================== *)

(** A JavaScript string is a sequence of code units; the model keeps the
    code units below 256, one [ascii] each, and [String.length] is
    [s.length]. *)
Module JS.

(** A string is truthy when it is not empty. *)
Definition truthy (s : string) : bool := negb (String.eqb s "").

(** [s.split("#")[0]]: the text before the first [#] (all of [s] when
    there is none). *)
Fixpoint split_hash_0 (s : string) : string :=
  match s with
  | EmptyString => EmptyString
  | String c s' => if Ascii.eqb c "#" then EmptyString else String c (split_hash_0 s')
  end.

(** [s.split("#")[1]]: the text between the first and the second [#];
    [undefined] ([None]) when [s] has no [#]. *)
Fixpoint split_hash_1 (s : string) : option string :=
  match s with
  | EmptyString => None
  | String c s' => if Ascii.eqb c "#" then Some (split_hash_0 s') else split_hash_1 s'
  end.

(** [s.includes(sub)]. *)
Fixpoint includes (s sub : string) : bool :=
  String.prefix sub s ||
  match s with
  | EmptyString => false
  | String _ s' => includes s' sub
  end.

(** [s.endsWith(sub)]. *)
Fixpoint endsWith (s sub : string) : bool :=
  String.eqb s sub ||
  match s with
  | EmptyString => false
  | String _ s' => endsWith s' sub
  end.

(** White space of [String.prototype.trim] among the code units below
    256: TAB, LF, VT, FF, CR, SP and NBSP. *)
Definition is_space (c : ascii) : bool :=
  let n := nat_of_ascii c in
  ((9 <=? n) && (n <=? 13)) || (n =? 32) || (n =? 160).

Fixpoint trimStart (s : string) : string :=
  match s with
  | EmptyString => EmptyString
  | String c s' => if is_space c then trimStart s' else s
  end.

Fixpoint trimEnd (s : string) : string :=
  match s with
  | EmptyString => EmptyString
  | String c s' =>
      let t := trimEnd s' in
      if is_space c && String.eqb t "" then EmptyString else String c t
  end.

Definition trim (s : string) : string := trimEnd (trimStart s).

(** [Array.prototype.sort(cmp)].  ECMAScript leaves the algorithm open
    but requires the sort to be stable and, for a consistent comparator,
    the result to be ordered by it; any two such sorts return the same
    array ([sort_unique] below).  The model is the stable insertion
    sort: an element goes in front of the first element it does not
    compare greater than. *)
Section Sort.
Context {A : Type} (cmp : A -> A -> Z).

Fixpoint sort_insert (x : A) (l : list A) : list A :=
  match l with
  | [] => [x]
  | y :: l' => if (cmp x y <=? 0)%Z then x :: y :: l' else y :: sort_insert x l'
  end.

Fixpoint sort (l : list A) : list A :=
  match l with
  | [] => []
  | x :: l' => sort_insert x (sort l')
  end.
End Sort.

End JS.

(* ===================================================================== *)
(** * Data model ([~/services/db], [app/services/search.ts]) *)
(* ===================================================================== *)

Module Bookmark.
Record t := mk {
  id : string;
  bookId : string;
  cfi : string;
  excerpt : string;
  createdAt : Z
}.
End Bookmark.

Inductive HighlightColor := yellow | green | blue | pink | purple.

Module Highlight.
Record t := mk {
  id : string;
  bookId : string;
  cfiRange : string;
  text : string;
  color : HighlightColor;
  note : option string;
  createdAt : Z;
  updatedAt : Z
}.
End Highlight.

(** [NavItem] of epub.js: an entry of the table of contents.  An absent
    [subitems] is the empty list. *)
Module NavItem.
#[warnings="-register-all"]
Inductive t := mk {
  label : string;
  href : string;
  subitems : list t
}.
End NavItem.

Module EpubSearchMatch.
Record t := mk { cfi : string; excerpt : string }.
End EpubSearchMatch.

Module SearchResult.
Record t := mk { cfi : string; excerpt : string; chapterTitle : string }.
End SearchResult.

Module ChapterPosition.
Record t := mk { label : string; cfi : option string }.

(** [c.cfi!], read only from chapters that passed [c.cfi !== null]. *)
Definition cfi_nn (c : t) : string := default EmptyString (cfi c).
End ChapterPosition.

(** [Section] of epub.js, a spine item, as [searchBook] sees it:
    whether [load] resolves; the document it then holds
    ([getElementById]); [cfiFromElement] ([None] when it throws); and
    [find] ([None] when it throws). *)
Module SpineItem.
Definition Element := nat.
Record t := mk {
  href : string;
  load_ok : bool;
  document : option (string -> option Element);
  cfiFromElement : Element -> option string;
  find : string -> option (list EpubSearchMatch.t)
}.
End SpineItem.

(* ===================================================================== *)
(** * [app/services/cfi.ts] *)
(* ===================================================================== *)

Section Cfi.
(** [new EpubCFI().compare(a, b)] on two CFI strings: negative, zero or
    positive. *)
Variable compare : string -> string -> Z.
(** [new EpubCFI(s).spinePos]. *)
Variable spinePos : string -> Z.
(** [new EpubCFI(s).toString()]. *)
Variable cfiToString : string -> string.

(** The comparator [sortByCfi] hands to [sort], on the items paired with
    their parsed CFI (kept as the string it was parsed from). *)
Definition byCfiDescending {T : Type} (a b : T * string) : Z :=
  (- compare (cfiToString (snd a)) (cfiToString (snd b)))%Z.

Definition sortByCfi {T : Type} (items : list T) (getCfi : T -> string) : list T :=
  let withCfi := map (fun item => (item, getCfi item)) items in
  map fst (JS.sort byCfiDescending withCfi).

Definition sortBookmarksByPosition (bookmarks : list Bookmark.t) : list Bookmark.t :=
  sortByCfi bookmarks Bookmark.cfi.

Definition sortHighlightsByPosition (highlights : list Highlight.t) : list Highlight.t :=
  sortByCfi highlights Highlight.cfiRange.

(** The test in the loop of [isLocationBookmarked]: same spine position
    and [compare] equal to zero. *)
Definition sameAnchor (a b : string) : bool :=
  (spinePos a =? spinePos b)%Z && (compare a b =? 0)%Z.

Definition isLocationBookmarked
    (currentCfi : option string) (bookmarks : list Bookmark.t) : option Bookmark.t :=
  match currentCfi with
  | None => None
  | Some current =>
      if negb (JS.truthy current) then None
      else List.find (fun bookmark => sameAnchor current (Bookmark.cfi bookmark)) bookmarks
  end.
End Cfi.

(* ===================================================================== *)
(** * [app/services/search.ts]: chapter attribution *)
(* ===================================================================== *)

(** The test of [getMatchingTocEntries] on one entry: the href up to its
    [#] against the href of the spine item. *)
Definition tocHrefMatches (spineHref : string) (item : NavItem.t) : bool :=
  let tocHref := JS.split_hash_0 (NavItem.href item) in
  JS.includes spineHref tocHref || JS.endsWith spineHref tocHref.

(** The body of the loop of [traverse] on one entry, with the array
    [matches] passed along; the inner [fix] is [traverse] on the entry's
    [subitems]. *)
Fixpoint traverse_item (spineHref : string) (item : NavItem.t)
    (matches : list NavItem.t) : list NavItem.t :=
  let matches1 :=
    if tocHrefMatches spineHref item then matches ++ [item] else matches in
  match item with
  | NavItem.mk _ _ subitems =>
      if (0 <? length subitems)%nat then
        (fix traverse (items : list NavItem.t) (acc : list NavItem.t) : list NavItem.t :=
           match items with
           | [] => acc
           | i :: rest => traverse rest (traverse_item spineHref i acc)
           end) subitems matches1
      else matches1
  end.

Fixpoint traverse (spineHref : string) (items : list NavItem.t)
    (matches : list NavItem.t) : list NavItem.t :=
  match items with
  | [] => matches
  | item :: rest => traverse spineHref rest (traverse_item spineHref item matches)
  end.

Definition getMatchingTocEntries (toc : list NavItem.t) (spineHref : string) : list NavItem.t :=
  traverse spineHref toc [].

(** The entries of a chapter tree in the order [traverse] visits them: an
    entry, then its [subitems] and theirs, then its next sibling. *)
Fixpoint flattenNavItem (item : NavItem.t) : list NavItem.t :=
  match item with
  | NavItem.mk _ _ subitems =>
      item :: (fix go (items : list NavItem.t) : list NavItem.t :=
                 match items with
                 | [] => []
                 | i :: rest => flattenNavItem i ++ go rest
                 end) subitems
  end.

Fixpoint flattenToc (toc : list NavItem.t) : list NavItem.t :=
  match toc with
  | [] => []
  | item :: rest => flattenNavItem item ++ flattenToc rest
  end.

(** [entry] occurs in the chapter tree [toc]: at top level, or below an
    entry of it, at any depth. *)
Inductive occursIn (entry : NavItem.t) : list NavItem.t -> Prop :=
| occurs_here : forall rest, occursIn entry (entry :: rest)
| occurs_below : forall item rest,
    occursIn entry (NavItem.subitems item) -> occursIn entry (item :: rest)
| occurs_later : forall item rest,
    occursIn entry rest -> occursIn entry (item :: rest).

(** The body of the loop of [getChapterPositions]: the position of the
    anchor of a chapter, [null] ([None]) when the href has no anchor, the
    section no document, the document no such element, or
    [cfiFromElement] throws. *)
Definition chapterCfi (item : SpineItem.t) (chapter : NavItem.t) : option string :=
  match JS.split_hash_1 (NavItem.href chapter) with
  | Some anchor =>
      if JS.truthy anchor then
        match SpineItem.document item with
        | Some getElementById =>
            match getElementById anchor with
            | Some element => SpineItem.cfiFromElement item element
            | None => None
            end
        | None => None
        end
      else None
  | None => None
  end.

Definition getChapterPositions (item : SpineItem.t) (matchingChapters : list NavItem.t)
    : list ChapterPosition.t :=
  map (fun chapter =>
         ChapterPosition.mk (JS.trim (NavItem.label chapter)) (chapterCfi item chapter))
      matchingChapters.

Section FindChapter.
Variable compare : string -> string -> Z.

Definition hasCfi (c : ChapterPosition.t) : bool :=
  match ChapterPosition.cfi c with Some _ => true | None => false end.

(** The comparator of the ascending sort of the chapters. *)
Definition byCfiAscending (a b : ChapterPosition.t) : Z :=
  compare (ChapterPosition.cfi_nn a) (ChapterPosition.cfi_nn b).

(** The [for] loop over [sortedChapters], with its [break]. *)
Fixpoint scanChapters (matchCfi : string) (sortedChapters : list ChapterPosition.t)
    (bestMatch : ChapterPosition.t) : ChapterPosition.t :=
  match sortedChapters with
  | [] => bestMatch
  | chapter :: rest =>
      let comparison := compare (ChapterPosition.cfi_nn chapter) matchCfi in
      if (comparison <=? 0)%Z then scanChapters matchCfi rest chapter
      else bestMatch
  end.

Definition findChapterForMatch (matchCfi : string) (chapters : list ChapterPosition.t)
    (fallbackLabel : string) : string :=
  let chaptersWithCfi := List.filter hasCfi chapters in
  match chapters with
  | [] => fallbackLabel
  | first :: _ =>
      if (length chapters =? 1)%nat || (length chaptersWithCfi =? 0)%nat
      then ChapterPosition.label first
      else
        let sortedChapters := JS.sort byCfiAscending chaptersWithCfi in
        match sortedChapters with
        | [] => EmptyString (* not reached: the sort keeps the length *)
        | c0 :: _ => ChapterPosition.label (scanChapters matchCfi sortedChapters c0)
        end
  end.
End FindChapter.

(* ===================================================================== *)
(** * Effects: state that survives an exception *)
(* ===================================================================== *)

(** A computation reads and writes a state [S] and either returns or
    throws; what it wrote before throwing stays written, as in
    JavaScript.  [await] is sequencing: the engine runs one handler at a
    time. *)
Module Eff.
Inductive Exn :=
| LoadError (href : string)          (* [item.load] rejects *)
| FindError (href : string)          (* [item.find] throws *)
| ConstraintError (key : string)     (* IndexedDB [add] on an existing key *)
| HighlightNotFound                  (* [updateHighlight] on an unknown id *)
| OverlayError (cfiRange : string)   (* [annotations.add] throws *)
| CfiError (cfi : string).           (* [new EpubCFI] or [compare] throws *)

Definition M (S A : Type) : Type := S -> S * (Exn + A).

#[global] Instance M_ret {S} : MRet (M S) := fun A a s => (s, inr a).
#[global] Instance M_bind {S} : MBind (M S) := fun A B f m s =>
  match m s with
  | (s1, inr a) => f a s1
  | (s1, inl e) => (s1, inl e)
  end.

Definition throw {S A} (e : Exn) : M S A := fun s => (s, inl e).
Definition get {S} : M S S := fun s => (s, inr s).
Definition modify {S} (f : S -> S) : M S unit := fun s => (f s, inr tt).

(** [try { body } catch (e) { handler(e) } finally { fin }]. *)
Definition try_catch_finally {S} (body : M S unit) (handler : Exn -> M S unit)
    (fin : M S unit) : M S unit := fun s =>
  let '(s1, r1) := body s in
  let '(s2, r2) := match r1 with
                   | inr v => (s1, inr v)
                   | inl e => handler e s1
                   end in
  let '(s3, r3) := fin s2 in
  (s3, match r3 with inl e => inl e | inr _ => r2 end).

(** [for (const x of l) { body(x) }]. *)
Fixpoint for_of {S A} (l : list A) (body : A -> M S unit) : M S unit :=
  match l with
  | [] => mret tt
  | x :: rest => body x ;; for_of rest body
  end.

(** Running a computation of a part of the state inside the whole. *)
Definition zoom {S T A} (proj : S -> T) (upd : T -> S -> S) (m : M T A) : M S A :=
  fun s => let '(t1, r) := m (proj s) in (upd t1 s, r).
End Eff.
Import Eff.

(* ===================================================================== *)
(** * [app/services/search.ts]: [searchBook] *)
(* ===================================================================== *)

Module Book.
(** [toc] is [book.navigation?.toc]; [spine] is what [book.spine.each]
    enumerates. *)
Record t := mk { toc : option (list NavItem.t); spine : list SpineItem.t }.
End Book.

Module Search.
(** What a search does to its collaborators, in order. *)
Inductive Event :=
| Load (href : string)
| Find (href query : string)
| Unload (href : string)
| Warn (message : string).

(** The array [results] and the calls made so far. *)
Record State := mkState { results : list SearchResult.t; trace : list Event }.

Definition emit (e : Event) : M State unit :=
  modify (fun s => mkState (results s) (trace s ++ [e])).
Definition push (r : SearchResult.t) : M State unit :=
  modify (fun s => mkState (results s ++ [r]) (trace s)).

Definition load (item : SpineItem.t) : M State unit :=
  emit (Load (SpineItem.href item)) ;;
  if SpineItem.load_ok item then mret tt else throw (LoadError (SpineItem.href item)).

Definition find (item : SpineItem.t) (query : string) : M State (list EpubSearchMatch.t) :=
  emit (Find (SpineItem.href item) query) ;;
  match SpineItem.find item query with
  | Some matches => mret matches
  | None => throw (FindError (SpineItem.href item))
  end.

Definition unload (item : SpineItem.t) : M State unit :=
  emit (Unload (SpineItem.href item)).

Definition warn (message : string) : M State unit := emit (Warn message).

Definition initial : State := mkState [] [].
End Search.

Section SearchBook.
Variable compare : string -> string -> Z.
(** epub.js throws on a string it cannot read as a position.
    [cfiReturns matchCfi anchors] says whether the calls
    [findChapterForMatch] makes to it on a match and on the anchors it
    ranks all return: [new EpubCFI(a.cfi!)] and [compare] in the sort,
    [new EpubCFI(matchCfi)], [compare] in the loop. *)
Variable cfiReturns : string -> list string -> bool.

(** The call of [findChapterForMatch] in [searchBook], inside the
    [try]: its value where the calls to epub.js return, an exception
    where one throws.  None is made on no chapter, on one chapter, or on
    chapters without a position: the function has returned before. *)
Definition attribute (matchCfi : string) (chapters : list ChapterPosition.t)
    (fallbackLabel : string) : M Search.State string :=
  let chaptersWithCfi := List.filter hasCfi chapters in
  if (length chapters =? 0)%nat || (length chapters =? 1)%nat
     || (length chaptersWithCfi =? 0)%nat
  then mret (findChapterForMatch compare matchCfi chapters fallbackLabel)
  else if cfiReturns matchCfi (map ChapterPosition.cfi_nn chaptersWithCfi)
  then mret (findChapterForMatch compare matchCfi chapters fallbackLabel)
  else throw (CfiError matchCfi).

(** One turn of the loop over the spine items. *)
Definition searchItem (toc : list NavItem.t) (query : string) (item : SpineItem.t)
    : M Search.State unit :=
  try_catch_finally
    (Search.load item ;;
     let matchingChapters := getMatchingTocEntries toc (SpineItem.href item) in
     let chapterPositions := getChapterPositions item matchingChapters in
     matches ← Search.find item query;
     for_of matches (fun m =>
       chapterTitle ← attribute (EpubSearchMatch.cfi m) chapterPositions
                                (SpineItem.href item);
       Search.push (SearchResult.mk (EpubSearchMatch.cfi m)
                                    (EpubSearchMatch.excerpt m) chapterTitle)))
    (fun _ => Search.warn ("Failed to search spine item: " +:+ SpineItem.href item))
    (Search.unload item).

Definition searchBook (book : Book.t) (query : string)
    : M Search.State (list SearchResult.t) :=
  if negb (JS.truthy (JS.trim query)) || (String.length query <? 2)%nat
  then mret []
  else
    let toc := default [] (Book.toc book) in
    for_of (Book.spine book) (searchItem toc query) ;;
    s ← get;
    mret (Search.results s).
End SearchBook.

(* ===================================================================== *)
(** * [~/services/db]: the annotation store *)
(* ===================================================================== *)

Module Db.
(** The calls the store has received. *)
Inductive Call :=
| CreateBookmark (b : Bookmark.t)
| DeleteBookmark (id : string)
| CreateHighlight (h : Highlight.t)
| UpdateHighlight (id : string) (color : option HighlightColor)
                  (note : option (option string))
| DeleteHighlight (id : string).

(** The object stores [bookmarks] and [highlights], keyed by [id]. *)
Record t := mk {
  bookmarks : gmap string Bookmark.t;
  highlights : gmap string Highlight.t;
  calls : list Call
}.

Definition called (c : Call) : M t unit :=
  modify (fun db => mk (bookmarks db) (highlights db) (calls db ++ [c])).

(** [crypto.randomUUID()] and [Date.now()] are inputs: [uuid], [now].
    [db.add] rejects a key the store already holds. *)
Definition createBookmark (bookId cfi excerpt : string) (uuid : string) (now : Z)
    : M t Bookmark.t :=
  let bookmark := Bookmark.mk uuid bookId cfi excerpt now in
  called (CreateBookmark bookmark) ;;
  db ← get;
  match bookmarks db !! uuid with
  | Some _ => throw (ConstraintError uuid)
  | None =>
      modify (fun db => mk (<[uuid := bookmark]> (bookmarks db)) (highlights db) (calls db)) ;;
      mret bookmark
  end.

Definition deleteBookmark (id : string) : M t unit :=
  called (DeleteBookmark id) ;;
  modify (fun db => mk (delete id (bookmarks db)) (highlights db) (calls db)).

Definition createHighlight (bookId cfiRange text : string) (color : HighlightColor)
    (note : option string) (uuid : string) (now : Z) : M t Highlight.t :=
  let highlight := Highlight.mk uuid bookId cfiRange text color note now now in
  called (CreateHighlight highlight) ;;
  db ← get;
  match highlights db !! uuid with
  | Some _ => throw (ConstraintError uuid)
  | None =>
      modify (fun db => mk (bookmarks db) (<[uuid := highlight]> (highlights db)) (calls db)) ;;
      mret highlight
  end.

(** [data] is a partial [{color, note}]: an absent key keeps the field. *)
Definition updateHighlight (id : string) (color : option HighlightColor)
    (note : option (option string)) (now : Z) : M t Highlight.t :=
  called (UpdateHighlight id color note) ;;
  db ← get;
  match highlights db !! id with
  | None => throw HighlightNotFound
  | Some highlight =>
      let updated :=
        Highlight.mk (Highlight.id highlight) (Highlight.bookId highlight)
          (Highlight.cfiRange highlight) (Highlight.text highlight)
          (default (Highlight.color highlight) color)
          (default (Highlight.note highlight) note)
          (Highlight.createdAt highlight) now in
      modify (fun db => mk (bookmarks db) (<[Highlight.id updated := updated]> (highlights db))
                           (calls db)) ;;
      mret updated
  end.

Definition deleteHighlight (id : string) : M t unit :=
  called (DeleteHighlight id) ;;
  modify (fun db => mk (bookmarks db) (delete id (highlights db)) (calls db)).
End Db.

(* ===================================================================== *)
(** * The hook [useBookmarks] ([app/hooks/]) *)
(* ===================================================================== *)

Module Bookmarks.
(** The store and the React state [bookmarks] of the hook. *)
Record State := mkState { db : Db.t; bookmarks : list Bookmark.t }.

Definition onDb {A} (m : M Db.t A) : M State A :=
  zoom db (fun d s => mkState d (bookmarks s)) m.

Definition setBookmarks (f : list Bookmark.t -> list Bookmark.t) : M State unit :=
  modify (fun s => mkState (db s) (f (bookmarks s))).

(** [textContent.slice(0, 100).trim()] of the range at the location;
    [rangeText] is [None] when there is no rendition or no range, or
    when reading it throws (the [catch] keeps the empty excerpt). *)
Definition extractExcerpt (rangeText : option string) : string :=
  match rangeText with
  | Some textContent => JS.trim (String.substring 0 100 textContent)
  | None => EmptyString
  end.
End Bookmarks.

Section UseBookmarks.
Variable compare : string -> string -> Z.
Variable spinePos : string -> Z.

(** [bookId] and [location] are the props of the hook; [rangeText],
    [uuid] and [now] are what the renderer, [crypto.randomUUID] and
    [Date.now] give during the call. *)
Definition handleToggleBookmark (bookId : string) (location : option string)
    (rangeText : option string) (uuid : string) (now : Z) : M Bookmarks.State unit :=
  match location with
  | None => mret tt
  | Some loc =>
      if negb (JS.truthy loc) then mret tt
      else
        s ← get;
        match isLocationBookmarked compare spinePos location (Bookmarks.bookmarks s) with
        | Some existing =>
            Bookmarks.onDb (Db.deleteBookmark (Bookmark.id existing)) ;;
            Bookmarks.setBookmarks
              (List.filter (fun b =>
                 negb (String.eqb (Bookmark.id b) (Bookmark.id existing))))
        | None =>
            let excerpt := Bookmarks.extractExcerpt rangeText in
            bookmark ← Bookmarks.onDb (Db.createBookmark bookId loc excerpt uuid now);
            Bookmarks.setBookmarks (fun prev => prev ++ [bookmark])
        end
  end.
End UseBookmarks.

(* ===================================================================== *)
(** * The hook [useNotes] ([app/hooks/]): the highlight popup *)
(* ===================================================================== *)

(** [~/services/highlight]. *)
Definition getColorValue (color : HighlightColor) : string :=
  match color with
  | yellow => "#fef08a"
  | green => "#86efac"
  | blue => "#7dd3fc"
  | pink => "#f9a8d4"
  | purple => "#d8b4fe"
  end.

Definition DEFAULT_HIGHLIGHT_COLOR : HighlightColor := yellow.

Inductive Stage := color_picker | editing.

Definition Stage_eqb (a b : Stage) : bool :=
  match a, b with
  | color_picker, color_picker | editing, editing => true
  | _, _ => false
  end.

Module HighlightPopupState.
(** [position] is the pair of screen coordinates of the popup; the
    handlers only carry it along. *)
Record t := mk {
  position : Z * Z;
  isNew : bool;
  stage : Stage;
  highlightId : option string;
  cfiRange : string;
  text : string;
  color : HighlightColor;
  note : option string
}.

(** [{ ...prev, color }]. *)
Definition withColor (prev : t) (c : HighlightColor) : t :=
  mk (position prev) (isNew prev) (stage prev) (highlightId prev)
     (cfiRange prev) (text prev) c (note prev).
End HighlightPopupState.

(** An overlay of kind ["highlight"] registered with the renderer: its
    class name and its fill. *)
Module Annotation.
Record t := mk { className : string; fill : string }.
End Annotation.

Module Notes.
(** The store; the React state [highlights] and [highlightPopup];
    [renditionRef.current], when there is one, as the overlays it
    holds, keyed by range; and the window of the first iframe of the
    page, when there is one, as whether it holds a native text
    selection. *)
Record State := mkState {
  db : Db.t;
  highlights : list Highlight.t;
  highlightPopup : option HighlightPopupState.t;
  rendition : option (gmap string Annotation.t);
  selection : option bool
}.

Definition onDb {A} (m : M Db.t A) : M State A :=
  zoom db (fun d s => mkState d (highlights s) (highlightPopup s) (rendition s) (selection s)) m.

Definition setHighlights (f : list Highlight.t -> list Highlight.t) : M State unit :=
  modify (fun s => mkState (db s) (f (highlights s)) (highlightPopup s)
                           (rendition s) (selection s)).

Definition setHighlightPopup
    (f : option HighlightPopupState.t -> option HighlightPopupState.t) : M State unit :=
  modify (fun s => mkState (db s) (highlights s) (f (highlightPopup s))
                           (rendition s) (selection s)).

(** [iframe?.contentWindow?.getSelection()?.removeAllRanges()]. *)
Definition removeAllRanges : M State unit :=
  modify (fun s => mkState (db s) (highlights s) (highlightPopup s) (rendition s)
                           ((fun _ => false) <$> selection s)).

(** [rendition.annotations.add("highlight", cfiRange, ...)]; [ok] says
    whether the renderer accepts the range. *)
Definition annotationsAdd (ok : bool) (cfiRange className : string)
    (color : HighlightColor) : M State unit :=
  if ok then
    modify (fun s =>
      mkState (db s) (highlights s) (highlightPopup s)
        ((fun a => <[cfiRange := Annotation.mk className (getColorValue color)]> a)
           <$> rendition s)
        (selection s))
  else throw (OverlayError cfiRange).

(** [rendition.annotations.remove(cfiRange, "highlight")]. *)
Definition annotationsRemove (cfiRange : string) : M State unit :=
  modify (fun s =>
    mkState (db s) (highlights s) (highlightPopup s)
      ((fun a => delete cfiRange a) <$> rendition s) (selection s)).
End Notes.

(** [rangeText] is [range.toString()] of the selected range and
    [position] where the popup goes. *)
Definition handleSelection (cfiRange : string) (rangeText : string) (position : Z * Z)
    : M Notes.State unit :=
  s ← get;
  match Notes.rendition s with
  | None => mret tt
  | Some _ =>
      if negb (JS.truthy (JS.trim rangeText)) then mret tt
      else
        Notes.setHighlightPopup (fun _ =>
          Some (HighlightPopupState.mk position true color_picker None cfiRange
                  (String.substring 0 500 rangeText) DEFAULT_HIGHLIGHT_COLOR None))
  end.

Definition handleHighlightColorChange (color : HighlightColor) : M Notes.State unit :=
  Notes.setHighlightPopup (fun prev =>
    match prev with
    | Some p => Some (HighlightPopupState.withColor p color)
    | None => None
    end).

(** [uuid] and [now] are what [crypto.randomUUID] and [Date.now] give to
    [createHighlight]; [overlayOk] whether [annotations.add] returns. *)
Definition handleColorSelect (bookId : string) (color : HighlightColor)
    (uuid : string) (now : Z) (overlayOk : bool) : M Notes.State unit :=
  s ← get;
  match Notes.highlightPopup s, Notes.rendition s with
  | Some highlightPopup, Some _ =>
      if negb (HighlightPopupState.isNew highlightPopup)
         || negb (Stage_eqb (HighlightPopupState.stage highlightPopup) color_picker)
      then
        Notes.setHighlightPopup (fun prev =>
          match prev with
          | Some p => Some (HighlightPopupState.withColor p color)
          | None => None
          end)
      else
        let cfiRange := HighlightPopupState.cfiRange highlightPopup in
        let text := HighlightPopupState.text highlightPopup in
        highlight ← Notes.onDb (Db.createHighlight bookId cfiRange text color None uuid now);
        Notes.annotationsAdd overlayOk cfiRange "" color ;;
        Notes.removeAllRanges ;;
        Notes.setHighlights (fun prev => prev ++ [highlight]) ;;
        Notes.setHighlightPopup (fun _ =>
          Some (HighlightPopupState.mk
                  (HighlightPopupState.position highlightPopup)
                  false editing (Some (Highlight.id highlight))
                  cfiRange text color None))
  | _, _ => mret tt
  end.

Definition handleHighlightSave (note : option string) (now : Z) (overlayOk : bool)
    : M Notes.State unit :=
  s ← get;
  match Notes.highlightPopup s, Notes.rendition s with
  | Some highlightPopup, Some _ =>
      match HighlightPopupState.highlightId highlightPopup with
      | None => mret tt
      | Some highlightId =>
          if negb (JS.truthy highlightId) then mret tt
          else
            let cfiRange := HighlightPopupState.cfiRange highlightPopup in
            let color := HighlightPopupState.color highlightPopup in
            updated ← Notes.onDb (Db.updateHighlight highlightId (Some color) (Some note) now);
            Notes.setHighlights
              (map (fun h => if String.eqb (Highlight.id h) (Highlight.id updated)
                             then updated else h)) ;;
            try_catch_finally
              (Notes.annotationsRemove cfiRange ;;
               Notes.annotationsAdd overlayOk cfiRange
                 (match note with
                  | Some n => if JS.truthy n then "hl-has-note" else ""
                  | None => ""
                  end) color)
              (fun _ => mret tt)
              (mret tt) ;;
            Notes.setHighlightPopup (fun _ => None)
      end
  | _, _ => mret tt
  end.

Definition handleCancelHighlight : M Notes.State unit :=
  s ← get;
  (match Notes.highlightPopup s with
   | Some current =>
       if Stage_eqb (HighlightPopupState.stage current) color_picker
       then Notes.removeAllRanges
       else mret tt
   | None => mret tt
   end) ;;
  Notes.setHighlightPopup (fun _ => None).

(* ===================================================================== *)
(** * What is asked of the comparison primitive *)
(* ===================================================================== *)

(** A consistent comparator in the sense of ECMAScript's [sort]: the sign
    of [cmp b a] is the opposite of the sign of [cmp a b], and "not after"
    is transitive.  Position tokens are totally ordered, so [compare] is
    one. *)
Class Consistent {A : Type} (cmp : A -> A -> Z) : Prop := {
  cmp_antisym : forall a b, (cmp a b < 0 <-> 0 < cmp b a)%Z;
  cmp_trans : forall a b c, (cmp a b <= 0 -> cmp b c <= 0 -> cmp a c <= 0)%Z
}.

(** "Not after", the order a sort by [cmp] arranges by. *)
Definition notAfter {A : Type} (cmp : A -> A -> Z) (a b : A) : Prop := (cmp a b <= 0)%Z.

(** A reading of CFI strings to run the engine on examples: the numbers
    written in the token, in order, compared step by step, a token that
    stops first coming first; the spine position is read off the second
    step, as epub.js does. *)
Module RefCfi.
Definition digit (c : ascii) : option Z :=
  let n := nat_of_ascii c in
  if (48 <=? n)%nat && (n <=? 57)%nat then Some (Z.of_nat (n - 48)) else None.

Fixpoint numbers_from (s : string) (cur : option Z) : list Z :=
  match s with
  | EmptyString => match cur with Some n => [n] | None => [] end
  | String c s' =>
      match digit c with
      | Some d => numbers_from s' (Some (10 * default 0%Z cur + d)%Z)
      | None =>
          match cur with
          | Some n => n :: numbers_from s' None
          | None => numbers_from s' None
          end
      end
  end.

Definition numbers (s : string) : list Z := numbers_from s None.

Fixpoint lex (a b : list Z) : Z :=
  match a, b with
  | [], [] => 0
  | [], _ :: _ => -1
  | _ :: _, [] => 1
  | x :: a', y :: b' =>
      if (x <? y)%Z then -1 else if (y <? x)%Z then 1 else lex a' b'
  end.

Definition compare (a b : string) : Z := lex (numbers a) (numbers b).

Definition spinePos (s : string) : Z :=
  match numbers s with
  | _ :: p :: _ => (p / 2 - 1)%Z
  | _ => -1
  end.

Definition cfiToString (s : string) : string := s.

(** The tokens it reads: those written [epubcfi(...)]; on any other
    string a call throws. *)
Definition readable (s : string) : bool := String.prefix "epubcfi(" s.

Definition cfiReturns (matchCfi : string) (anchors : list string) : bool :=
  forallb readable (matchCfi :: anchors).
End RefCfi.

(* ===================================================================== *)
(** * The properties, as the specification words them *)
(* ===================================================================== *)

(** ** Chapter attribution: "last anchor at or before the target" *)

Definition atOrBefore (compare : string -> string -> Z) (matchCfi : string)
    (c : ChapterPosition.t) : bool :=
  (compare (ChapterPosition.cfi_nn c) matchCfi <=? 0)%Z.

(** The chapters with a resolved position, in ascending order of it. *)
Definition resolvedAscending (compare : string -> string -> Z)
    (chapters : list ChapterPosition.t) : list ChapterPosition.t :=
  JS.sort (byCfiAscending compare) (List.filter hasCfi chapters).


(** ** The chapter tree: "the file portion of the href" *)

(** [file] is the file portion of [href]: it holds no [#], and [href] is
    [file] alone or [file] followed by [#] and an anchor. *)
Definition filePortion (href file : string) : Prop :=
  (forall pre post, file <> pre +:+ "#" +:+ post) /\
  (href = file \/ exists anchor, href = file +:+ "#" +:+ anchor).

(** The href of [entry] targets the section: its file portion names a
    file, and the href of the section is that file, alone or below a
    directory. *)
Definition targetsSection (spineHref : string) (entry : NavItem.t) : Prop :=
  exists file,
    filePortion (NavItem.href entry) file /\ file <> "" /\
    (spineHref = file \/ exists dir, spineHref = dir +:+ "/" +:+ file).

(** The file portion of the href of [entry] occurs somewhere in the href
    of the section. *)
Definition fileOccursIn (spineHref : string) (entry : NavItem.t) : Prop :=
  exists file,
    filePortion (NavItem.href entry) file /\
    exists pre post, spineHref = pre +:+ file +:+ post.

(** ** Search: what each content section contributes *)

(** Whether the attribution of a match of a section returns: no call to
    epub.js is made with fewer than two matched chapters or with no
    resolved one; otherwise the calls return or one throws. *)
Definition attributes (cfiReturns : string -> list string -> bool)
    (toc : list NavItem.t) (item : SpineItem.t) (m : EpubSearchMatch.t) : bool :=
  let chapterPositions :=
    getChapterPositions item (getMatchingTocEntries toc (SpineItem.href item)) in
  let chaptersWithCfi := List.filter hasCfi chapterPositions in
  (length chapterPositions =? 0)%nat || (length chapterPositions =? 1)%nat
  || (length chaptersWithCfi =? 0)%nat
  || cfiReturns (EpubSearchMatch.cfi m) (map ChapterPosition.cfi_nn chaptersWithCfi).

(** The matches before the first whose attribution throws. *)
Fixpoint attributedPrefix (ok : EpubSearchMatch.t -> bool) (matches : list EpubSearchMatch.t)
    : list EpubSearchMatch.t :=
  match matches with
  | [] => []
  | m :: rest => if ok m then m :: attributedPrefix ok rest else []
  end.

(** A section is processed when it loads, the text match returns and
    every match is attributed. *)
Definition sectionSucceeds (cfiReturns : string -> list string -> bool)
    (toc : list NavItem.t) (query : string) (item : SpineItem.t) : bool :=
  SpineItem.load_ok item &&
  match SpineItem.find item query with
  | Some matches => forallb (attributes cfiReturns toc item) matches
  | None => false
  end.

(** A match of a section, attributed to its chapter. *)
Definition sectionResult (compare : string -> string -> Z) (toc : list NavItem.t)
    (item : SpineItem.t) (m : EpubSearchMatch.t) : SearchResult.t :=
  let chapterPositions :=
    getChapterPositions item (getMatchingTocEntries toc (SpineItem.href item)) in
  SearchResult.mk (EpubSearchMatch.cfi m) (EpubSearchMatch.excerpt m)
    (findChapterForMatch compare (EpubSearchMatch.cfi m) chapterPositions
                         (SpineItem.href item)).

(** The matches of a section, each attributed to its chapter. *)
Definition sectionMatches (compare : string -> string -> Z) (toc : list NavItem.t)
    (query : string) (item : SpineItem.t) : list SearchResult.t :=
  map (sectionResult compare toc item) (default [] (SpineItem.find item query)).

(** What a section adds to the results: nothing when it does not load
    or the text match throws; otherwise its matches, attributed, up to
    the first whose attribution throws. *)
Definition sectionYield (compare : string -> string -> Z)
    (cfiReturns : string -> list string -> bool) (toc : list NavItem.t)
    (query : string) (item : SpineItem.t) : list SearchResult.t :=
  if SpineItem.load_ok item then
    map (sectionResult compare toc item)
        (attributedPrefix (attributes cfiReturns toc item)
                          (default [] (SpineItem.find item query)))
  else [].

(** The calls one turn of the loop makes: load; the text match when the
    load resolved; a warning when the section is not processed; unload
    in every case. *)
Definition sectionTrace (cfiReturns : string -> list string -> bool)
    (toc : list NavItem.t) (query : string) (item : SpineItem.t) : list Search.Event :=
  let href := SpineItem.href item in
  [Search.Load href] ++
  (if SpineItem.load_ok item then [Search.Find href query] else []) ++
  (if sectionSucceeds cfiReturns toc query item then []
   else [Search.Warn ("Failed to search spine item: " +:+ href)]) ++
  [Search.Unload href].

Definition sectionWarning (item : SpineItem.t) : Search.Event :=
  Search.Warn ("Failed to search spine item: " +:+ SpineItem.href item).

Definition isWarn (e : Search.Event) : bool :=
  match e with Search.Warn _ => true | _ => false end.
Definition isLoad (e : Search.Event) : bool :=
  match e with Search.Load _ => true | _ => false end.
Definition isFind (e : Search.Event) : bool :=
  match e with Search.Find _ _ => true | _ => false end.
Definition isUnload (e : Search.Event) : bool :=
  match e with Search.Unload _ => true | _ => false end.

(** ** Bookmarks: one per anchor *)

(** The bookmarks of a list that sit at the anchor of [p]. *)
Definition bookmarksAt (compare : string -> string -> Z) (spinePos : string -> Z)
    (p : string) (bookmarks : list Bookmark.t) : list Bookmark.t :=
  List.filter (fun b => sameAnchor compare spinePos p (Bookmark.cfi b)) bookmarks.

(** At most one bookmark per exact (section, position) pair. *)
Definition onePerAnchor (compare : string -> string -> Z) (spinePos : string -> Z)
    (bookmarks : list Bookmark.t) : Prop :=
  forall p, (length (bookmarksAt compare spinePos p bookmarks) <= 1)%nat.

(** The React state of the hook mirrors the store: the bookmarks of the
    list are those the store holds for the book, each under its id. *)
Definition mirrorsStore (bookId : string) (s : Bookmarks.State) : Prop :=
  NoDup (map Bookmark.id (Bookmarks.bookmarks s)) /\
  forall b, In b (Bookmarks.bookmarks s) <->
            Db.bookmarks (Bookmarks.db s) !! Bookmark.id b = Some b /\
            Bookmark.bookId b = bookId.

(** ** Ordering: a stable sort, most advanced first *)

(** [pos] gives the position of an item.  [sortf] rearranges the items,
    leaves them in descending order of position, keeps the items at any
    one position [p] in the order they came in, and leaves a sorted
    array as it is. *)
Record StableDescending {T : Type} (compare : string -> string -> Z)
    (pos : T -> string) (sortf : list T -> list T) : Prop := {
  sd_permutation : forall items, Permutation (sortf items) items;
  sd_descending : forall items,
    StronglySorted (fun a b => (0 <= compare (pos a) (pos b))%Z) (sortf items);
  sd_stable : forall items p,
    List.filter (fun x => (compare (pos x) p =? 0)%Z) (sortf items) =
    List.filter (fun x => (compare (pos x) p =? 0)%Z) items;
  sd_sorted_fixed : forall items,
    StronglySorted (fun a b => (0 <= compare (pos a) (pos b))%Z) items ->
    sortf items = items;
  sd_idempotent : forall items, sortf (sortf items) = sortf items
}.

(** ** The shared-section scenario *)

(** Chapters 22 to 27 in one content section, each with its anchor
    resolved to a position. *)
Definition chapters22to27 (a22 a23 a24 a25 a26 a27 : string) : list ChapterPosition.t :=
  [ ChapterPosition.mk "22" (Some a22); ChapterPosition.mk "23" (Some a23);
    ChapterPosition.mk "24" (Some a24); ChapterPosition.mk "25" (Some a25);
    ChapterPosition.mk "26" (Some a26); ChapterPosition.mk "27" (Some a27) ].

(** ** Sample data *)

(** A book whose seventh spine item holds chapters 22 to 27; a match
    inside chapter 26; a few bookmarks. *)
Module Demo.
Definition a22 : string := "epubcfi(/6/14!/4/2)".
Definition a23 : string := "epubcfi(/6/14!/4/40)".
Definition a24 : string := "epubcfi(/6/14!/4/80)".
Definition a25 : string := "epubcfi(/6/14!/4/120)".
Definition a26 : string := "epubcfi(/6/14!/4/160)".
Definition a27 : string := "epubcfi(/6/14!/4/200)".
(** After the anchor of chapter 26, before that of chapter 27. *)
Definition inChapter26 : string := "epubcfi(/6/14!/4/162/1:15)".
(** Before every anchor of the section. *)
Definition beforeAll : string := "epubcfi(/6/14!/4/1:0)".

Definition sharedFile : string := "OEBPS/chapters22-27.xhtml".

(** A table of contents with nested entries: the part that holds
    chapters 22 to 27, all in one file, and a chapter in another. *)
Definition toc : list NavItem.t :=
  [ NavItem.mk " Loomings " "chapter01.xhtml" [];
    NavItem.mk "Part" "chapters22-27.xhtml"
      [ NavItem.mk "22" "chapters22-27.xhtml#c22" [];
        NavItem.mk "26" "chapters22-27.xhtml#c26"
          [ NavItem.mk "26, second half" "chapters22-27.xhtml#c26b" [] ];
        NavItem.mk "27" "chapters22-27.xhtml#c27" [] ] ].

Definition anchors (id : string) : option SpineItem.Element :=
  if String.eqb id "c22" then Some 22%nat
  else if String.eqb id "c26" then Some 26%nat
  else if String.eqb id "c26b" then Some 260%nat
  else if String.eqb id "c27" then Some 27%nat
  else None.

Definition cfiOf (e : SpineItem.Element) : option string :=
  if (e =? 22)%nat then Some a22
  else if (e =? 26)%nat then Some a26
  else if (e =? 27)%nat then Some a27
  else None.

Definition hit (cfi : string) : EpubSearchMatch.t := EpubSearchMatch.mk cfi "the chief mate".

(** Three spine items: one whose load fails, the shared file with one
    match in chapter 26, and one whose text match throws. *)
Definition unreadable : SpineItem.t :=
  SpineItem.mk "OEBPS/chapter01.xhtml" false None (fun _ => None) (fun _ => Some []).
Definition shared : SpineItem.t :=
  SpineItem.mk sharedFile true (Some anchors) cfiOf (fun _ => Some [hit inChapter26]).
Definition broken : SpineItem.t :=
  SpineItem.mk "OEBPS/chapter99.xhtml" true (Some (fun _ => None)) (fun _ => None)
               (fun _ => None).

Definition book : Book.t := Book.mk (Some toc) [unreadable; shared; broken].

(** The shared file with three matches, the third at a position that
    cannot be read. *)
Definition garbled : SpineItem.t :=
  SpineItem.mk sharedFile true (Some anchors) cfiOf
    (fun _ => Some [hit inChapter26; hit a27; EpubSearchMatch.mk "no position" "mate"]).
Definition garbledBook : Book.t := Book.mk (Some toc) [garbled].

(** A section whose file name ends like that of another chapter, and a
    table of contents with an entry of that chapter and an entry that is
    an anchor only. *)
Definition looseFile : string := "OEBPS/xch1.xhtml".
Definition anchorOnly : NavItem.t := NavItem.mk "Top" "#top" [].
Definition otherChapter : NavItem.t := NavItem.mk "One" "ch1.xhtml" [].
Definition looseToc : list NavItem.t := [anchorOnly; otherChapter].

Definition bookId : string := "book-1".
Definition bm1 : Bookmark.t := Bookmark.mk "bm-1" bookId "epubcfi(/6/8!/4/2/1:0)" "Call me" 10.
Definition bm2 : Bookmark.t := Bookmark.mk "bm-2" bookId a26 "The chief mate" 20.
Definition bm3 : Bookmark.t := Bookmark.mk "bm-3" bookId "epubcfi(/6/8!/4/2/1:0)" "Call me" 30.

(** The reader with nothing stored, a page displayed and a passage
    selected. *)
Definition selectedRange : string := "epubcfi(/6/14!/4/160,/1:0,/1:14)".
Definition idle : Notes.State :=
  Notes.mkState (Db.mk ∅ ∅ []) [] None (Some ∅) (Some true).
Definition picking : Notes.State :=
  fst (handleSelection selectedRange "The chief mate" (120, 80)%Z idle).

(** The bookmark hook on a book with no bookmark yet. *)
Definition noBookmarks : Bookmarks.State := Bookmarks.mkState (Db.mk ∅ ∅ []) [].
End Demo.

(* ===================================================================== *)
(** * The rest of [app/services/search.ts], of the hooks and of the store *)
(* ===================================================================== *)

(** ** [escapeRegex] *)

(** The characters of the class [[.*+?^${}()|[\]\\]]. *)
Definition isRegexSpecial (c : ascii) : bool :=
  existsb (Ascii.eqb c)
    ["."; "*"; "+"; "?"; "^"; "$"; "{"; "}"; "("; ")"; "|"; "["; "]"; "\"]%char.

(** [string.replace(/[.*+?^${}()|[\]\\]/g, "\\$&")]: a backslash goes in
    front of every character of the class. *)
Fixpoint escapeRegex (s : string) : string :=
  match s with
  | EmptyString => EmptyString
  | String c s' =>
      if isRegexSpecial c then String "\" (String c (escapeRegex s'))
      else String c (escapeRegex s')
  end.

(** The text a pattern spells when it is made of plain characters and of
    escaped special characters only; [None] for any other pattern (a
    special character left bare, a backslash before anything else). *)
Fixpoint literalOf (pattern : string) : option string :=
  match pattern with
  | EmptyString => Some EmptyString
  | String c rest =>
      if Ascii.eqb c "\" then
        match rest with
        | String d rest' =>
            if isRegexSpecial d then String d <$> literalOf rest' else None
        | EmptyString => None
        end
      else if isRegexSpecial c then None
      else String c <$> literalOf rest
  end.

(** ** [searchBook]: the sections held in memory *)

(** The sections loaded and not yet unloaded after a run of calls. *)
Fixpoint removeFirst (h : string) (l : list string) : list string :=
  match l with
  | [] => []
  | x :: l' => if String.eqb x h then l' else x :: removeFirst h l'
  end.

Fixpoint loadedAfter (loaded : list string) (trace : list Search.Event) : list string :=
  match trace with
  | [] => loaded
  | Search.Load h :: rest => loadedAfter (h :: loaded) rest
  | Search.Unload h :: rest => loadedAfter (removeFirst h loaded) rest
  | _ :: rest => loadedAfter loaded rest
  end.

(** A string of white space only (the empty string is one). *)
Fixpoint allSpace (s : string) : bool :=
  match s with
  | EmptyString => true
  | String c s' => JS.is_space c && allSpace s'
  end.

(** ** The hook [useBookmarks]: the rest *)

Definition handleDeleteBookmark (id : string) : M Bookmarks.State unit :=
  Bookmarks.onDb (Db.deleteBookmark id) ;;
  Bookmarks.setBookmarks
    (List.filter (fun b => negb (String.eqb (Bookmark.id b) id))).

(** [isCurrentPageBookmarked]: [isLocationBookmarked(location, bookmarks)
    !== null]. *)
Definition isCurrentPageBookmarked (compare : string -> string -> Z)
    (spinePos : string -> Z) (location : option string) (s : Bookmarks.State) : bool :=
  match isLocationBookmarked compare spinePos location (Bookmarks.bookmarks s) with
  | Some _ => true
  | None => false
  end.

(** ** The hook [useNotes]: the rest *)

(** [highlightsRef.current] is the state [highlights]: an effect copies it
    after every render, and a handler runs between renders.  [clientX]
    and [clientY] are the coordinates of the click. *)
Definition handleHighlightClick (cfiRange : string) (clientX clientY : Z)
    : M Notes.State unit :=
  s ← get;
  match List.find (fun h => String.eqb (Highlight.cfiRange h) cfiRange)
                  (Notes.highlights s) with
  | None => mret tt
  | Some highlight =>
      Notes.setHighlightPopup (fun _ =>
        Some (HighlightPopupState.mk (clientX, clientY) false editing
                (Some (Highlight.id highlight)) (Highlight.cfiRange highlight)
                (Highlight.text highlight) (Highlight.color highlight)
                (Highlight.note highlight)))
  end.

(** [h.note ? "hl-has-note" : ""]. *)
Definition noteClass (note : option string) : string :=
  match note with
  | Some n => if JS.truthy n then "hl-has-note" else ""
  | None => ""
  end.

(** [accepts] says of a range whether [annotations.add] returns for it
    in the section displayed; the rendition passed is the one of the
    hook. *)
Definition restoreHighlights (accepts : string -> bool) : M Notes.State unit :=
  s ← get;
  for_of (Notes.highlights s) (fun h =>
    try_catch_finally
      (Notes.annotationsAdd (accepts (Highlight.cfiRange h)) (Highlight.cfiRange h)
                            (noteClass (Highlight.note h)) (Highlight.color h))
      (fun _ => mret tt)
      (mret tt)).

(** [cfiRangeFromPopup] is the optional second argument.  The updater
    handed to [setHighlights], which looks the range up when it was not
    given, has run when the handler resumes after [await]. *)
Definition handleDeleteHighlight (id : string) (cfiRangeFromPopup : option string)
    : M Notes.State unit :=
  s ← get;
  let given :=
    match cfiRangeFromPopup with
    | Some r => if JS.truthy r then Some r else None
    | None => None
    end in
  let cfiRange :=
    match given with
    | Some r => Some r
    | None =>
        Highlight.cfiRange <$>
          List.find (fun h => String.eqb (Highlight.id h) id) (Notes.highlights s)
    end in
  Notes.setHighlights (List.filter (fun h => negb (String.eqb (Highlight.id h) id))) ;;
  Notes.onDb (Db.deleteHighlight id) ;;
  (match cfiRange, Notes.rendition s with
   | Some r, Some _ =>
       if JS.truthy r then
         try_catch_finally (Notes.annotationsRemove r) (fun _ => mret tt) (mret tt)
       else mret tt
   | _, _ => mret tt
   end) ;;
  Notes.setHighlightPopup (fun _ => None).

(** The popup and the highlights agree: a colour picker is the draft of
    a new highlight and has no id; an editor has the id of a highlight
    of the list, with its range. *)
Definition popupAgrees (s : Notes.State) : Prop :=
  match Notes.highlightPopup s with
  | None => True
  | Some popup =>
      match HighlightPopupState.stage popup with
      | color_picker =>
          HighlightPopupState.isNew popup = true /\
          HighlightPopupState.highlightId popup = None
      | editing =>
          HighlightPopupState.isNew popup = false /\
          exists h, In h (Notes.highlights s) /\
                    HighlightPopupState.highlightId popup = Some (Highlight.id h) /\
                    HighlightPopupState.cfiRange popup = Highlight.cfiRange h
      end
  end.


(** The overlays after [restoreHighlights]: those of the highlights the
    renderer accepts, put over the ones held, in the order of the
    list. *)
Definition restoredOverlays (accepts : string -> bool) (highlights : list Highlight.t)
    (annotations : gmap string Annotation.t) : gmap string Annotation.t :=
  fold_left
    (fun a h =>
       if accepts (Highlight.cfiRange h)
       then <[Highlight.cfiRange h :=
                Annotation.mk (noteClass (Highlight.note h))
                              (getColorValue (Highlight.color h))]> a
       else a)
    highlights annotations.

(** What the page does with the notes of a book: a call of one of the
    handlers the hook returns, with what the environment gives during
    the call. *)
Inductive NotesAction :=
| Select (cfiRange rangeText : string) (position : Z * Z)
| ClickHighlight (cfiRange : string) (clientX clientY : Z)
| ChangeColor (color : HighlightColor)
| SelectColor (color : HighlightColor) (uuid : string) (now : Z) (overlayOk : bool)
| Save (note : option string) (now : Z) (overlayOk : bool)
| Cancel
| Delete (id : string) (cfiRangeFromPopup : option string)
| Restore (accepts : string -> bool).

Definition notesStep (bookId : string) (a : NotesAction) : M Notes.State unit :=
  match a with
  | Select cfiRange rangeText position => handleSelection cfiRange rangeText position
  | ClickHighlight cfiRange clientX clientY => handleHighlightClick cfiRange clientX clientY
  | ChangeColor color => handleHighlightColorChange color
  | SelectColor color uuid now overlayOk => handleColorSelect bookId color uuid now overlayOk
  | Save note now overlayOk => handleHighlightSave note now overlayOk
  | Cancel => handleCancelHighlight
  | Delete id cfiRangeFromPopup => handleDeleteHighlight id cfiRangeFromPopup
  | Restore accepts => restoreHighlights accepts
  end.

(** Calls made one after the other, each run to its end before the
    next; a call that throws leaves the state it had reached. *)
Definition notesSession (bookId : string) (actions : list NotesAction) (s : Notes.State)
    : Notes.State :=
  fold_left (fun s a => fst (notesStep bookId a s)) actions s.

(** Every highlight of the list is in the store, under its id, as the
    list has it. *)
Definition listInStore (s : Notes.State) : Prop :=
  forall h, In h (Notes.highlights s) ->
            Db.highlights (Notes.db s) !! Highlight.id h = Some h.

(* ===================================================================== *)
(** * [~/services/epub]: the label of the current chapter *)
(* ===================================================================== *)

(** What [rendition.currentLocation()] gives to [getCurrentChapterLabel]:
    nothing, a location with no [start], a location that starts in the
    file [href]; or it throws. *)
Inductive CurrentLocation :=
| NoLocation
| NoStart
| StartsAt (href : string)
| LocationThrows.

(** [itemHref === currentBase || currentBase.endsWith(itemHref)]. *)
Definition currentHrefMatches (currentHref : string) (item : NavItem.t) : bool :=
  let itemHref := JS.split_hash_0 (NavItem.href item) in
  let currentBase := JS.split_hash_0 currentHref in
  String.eqb itemHref currentBase || JS.endsWith currentBase itemHref.

(** The body of the loop of [findInToc] on one entry: [Some] is what it
    returns, [None] that the loop goes on; the inner [fix] is [findInToc]
    on the entry's [subitems]. *)
Fixpoint findInToc_item (currentHref : string) (item : NavItem.t) : option string :=
  if currentHrefMatches currentHref item then Some (JS.trim (NavItem.label item))
  else
    match item with
    | NavItem.mk _ _ subitems =>
        if (0 <? length subitems)%nat then
          match (fix findInToc (items : list NavItem.t) : option string :=
                   match items with
                   | [] => None
                   | i :: rest =>
                       match findInToc_item currentHref i with
                       | Some r => Some r
                       | None => findInToc rest
                       end
                   end) subitems with
          | Some found => if JS.truthy found then Some found else None
          | None => None
          end
        else None
    end.

(** [findInToc]: [None] is [null]. *)
Fixpoint findInToc (currentHref : string) (items : list NavItem.t) : option string :=
  match items with
  | [] => None
  | item :: rest =>
      match findInToc_item currentHref item with
      | Some r => Some r
      | None => findInToc currentHref rest
      end
  end.

Definition getCurrentChapterLabel (location : CurrentLocation) (toc : list NavItem.t)
    : string :=
  match location with
  | StartsAt currentHref =>
      match findInToc currentHref toc with
      | Some label => if JS.truthy label then label else "Unknown chapter"
      | None => "Unknown chapter"
      end
  | _ => "Unknown location"
  end.

(* ===================================================================== *)
(** * [~/services/db]: books, their files, chat messages, settings *)
(* ===================================================================== *)

(** The contents of a [Blob]. *)
Definition Blob : Type := string.

Module BookRecord.
Record t := mk {
  id : string;
  title : string;
  author : string;
  cover : option Blob;
  createdAt : Z;
  updatedAt : Z;
  location : option string;
  fullText : option string
}.
End BookRecord.

Module Epub.
Record t := mk { id : string; blob : Blob }.
End Epub.

Module ChatMessage.
Inductive Role := user | assistant.
Record t := mk {
  id : string;
  bookId : string;
  role : Role;
  content : string;
  locationCfi : option string;
  locationLabel : option string;
  locationExcerpt : option string;
  createdAt : Z
}.
End ChatMessage.

Module ReaderSettings.
Inductive Theme := light | dark | auto.
Inductive FontSize := xs | s | m | l | xl.
Inductive Spacing := compact | normal | relaxed.
Inductive LineHeight := tight | regular | loose.
Record t := mk {
  id : string;
  theme : Theme;
  fontSize : FontSize;
  spacing : Spacing;
  lineHeight : LineHeight;
  updatedAt : Z
}.
(** [Partial<Omit<ReaderSettings, "id" | "updatedAt">>]. *)
Record Patch := mkPatch {
  newTheme : option Theme;
  newFontSize : option FontSize;
  newSpacing : option Spacing;
  newLineHeight : option LineHeight
}.
End ReaderSettings.

(** [defaultSettings]; [loadedAt] is [Date.now()] when the module was
    loaded.  The line height ["normal"] is [regular] here. *)
Definition defaultSettings (loadedAt : Z) : ReaderSettings.t :=
  ReaderSettings.mk "global" ReaderSettings.auto ReaderSettings.m ReaderSettings.normal
                    ReaderSettings.regular loadedAt.

(** The order of the keys of an object store: strings by code unit. *)
Definition keyOrder (a b : string) : Z :=
  match String.compare a b with
  | Lt => -1
  | Eq => 0
  | Gt => 1
  end.

(** [db.getAll(store)]: the records, in the order of their keys. *)
Definition getAll {V : Type} (store : gmap string V) : list V :=
  map snd (JS.sort (fun a b => keyOrder (fst a) (fst b)) (map_to_list store)).

(** [db.getAllFromIndex(store, "bookId", bookId)]: the records of the
    book, in the order of their keys. *)
Definition getAllFromIndex {V : Type} (bookIdOf : V -> string) (store : gmap string V)
    (bookId : string) : list V :=
  List.filter (fun v => String.eqb (bookIdOf v) bookId) (getAll store).

(** [...records.map((r) => tx.objectStore(store).delete(r.id))]. *)
Definition deleteEach {V : Type} (idOf : V -> string) (records : list V)
    (store : gmap string V) : gmap string V :=
  fold_left (fun acc r => delete (idOf r) acc) records store.

Module Library.
(** The object stores of the database ["quick-reader"], each keyed by
    the [id] of its records. *)
Record t := mk {
  books : gmap string BookRecord.t;
  epubs : gmap string Epub.t;
  bookmarks : gmap string Bookmark.t;
  highlights : gmap string Highlight.t;
  chatMessages : gmap string ChatMessage.t;
  settings : gmap string ReaderSettings.t
}.

Inductive Error :=
| BookNotFound                    (* [new Error("Book not found")] *)
| KeyExists (key : string).       (* [add] on an existing key: the transaction aborts *)

(** [books.sort((a, b) => b.updatedAt - a.updatedAt)]. *)
Definition byUpdatedAtDescending (a b : BookRecord.t) : Z :=
  (BookRecord.updatedAt b - BookRecord.updatedAt a)%Z.

Definition getAllBooks (db : t) : list BookRecord.t :=
  JS.sort byUpdatedAtDescending (getAll (books db)).

(** [bookData] is the title, the author and the cover; [uuid] and [now]
    are what [crypto.randomUUID] and [Date.now] give.  Both [add]s are
    in one transaction. *)
Definition createBook (title author : string) (cover : option Blob) (epubBlob : Blob)
    (uuid : string) (now : Z) (db : t) : t * (Error + string) :=
  let book := BookRecord.mk uuid title author cover now now None None in
  let epub := Epub.mk uuid epubBlob in
  match books db !! uuid, epubs db !! uuid with
  | None, None =>
      (mk (<[uuid := book]> (books db)) (<[uuid := epub]> (epubs db))
          (bookmarks db) (highlights db) (chatMessages db) (settings db),
       inr uuid)
  | _, _ => (db, inl (KeyExists uuid))
  end.

Definition getBook (id : string) (db : t) : option BookRecord.t := books db !! id.
Definition getEpub (id : string) (db : t) : option Epub.t := epubs db !! id.

Definition updateBookLocation (id location : string) (now : Z) (db : t)
    : t * (Error + unit) :=
  match books db !! id with
  | None => (db, inl BookNotFound)
  | Some book =>
      let book' :=
        BookRecord.mk (BookRecord.id book) (BookRecord.title book) (BookRecord.author book)
                      (BookRecord.cover book) (BookRecord.createdAt book) now
                      (Some location) (BookRecord.fullText book) in
      (mk (<[BookRecord.id book' := book']> (books db)) (epubs db) (bookmarks db)
          (highlights db) (chatMessages db) (settings db),
       inr tt)
  end.

Definition updateBookFullText (id fullText : string) (db : t) : t * (Error + unit) :=
  match books db !! id with
  | None => (db, inl BookNotFound)
  | Some book =>
      let book' :=
        BookRecord.mk (BookRecord.id book) (BookRecord.title book) (BookRecord.author book)
                      (BookRecord.cover book) (BookRecord.createdAt book)
                      (BookRecord.updatedAt book) (BookRecord.location book)
                      (Some fullText) in
      (mk (<[BookRecord.id book' := book']> (books db)) (epubs db) (bookmarks db)
          (highlights db) (chatMessages db) (settings db),
       inr tt)
  end.

Definition getBookmarksByBookId (bookId : string) (db : t) : list Bookmark.t :=
  getAllFromIndex Bookmark.bookId (bookmarks db) bookId.

Definition getHighlightsByBookId (bookId : string) (db : t) : list Highlight.t :=
  getAllFromIndex Highlight.bookId (highlights db) bookId.

(** The records of the book are read from the three indexes, then the
    book, its file and each of them are deleted in one transaction. *)
Definition deleteBook (id : string) (db : t) : t :=
  let bookmarks_ := getAllFromIndex Bookmark.bookId (bookmarks db) id in
  let highlights_ := getAllFromIndex Highlight.bookId (highlights db) id in
  let chatMessages_ := getAllFromIndex ChatMessage.bookId (chatMessages db) id in
  mk (delete id (books db)) (delete id (epubs db))
     (deleteEach Bookmark.id bookmarks_ (bookmarks db))
     (deleteEach Highlight.id highlights_ (highlights db))
     (deleteEach ChatMessage.id chatMessages_ (chatMessages db))
     (settings db).

(** [messages.sort((a, b) => a.createdAt - b.createdAt)]. *)
Definition byCreatedAtAscending (a b : ChatMessage.t) : Z :=
  (ChatMessage.createdAt a - ChatMessage.createdAt b)%Z.

Definition getChatMessagesByBookId (bookId : string) (db : t) : list ChatMessage.t :=
  JS.sort byCreatedAtAscending (getAllFromIndex ChatMessage.bookId (chatMessages db) bookId).

Definition createChatMessage (bookId : string) (role : ChatMessage.Role) (content : string)
    (locationCfi locationLabel locationExcerpt : option string)
    (uuid : string) (now : Z) (db : t) : t * (Error + ChatMessage.t) :=
  let message :=
    ChatMessage.mk uuid bookId role content locationCfi locationLabel locationExcerpt now in
  match chatMessages db !! uuid with
  | Some _ => (db, inl (KeyExists uuid))
  | None =>
      (mk (books db) (epubs db) (bookmarks db) (highlights db)
          (<[uuid := message]> (chatMessages db)) (settings db),
       inr message)
  end.

Definition deleteChatMessagesByBookId (bookId : string) (db : t) : t :=
  let messages := getAllFromIndex ChatMessage.bookId (chatMessages db) bookId in
  mk (books db) (epubs db) (bookmarks db) (highlights db)
     (deleteEach ChatMessage.id messages (chatMessages db)) (settings db).

(** [loadedAt] is the time in [defaultSettings]. *)
Definition getSettings (loadedAt : Z) (db : t) : ReaderSettings.t :=
  default (defaultSettings loadedAt) (settings db !! "global").

Definition updateSettings (data : ReaderSettings.Patch) (loadedAt now : Z) (db : t)
    : t * ReaderSettings.t :=
  let current := getSettings loadedAt db in
  let updated :=
    ReaderSettings.mk "global"
      (default (ReaderSettings.theme current) (ReaderSettings.newTheme data))
      (default (ReaderSettings.fontSize current) (ReaderSettings.newFontSize data))
      (default (ReaderSettings.spacing current) (ReaderSettings.newSpacing data))
      (default (ReaderSettings.lineHeight current) (ReaderSettings.newLineHeight data))
      now in
  (mk (books db) (epubs db) (bookmarks db) (highlights db) (chatMessages db)
      (<[ReaderSettings.id updated := updated]> (settings db)),
   updated).

(** Every record is stored under its [id]: the stores have the key path
    ["id"]. *)
Definition keyed {V : Type} (idOf : V -> string) (store : gmap string V) : Prop :=
  forall k v, store !! k = Some v -> idOf v = k.

Definition wellKeyed (db : t) : Prop :=
  keyed BookRecord.id (books db) /\ keyed Epub.id (epubs db) /\
  keyed Bookmark.id (bookmarks db) /\ keyed Highlight.id (highlights db) /\
  keyed ChatMessage.id (chatMessages db) /\ keyed ReaderSettings.id (settings db).
End Library.

(** ** The route of a book: what the page starts from *)

Module LoaderData.
Record t := mk {
  book : BookRecord.t;
  blob : Blob;
  bookmarks : list Bookmark.t;
  highlights : list Highlight.t;
  settings : ReaderSettings.t
}.
End LoaderData.

(** [clientLoader] of the route of a book.  [None] is an exception:
    ["Book not found"], or the [epub!] of a book with no file. *)
Definition clientLoader (bookId : string) (loadedAt : Z) (db : Library.t)
    : option LoaderData.t :=
  match Library.getBook bookId db with
  | None => None
  | Some book =>
      match Library.getEpub bookId db with
      | None => None
      | Some epub =>
          Some (LoaderData.mk book (Epub.blob epub)
                  (Library.getBookmarksByBookId bookId db)
                  (Library.getHighlightsByBookId bookId db)
                  (Library.getSettings loadedAt db))
      end
  end.

(** The states the hooks [useBookmarks] and [useNotes] start from:
    [useState(initialBookmarks)], [useState(initialHighlights)] and
    [useState(null)], over the stores of the database. *)
Definition initialBookmarksState (db : Library.t) (data : LoaderData.t) : Bookmarks.State :=
  Bookmarks.mkState (Db.mk (Library.bookmarks db) (Library.highlights db) [])
                    (LoaderData.bookmarks data).

Definition initialNotesState (db : Library.t) (data : LoaderData.t)
    (rendition : option (gmap string Annotation.t)) (selection : option bool) : Notes.State :=
  Notes.mkState (Db.mk (Library.bookmarks db) (Library.highlights db) [])
                (LoaderData.highlights data) None rendition selection.

(** ** The hook [useNavigation]: the position in the book *)

Module Navigation.
(** The React state [location] and the database. *)
Record State := mkState { location : option string; db : Library.t }.
End Navigation.

(** [updateBookLocation(...).catch(console.error)]: a rejection is
    logged; [logged] says whether one was. *)
Definition handleLocationChange (bookId newLocation : string) (now : Z)
    (st : Navigation.State) : Navigation.State * bool :=
  let st1 := Navigation.mkState (Some newLocation) (Navigation.db st) in
  match Library.updateBookLocation bookId newLocation now (Navigation.db st1) with
  | (db', inr _) => (Navigation.mkState (Navigation.location st1) db', false)
  | (db', inl _) => (Navigation.mkState (Navigation.location st1) db', true)
  end.

(** Every book has its file and every file its book. *)
Definition filesMatch (db : Library.t) : Prop :=
  forall k, is_Some (Library.books db !! k) <-> is_Some (Library.epubs db !! k).

(* ===================================================================== *)
(** * [SearchModal]: running a search *)
(* ===================================================================== *)

Module SearchModal.
(** The React state [results], [isSearching] and [hasSearched] of the
    modal, and the calls its searches have made to the sections. *)
Record State := mkState {
  results : list SearchResult.t;
  isSearching : bool;
  hasSearched : bool;
  calls : list Search.Event
}.

Definition setResults (r : list SearchResult.t) : M State unit :=
  modify (fun st => mkState r (isSearching st) (hasSearched st) (calls st)).
Definition setIsSearching (b : bool) : M State unit :=
  modify (fun st => mkState (results st) b (hasSearched st) (calls st)).
Definition setHasSearched (b : bool) : M State unit :=
  modify (fun st => mkState (results st) (isSearching st) b (calls st)).

(** A search, with its own array of results; its calls are recorded
    after those of the searches before. *)
Definition runSearch {A} (search : M Search.State A) : M State A :=
  fun st =>
    let '(final, r) := search Search.initial in
    (mkState (results st) (isSearching st) (hasSearched st)
             (calls st ++ Search.trace final), r).
End SearchModal.

Definition performSearch (compare : string -> string -> Z)
    (cfiReturns : string -> list string -> bool) (rendition : option Book.t)
    (searchQuery : string) : M SearchModal.State unit :=
  match rendition with
  | Some book =>
      if negb (JS.truthy (JS.trim searchQuery)) || (String.length searchQuery <? 2)%nat
      then
        SearchModal.setResults [] ;;
        SearchModal.setIsSearching false ;;
        SearchModal.setHasSearched (2 <=? String.length searchQuery)%nat
      else
        SearchModal.setIsSearching true ;;
        SearchModal.setHasSearched true ;;
        try_catch_finally
          (searchResults ← SearchModal.runSearch (searchBook compare cfiReturns book searchQuery);
           SearchModal.setResults searchResults)
          (fun _ => SearchModal.setResults [])
          (SearchModal.setIsSearching false)
  | None =>
      SearchModal.setResults [] ;;
      SearchModal.setIsSearching false ;;
      SearchModal.setHasSearched (2 <=? String.length searchQuery)%nat
  end.

(** ** A sample library: two books, annotations of both *)

Module DemoLibrary.
Definition mobyDick : BookRecord.t :=
  BookRecord.mk "book-1" "Moby Dick" "Herman Melville" None 1 5 (Some Demo.a22) None.
Definition walden : BookRecord.t :=
  BookRecord.mk "book-2" "Walden" "Henry David Thoreau" None 2 3 None None.
Definition economy : Bookmark.t :=
  Bookmark.mk "bm-9" "book-2" "epubcfi(/6/4!/4/2)" "Economy" 4.
Definition marked : Highlight.t :=
  Highlight.mk "hl-7" "book-1" Demo.selectedRange "The chief mate" green None 6 6.
Definition question : ChatMessage.t :=
  ChatMessage.mk "msg-1" "book-1" ChatMessage.user "Who is the chief mate?"
                 None None None 7.
Definition answer : ChatMessage.t :=
  ChatMessage.mk "msg-0" "book-1" ChatMessage.assistant "Starbuck." None None None 8.

Definition db : Library.t :=
  Library.mk
    (<["book-1" := mobyDick]> (<["book-2" := walden]> ∅))
    (<["book-1" := Epub.mk "book-1" "moby-dick.epub"]>
       (<["book-2" := Epub.mk "book-2" "walden.epub"]> ∅))
    (<["bm-2" := Demo.bm2]> (<["bm-9" := economy]> ∅))
    (<["hl-7" := marked]> ∅)
    (<["msg-1" := question]> (<["msg-0" := answer]> ∅))
    ∅.
End DemoLibrary.
(* ===================================================================== *)
(** * The comparison primitive and the sort *)
(* ===================================================================== *)

Section ConsistentFacts.
Context {A : Type} (cmp : A -> A -> Z) `{!Consistent cmp}.

Lemma cmp_refl a : cmp a a = 0%Z.
Proof.
  destruct (Z.lt_trichotomy (cmp a a) 0) as [H | [H | H]]; [| exact H |].
  - pose proof (proj1 (cmp_antisym a a) H). lia.
  - pose proof (proj2 (cmp_antisym a a) H). lia.
Qed.

Lemma cmp_flip_le a b : (0 < cmp a b)%Z -> (cmp b a <= 0)%Z.
Proof. intros H. apply cmp_antisym in H. lia. Qed.

Lemma cmp_zero_sym a b : cmp a b = 0%Z -> cmp b a = 0%Z.
Proof.
  intros H.
  destruct (Z.lt_trichotomy (cmp b a) 0) as [H1 | [H1 | H1]]; [| exact H1 |].
  - apply cmp_antisym in H1. lia.
  - apply cmp_antisym in H1. lia.
Qed.

Lemma cmp_zero_trans a b c : cmp a b = 0%Z -> cmp b c = 0%Z -> cmp a c = 0%Z.
Proof.
  intros Hab Hbc.
  pose proof (cmp_zero_sym _ _ Hab) as Hba.
  pose proof (cmp_zero_sym _ _ Hbc) as Hcb.
  assert (cmp a c <= 0)%Z by (apply (cmp_trans a b c); lia).
  assert (cmp c a <= 0)%Z by (apply (cmp_trans c b a); lia).
  destruct (Z.lt_trichotomy (cmp a c) 0) as [H1 | [H1 | H1]]; [| exact H1 | lia].
  apply cmp_antisym in H1. lia.
Qed.


Lemma cmp_gt_le a b c : (0 < cmp a c)%Z -> (cmp a b <= 0)%Z -> (0 < cmp b c)%Z.
Proof.
  intros Hac Hab.
  destruct (Z_lt_le_dec 0 (cmp b c)) as [H | H]; [exact H |].
  pose proof (cmp_trans a b c Hab H). lia.
Qed.

(** The opposite comparator is as consistent as the comparator. *)
Lemma Consistent_opp : Consistent (fun a b => (- cmp a b)%Z).
Proof.
  split.
  - intros a b. pose proof (cmp_antisym b a). lia.
  - intros a b c Hab Hbc.
    assert (cmp c b <= 0)%Z.
    { destruct (Z_lt_le_dec 0 (cmp c b)) as [H | H]; [| exact H].
      apply cmp_antisym in H. lia. }
    assert (cmp b a <= 0)%Z.
    { destruct (Z_lt_le_dec 0 (cmp b a)) as [H' | H']; [| exact H'].
      apply cmp_antisym in H'. lia. }
    assert (cmp c a <= 0)%Z by (apply (cmp_trans c b a); assumption).
    destruct (Z_lt_le_dec (cmp a c) 0) as [H2 | H2]; [| lia].
    apply cmp_antisym in H2. lia.
Qed.

(** A comparator read through a key is as consistent as on the keys. *)
Lemma Consistent_on {B : Type} (key : B -> A) : Consistent (fun x y => cmp (key x) (key y)).
Proof.
  split.
  - intros x y. apply cmp_antisym.
  - intros x y z. apply cmp_trans.
Qed.
End ConsistentFacts.

Section SortFacts.
Context {A : Type} (cmp : A -> A -> Z).

Lemma sort_insert_Permutation x l : Permutation (JS.sort_insert cmp x l) (x :: l).
Proof.
  induction l as [| y l IH]; simpl; [reflexivity |].
  destruct (cmp x y <=? 0)%Z; [reflexivity |].
  rewrite IH. apply perm_swap.
Qed.

Lemma sort_Permutation l : Permutation (JS.sort cmp l) l.
Proof.
  induction l as [| x l IH]; simpl; [reflexivity |].
  rewrite sort_insert_Permutation. now rewrite IH.
Qed.

Lemma sort_length l : length (JS.sort cmp l) = length l.
Proof. apply Permutation_length, sort_Permutation. Qed.

Lemma sort_In x l : In x (JS.sort cmp l) <-> In x l.
Proof.
  split; apply Permutation_in; [| symmetry]; apply sort_Permutation.
Qed.

(** An array already in order is left as it is. *)
Lemma sort_sorted_id l : StronglySorted (notAfter cmp) l -> JS.sort cmp l = l.
Proof.
  induction 1 as [| x l Hs IH Hx]; simpl; [reflexivity |].
  rewrite IH. destruct l as [| y l]; simpl; [reflexivity |].
  inversion Hx as [| ? ? Hxy _]; subst. unfold notAfter in Hxy.
  destruct (Z.leb_spec (cmp x y) 0); [reflexivity | lia].
Qed.

(** Elements that compare equal keep their relative order: a class
    [same] of elements that all compare equal is the same sublist
    before and after. *)
Lemma sort_insert_stable (same : A -> bool) x l :
  (forall a b, same a = true -> same b = true -> cmp a b = 0%Z) ->
  List.filter same (JS.sort_insert cmp x l) = List.filter same (x :: l).
Proof.
  intros Hsame.
  induction l as [| y l IH]; [reflexivity |].
  cbn [JS.sort_insert].
  destruct (Z.leb_spec (cmp x y) 0) as [Hxy | Hxy]; [reflexivity |].
  cbn [List.filter] in *. rewrite IH.
  destruct (same x) eqn:Hx; [| reflexivity].
  destruct (same y) eqn:Hy; [| reflexivity].
  pose proof (Hsame x y Hx Hy). lia.
Qed.

Lemma sort_stable (same : A -> bool) l :
  (forall a b, same a = true -> same b = true -> cmp a b = 0%Z) ->
  List.filter same (JS.sort cmp l) = List.filter same l.
Proof.
  intros Hsame.
  induction l as [| x l IH]; [reflexivity |].
  cbn [JS.sort]. rewrite sort_insert_stable by exact Hsame.
  cbn [List.filter]. now rewrite IH.
Qed.

Context `{!Consistent cmp}.

Lemma sort_insert_sorted x l :
  StronglySorted (notAfter cmp) l -> StronglySorted (notAfter cmp) (JS.sort_insert cmp x l).
Proof.
  induction 1 as [| y l Hs IH Hy]; simpl.
  - repeat constructor.
  - destruct (Z.leb_spec (cmp x y) 0) as [Hxy | Hxy].
    + constructor; [constructor; assumption |].
      constructor; [exact Hxy |].
      eapply List.Forall_impl; [| exact Hy].
      intros z Hyz. unfold notAfter in *. now apply (cmp_trans x y z).
    + constructor; [exact IH |].
      rewrite List.Forall_forall. intros z Hz.
      apply (Permutation_in _ (sort_insert_Permutation x l)) in Hz.
      destruct Hz as [<- | Hz].
      * unfold notAfter. now apply (cmp_flip_le cmp).
      * rewrite List.Forall_forall in Hy. now apply Hy.
Qed.

(** The result is in order ... *)
Lemma sort_sorted l : StronglySorted (notAfter cmp) (JS.sort cmp l).
Proof.
  induction l as [| x l IH]; simpl; [constructor |].
  now apply sort_insert_sorted.
Qed.

Lemma sort_idempotent l : JS.sort cmp (JS.sort cmp l) = JS.sort cmp l.
Proof. apply sort_sorted_id, sort_sorted. Qed.

(** Two arrays in order with the same elements in the same order at
    every rank are the same array. *)
Lemma sorted_same_classes l1 l2 :
  StronglySorted (notAfter cmp) l1 -> StronglySorted (notAfter cmp) l2 ->
  (forall p, List.filter (fun z => (cmp z p =? 0)%Z) l1 =
             List.filter (fun z => (cmp z p =? 0)%Z) l2) ->
  l1 = l2.
Proof.
  intros H1. revert l2. induction H1 as [| x l1 Hs1 IH Hx]; intros l2 H2 Hsame.
  - destruct l2 as [| y l2]; [reflexivity |].
    specialize (Hsame y). cbn [List.filter] in Hsame.
    rewrite (cmp_refl cmp), Z.eqb_refl in Hsame. discriminate.
  - destruct H2 as [| y l2 Hs2 Hy].
    { specialize (Hsame x). cbn [List.filter] in Hsame.
      rewrite (cmp_refl cmp), Z.eqb_refl in Hsame. discriminate. }
    assert (Hyx : (cmp y x <= 0)%Z).
    { assert (Hin : In x (y :: l2)).
      { eapply (proj1 (filter_In _ _ _)). rewrite <- (Hsame x). cbn [List.filter].
        rewrite (cmp_refl cmp), Z.eqb_refl. now left. }
      destruct Hin as [<- | Hin]; [rewrite (cmp_refl cmp); lia |].
      rewrite List.Forall_forall in Hy. now apply Hy. }
    assert (Hxy : (cmp x y <= 0)%Z).
    { assert (Hin : In y (x :: l1)).
      { eapply (proj1 (filter_In _ _ _)). rewrite (Hsame y). cbn [List.filter].
        rewrite (cmp_refl cmp), Z.eqb_refl. now left. }
      destruct Hin as [<- | Hin]; [rewrite (cmp_refl cmp); lia |].
      rewrite List.Forall_forall in Hx. now apply Hx. }
    assert (E : cmp y x = 0%Z).
    { destruct (Z.eq_dec (cmp y x) 0%Z) as [E | Hne]; [exact E |].
      assert (Hlt : (cmp y x < 0)%Z) by lia. apply cmp_antisym in Hlt. lia. }
    pose proof (Hsame x) as Hhead. cbn [List.filter] in Hhead.
    rewrite (cmp_refl cmp), E, Z.eqb_refl in Hhead.
    injection Hhead as <- Htail.
    f_equal. apply IH; [exact Hs2 |]. intros p.
    specialize (Hsame p). cbn [List.filter] in Hsame.
    destruct (Z.eqb_spec (cmp x p) 0) as [Hp | Hp].
    + injection Hsame as Hsame. exact Hsame.
    + exact Hsame.
Qed.

(** The model of [sort] is the only one: whatever array is in order and
    keeps the elements that compare equal in the order they came in is
    the array [JS.sort] returns. *)
Lemma sort_unique l sorted :
  StronglySorted (notAfter cmp) sorted ->
  (forall p, List.filter (fun z => (cmp z p =? 0)%Z) sorted =
             List.filter (fun z => (cmp z p =? 0)%Z) l) ->
  sorted = JS.sort cmp l.
Proof.
  intros Hs Hsame. apply sorted_same_classes; [exact Hs | apply sort_sorted |].
  intros p. rewrite Hsame. symmetry. apply sort_stable.
  intros a b Ha Hb. apply Z.eqb_eq in Ha, Hb.
  apply (cmp_zero_trans cmp a p b Ha). now apply (cmp_zero_sym cmp).
Qed.
End SortFacts.

(** Sorting through an injection of the items into a larger record, as
    [sortByCfi] does with its pairs. *)
Lemma sort_map {A B : Type} (f : A -> B) (cmp : B -> B -> Z) (l : list A) :
  JS.sort cmp (map f l) = map f (JS.sort (fun a b => cmp (f a) (f b)) l).
Proof.
  induction l as [| x l IH]; [reflexivity |].
  cbn [map JS.sort]. rewrite IH. clear IH.
  induction (JS.sort (fun a b => cmp (f a) (f b)) l) as [| y l' IH]; [reflexivity |].
  cbn [map JS.sort_insert]. destruct (cmp (f x) (f y) <=? 0)%Z; [reflexivity |].
  cbn [map]. now rewrite IH.
Qed.

(* ===================================================================== *)
(** * The reference reading of CFI strings is consistent *)
(* ===================================================================== *)

Lemma RefCfi_lex_antisym a b : (RefCfi.lex a b < 0 <-> 0 < RefCfi.lex b a)%Z.
Proof.
  revert b. induction a as [| x a IH]; intros [| y b]; simpl; try lia.
  destruct (Z.ltb_spec x y), (Z.ltb_spec y x); try lia. apply IH.
Qed.

Lemma RefCfi_lex_trans a b c :
  (RefCfi.lex a b <= 0 -> RefCfi.lex b c <= 0 -> RefCfi.lex a c <= 0)%Z.
Proof.
  revert b c. induction a as [| x a IH]; intros [| y b] [| z c]; simpl; try lia.
  destruct (Z.ltb_spec x y), (Z.ltb_spec y x), (Z.ltb_spec y z), (Z.ltb_spec z y),
    (Z.ltb_spec x z), (Z.ltb_spec z x); try lia.
  apply IH.
Qed.

#[global] Instance RefCfi_Consistent : Consistent RefCfi.compare.
Proof.
  split; unfold RefCfi.compare.
  - intros a b. apply RefCfi_lex_antisym.
  - intros a b c. apply RefCfi_lex_trans.
Qed.

(* ===================================================================== *)
(** * [sortByCfi]: stable, descending, idempotent *)
(* ===================================================================== *)

Section SortByCfi.
Variable compare : string -> string -> Z.
Variable cfiToString : string -> string.

(** The pairs and the projection cancel: [sortByCfi] sorts the items
    themselves by the comparator read through [getCfi]. *)
Lemma sortByCfi_sort {T : Type} (items : list T) (getCfi : T -> string) :
  sortByCfi compare cfiToString items getCfi =
  JS.sort (fun a b => (- compare (cfiToString (getCfi a)) (cfiToString (getCfi b)))%Z) items.
Proof.
  unfold sortByCfi, byCfiDescending.
  rewrite (sort_map (fun item => (item, getCfi item))). cbn [snd].
  rewrite map_map. cbn [fst]. apply map_id.
Qed.

Context `{!Consistent compare}.

Lemma sortByCfi_StableDescending {T : Type} (getCfi : T -> string) :
  StableDescending compare (fun x => cfiToString (getCfi x))
    (fun items => sortByCfi compare cfiToString items getCfi).
Proof.
  set (pos := fun x : T => cfiToString (getCfi x)).
  set (cmp := fun a b : T => (- compare (pos a) (pos b))%Z).
  assert (Hc : Consistent cmp).
  { exact (@Consistent_opp T _ (Consistent_on compare pos)). }
  assert (Hle : forall l, StronglySorted (notAfter cmp) l <->
            StronglySorted (fun a b => (0 <= compare (pos a) (pos b))%Z) l).
  { intros l. split; intros H; induction H; constructor; auto;
      (eapply List.Forall_impl; [| eassumption]); intros z; unfold notAfter, cmp; lia. }
  assert (Heq : forall items, sortByCfi compare cfiToString items getCfi = JS.sort cmp items).
  { intros items. apply sortByCfi_sort. }
  split; intros items; cbv beta; rewrite ?Heq.
  - apply sort_Permutation.
  - apply Hle, sort_sorted, Hc.
  - intros p. apply sort_stable. intros a b Ha Hb.
    apply Z.eqb_eq in Ha, Hb. unfold cmp.
    pose proof (cmp_zero_trans compare _ _ _ Ha (cmp_zero_sym compare _ _ Hb)). lia.
  - intros Hs. apply sort_sorted_id, Hle, Hs.
  - apply (sort_idempotent cmp).
Qed.
End SortByCfi.

(** C8. Whatever the list of bookmarks or highlights, [sortByCfi], and so
    [sortBookmarksByPosition] and [sortHighlightsByPosition], is a stable
    sort in descending order of position: the result is a rearrangement
    of the input in descending order, the items at any one position keep
    the order they came in, and sorting a sorted list (in particular the
    result of a sort) gives the same list back.  [compare] is taken
    consistent. *)
Theorem sortByCfi_stable_descending_idempotent
    (compare : string -> string -> Z) (cfiToString : string -> string) :
  Consistent compare ->
  (forall (T : Type) (getCfi : T -> string),
     StableDescending compare (fun x => cfiToString (getCfi x))
       (fun items => sortByCfi compare cfiToString items getCfi)) /\
  StableDescending compare (fun b => cfiToString (Bookmark.cfi b))
    (sortBookmarksByPosition compare cfiToString) /\
  StableDescending compare (fun h => cfiToString (Highlight.cfiRange h))
    (sortHighlightsByPosition compare cfiToString).
Proof.
  intros Hc. split; [| split].
  - intros T getCfi. now apply sortByCfi_StableDescending.
  - apply (sortByCfi_StableDescending compare cfiToString Bookmark.cfi).
  - apply (sortByCfi_StableDescending compare cfiToString Highlight.cfiRange).
Qed.

(** C8 on the sample data: the reference reading of CFI strings is a
    consistent comparator, and under it the bookmark sort is a stable
    descending sort. *)
Lemma sortByCfi_stable_descending_idempotent_witness :
  Consistent RefCfi.compare /\
  StableDescending RefCfi.compare (fun b => RefCfi.cfiToString (Bookmark.cfi b))
    (sortBookmarksByPosition RefCfi.compare RefCfi.cfiToString).
Proof.
  split; [exact RefCfi_Consistent |].
  exact (proj1 (proj2 (sortByCfi_stable_descending_idempotent
                         RefCfi.compare RefCfi.cfiToString RefCfi_Consistent))).
Defined.

(** The sort on the sample bookmarks: the most advanced first, the two
    at the same position in the order they came in. *)
Example sortBookmarksByPosition_demo :
  sortBookmarksByPosition RefCfi.compare RefCfi.cfiToString [Demo.bm1; Demo.bm2; Demo.bm3]
    = [Demo.bm2; Demo.bm1; Demo.bm3] /\
  sortBookmarksByPosition RefCfi.compare RefCfi.cfiToString [Demo.bm3; Demo.bm2; Demo.bm1]
    = [Demo.bm2; Demo.bm3; Demo.bm1].
Proof. split; vm_compute; reflexivity. Qed.

(* ===================================================================== *)
(** * [findChapterForMatch] *)
(* ===================================================================== *)

Section FindChapterFacts.
Variable compare : string -> string -> Z.

#[local] Abbreviation asc := (byCfiAscending compare).

(** With two matched chapters of which one is resolved, the answer is
    what the scan of the sorted chapters keeps, starting from the
    first of them. *)
Lemma findChapterForMatch_ranked matchCfi chapters fallbackLabel :
  (2 <= length chapters)%nat ->
  (1 <= length (List.filter hasCfi chapters))%nat ->
  exists c0 rest,
    resolvedAscending compare chapters = c0 :: rest /\
    findChapterForMatch compare matchCfi chapters fallbackLabel =
    ChapterPosition.label (scanChapters compare matchCfi (c0 :: rest) c0).
Proof.
  intros H2 H1. unfold findChapterForMatch, resolvedAscending.
  destruct chapters as [| first tl]; [simpl in H2; lia |].
  destruct (Nat.eqb_spec (length (first :: tl)) 1) as [E | _]; [lia |].
  destruct (Nat.eqb_spec (length (List.filter hasCfi (first :: tl))) 0) as [E | _]; [lia |].
  cbn [orb].
  pose proof (sort_length asc (List.filter hasCfi (first :: tl))) as Hlen.
  destruct (JS.sort asc (List.filter hasCfi (first :: tl))) as [| c0 rest] eqn:Hs.
  - cbn [length] in Hlen. lia.
  - exists c0, rest. split; reflexivity.
Qed.

Lemma filter_length_le {A} (f : A -> bool) (l : list A) :
  (length (List.filter f l) <= length l)%nat.
Proof.
  induction l as [| x l IH]; simpl; [lia |]. destruct (f x); simpl; lia.
Qed.

Lemma resolvedAscending_In c chapters :
  In c (resolvedAscending compare chapters) <-> In c chapters /\ hasCfi c = true.
Proof.
  unfold resolvedAscending. rewrite sort_In. apply filter_In.
Qed.

Context `{!Consistent compare}.

Lemma Consistent_asc : Consistent asc.
Proof. exact (Consistent_on compare ChapterPosition.cfi_nn). Qed.

Lemma resolvedAscending_sorted chapters :
  StronglySorted (notAfter asc) (resolvedAscending compare chapters).
Proof. apply sort_sorted, Consistent_asc. Qed.



(** ... and nothing comes before the first. *)
Lemma sorted_head_min (l : list ChapterPosition.t) z :
  StronglySorted (notAfter asc) l -> head l = Some z ->
  forall d, In d l -> (asc z d <= 0)%Z.
Proof.
  intros Hs Hh d Hd. destruct Hs as [| c l Hs Hc]; [discriminate |].
  cbn in Hh. injection Hh as <-. destruct Hd as [<- | Hd].
  - pose proof (cmp_refl asc (Consistent0 := Consistent_asc) c). lia.
  - rewrite List.Forall_forall in Hc. now apply Hc.
Qed.


End FindChapterFacts.




(** The same by running the code. *)
Example findChapterForMatch_demo :
  findChapterForMatch RefCfi.compare Demo.inChapter26
    (chapters22to27 Demo.a22 Demo.a23 Demo.a24 Demo.a25 Demo.a26 Demo.a27)
    Demo.sharedFile = "26" /\
  findChapterForMatch RefCfi.compare Demo.inChapter26
    (rev (chapters22to27 Demo.a22 Demo.a23 Demo.a24 Demo.a25 Demo.a26 Demo.a27))
    Demo.sharedFile = "26" /\
  findChapterForMatch RefCfi.compare Demo.beforeAll
    (chapters22to27 Demo.a22 Demo.a23 Demo.a24 Demo.a25 Demo.a26 Demo.a27)
    Demo.sharedFile = "22".
Proof. repeat split; vm_compute; reflexivity. Qed.

(** C6. With no matched chapter the answer is the fallback label of the
    section; with exactly one matched chapter, or with none of the
    matched chapters resolved, it is the label of the first matched
    chapter. *)
Theorem findChapterForMatch_fallbacks (compare : string -> string -> Z)
    (matchCfi : string) (chapters : list ChapterPosition.t) (fallbackLabel : string) :
  (length chapters = 0%nat ->
   findChapterForMatch compare matchCfi chapters fallbackLabel = fallbackLabel) /\
  (forall first, head chapters = Some first ->
     length chapters = 1%nat \/
     (forall c, In c chapters -> ChapterPosition.cfi c = None) ->
     findChapterForMatch compare matchCfi chapters fallbackLabel =
     ChapterPosition.label first).
Proof.
  split.
  - intros H. destruct chapters; [reflexivity | discriminate].
  - intros first Hhead Hcase.
    destruct chapters as [| c rest]; [discriminate |].
    cbn in Hhead. injection Hhead as ->.
    unfold findChapterForMatch.
    destruct Hcase as [H1 | Hnone].
    + rewrite H1. reflexivity.
    + assert (E : List.filter hasCfi (first :: rest) = []).
      { induction (first :: rest) as [| d l IH]; [reflexivity |].
        cbn [List.filter]. unfold hasCfi at 1.
        rewrite (Hnone d (or_introl eq_refl)). apply IH.
        intros x Hx. apply Hnone. now right. }
      rewrite E. cbn [length Nat.eqb]. now rewrite orb_true_r.
Qed.

(** C6 on the sample data: two unresolved chapters, and no chapter at all. *)
Lemma findChapterForMatch_fallbacks_witness :
  findChapterForMatch RefCfi.compare Demo.inChapter26 [] Demo.sharedFile = Demo.sharedFile /\
  findChapterForMatch RefCfi.compare Demo.inChapter26
    [ChapterPosition.mk "22" None; ChapterPosition.mk "23" None] Demo.sharedFile = "22".
Proof.
  split.
  - apply (proj1 (findChapterForMatch_fallbacks RefCfi.compare Demo.inChapter26 []
                    Demo.sharedFile)). reflexivity.
  - apply (proj2 (findChapterForMatch_fallbacks RefCfi.compare Demo.inChapter26
                    [ChapterPosition.mk "22" None; ChapterPosition.mk "23" None]
                    Demo.sharedFile) (ChapterPosition.mk "22" None)); [reflexivity |].
    right. intros c [<- | [<- | []]]; reflexivity.
Defined.

(** C10. With at least two matched chapters resolved and the match
    strictly before every resolved anchor, the answer is the label of
    the earliest-anchored chapter, the first of the resolved chapters in
    ascending order, though it is not at or before the match. *)
Theorem findChapterForMatch_before_every_anchor (compare : string -> string -> Z)
    (matchCfi : string) (chapters : list ChapterPosition.t) (fallbackLabel : string) :
  Consistent compare ->
  (2 <= length (List.filter hasCfi chapters))%nat ->
  (forall c, In c chapters -> hasCfi c = true ->
             (0 < compare (ChapterPosition.cfi_nn c) matchCfi)%Z) ->
  exists earliest,
    head (resolvedAscending compare chapters) = Some earliest /\
    findChapterForMatch compare matchCfi chapters fallbackLabel =
      ChapterPosition.label earliest /\
    In earliest chapters /\ hasCfi earliest = true /\
    atOrBefore compare matchCfi earliest = false /\
    forall d, In d chapters -> hasCfi d = true ->
              (compare (ChapterPosition.cfi_nn earliest) (ChapterPosition.cfi_nn d) <= 0)%Z.
Proof.
  intros Hc H2 Hall.
  pose proof (filter_length_le hasCfi chapters) as Hlen.
  destruct (findChapterForMatch_ranked compare matchCfi chapters fallbackLabel)
    as (c0 & rest & Hsorted & Hfind); [lia | lia |].
  assert (Hin : In c0 chapters /\ hasCfi c0 = true).
  { apply (resolvedAscending_In compare). rewrite Hsorted. now left. }
  destruct Hin as [Hin Hcfi].
  pose proof (Hall c0 Hin Hcfi) as Hgt.
  exists c0. rewrite Hsorted, Hfind. cbn [head scanChapters].
  destruct (Z.leb_spec (compare (ChapterPosition.cfi_nn c0) matchCfi) 0) as [Hle | _]; [lia |].
  repeat split; try assumption.
  - unfold atOrBefore. apply Z.leb_gt. lia.
  - intros d Hd Hdcfi.
    apply (sorted_head_min compare (resolvedAscending compare chapters) c0).
    + now apply resolvedAscending_sorted.
    + now rewrite Hsorted.
    + now apply resolvedAscending_In.
Qed.

(** C10 on the sample data: a match before every anchor of the sample
    section. *)
Lemma findChapterForMatch_before_every_anchor_witness :
  exists earliest,
    head (resolvedAscending RefCfi.compare
            (chapters22to27 Demo.a22 Demo.a23 Demo.a24 Demo.a25 Demo.a26 Demo.a27))
      = Some earliest /\
    findChapterForMatch RefCfi.compare Demo.beforeAll
      (chapters22to27 Demo.a22 Demo.a23 Demo.a24 Demo.a25 Demo.a26 Demo.a27)
      Demo.sharedFile = ChapterPosition.label earliest.
Proof.
  destruct (findChapterForMatch_before_every_anchor RefCfi.compare Demo.beforeAll
              (chapters22to27 Demo.a22 Demo.a23 Demo.a24 Demo.a25 Demo.a26 Demo.a27)
              Demo.sharedFile RefCfi_Consistent)
    as (earliest & H1 & H2 & _).
  - cbn. lia.
  - intros c [<- | [<- | [<- | [<- | [<- | [<- | []]]]]]] _; reflexivity.
  - exists earliest. split; assumption.
Defined.

(* ===================================================================== *)
(** * [getMatchingTocEntries] *)
(* ===================================================================== *)

(** Induction on a chapter tree: the entries below an entry come first. *)
Section NavItemInduction.
Variable P : NavItem.t -> Prop.
Hypothesis step : forall label href subitems,
  Forall P subitems -> P (NavItem.mk label href subitems).

Fixpoint NavItem_tree_ind (item : NavItem.t) : P item :=
  match item with
  | NavItem.mk label href subitems =>
      step label href subitems
        ((fix below (items : list NavItem.t) : Forall P items :=
            match items with
            | [] => @List.Forall_nil NavItem.t P
            | i :: rest => @List.Forall_cons NavItem.t P i rest (NavItem_tree_ind i) (below rest)
            end) subitems)
  end.
End NavItemInduction.

Section StringFacts.
Lemma prefix_spec (a s : string) :
  String.prefix a s = true <-> exists post, s = a +:+ post.
Proof.
  revert s. induction a as [| c a IH]; intros s.
  - split; [intros _; now exists s | intros _; now destruct s].
  - destruct s as [| d s]; simpl.
    + split; [discriminate | intros [post H]; discriminate].
    + destruct (ascii_dec c d) as [-> | Hne].
      * rewrite IH. split; intros [post H]; exists post.
        -- now rewrite H.
        -- now injection H.
      * split; [discriminate |]. intros [post H]. injection H as H1 _. congruence.
Qed.

Lemma includes_spec (s sub : string) :
  JS.includes s sub = true <-> exists pre post, s = pre +:+ sub +:+ post.
Proof.
  induction s as [| c s IH]; cbn [JS.includes].
  - rewrite orb_false_r, prefix_spec. split.
    + intros [post H]. now exists EmptyString, post.
    + intros (pre & post & H). destruct pre; [now exists post | discriminate].
  - rewrite orb_true_iff, prefix_spec, IH. split.
    + intros [[post H] | (pre & post & H)].
      * now exists EmptyString, post.
      * exists (String c pre), post. simpl. now rewrite H.
    + intros (pre & post & H). destruct pre as [| d pre].
      * left. now exists post.
      * right. exists pre, post. now injection H.
Qed.

Lemma endsWith_spec (s sub : string) :
  JS.endsWith s sub = true <-> exists pre, s = pre +:+ sub.
Proof.
  induction s as [| c s IH]; cbn [JS.endsWith].
  - rewrite orb_false_r, String.eqb_eq. split.
    + intros <-. now exists EmptyString.
    + intros [pre H]. destruct pre; [exact H | discriminate].
  - rewrite orb_true_iff, String.eqb_eq, IH. split.
    + intros [<- | [pre H]].
      * now exists EmptyString.
      * exists (String c pre). simpl. now rewrite H.
    + intros [pre H]. destruct pre as [| d pre].
      * now left.
      * right. exists pre. now injection H.
Qed.

Lemma append_empty_r (s : string) : s +:+ EmptyString = s.
Proof.
  induction s as [| c s IH]; [reflexivity |].
  change (String c (s +:+ EmptyString) = String c s). now f_equal.
Qed.

(** [endsWith] adds nothing to [includes]. *)
Lemma endsWith_includes (s sub : string) :
  JS.endsWith s sub = true -> JS.includes s sub = true.
Proof.
  rewrite endsWith_spec, includes_spec. intros [pre H].
  exists pre, EmptyString. now rewrite append_empty_r.
Qed.

(** What follows the first [#] does not count. *)
Lemma split_hash_0_idem (s : string) : JS.split_hash_0 (JS.split_hash_0 s) = JS.split_hash_0 s.
Proof.
  induction s as [| c s IH]; [reflexivity |]. cbn [JS.split_hash_0].
  destruct (Ascii.eqb c "#") eqn:E; [reflexivity |].
  cbn [JS.split_hash_0]. now rewrite E, IH.
Qed.

Lemma split_hash_0_anchor (s anchor : string) :
  JS.split_hash_0 (JS.split_hash_0 s +:+ "#" +:+ anchor) = JS.split_hash_0 s.
Proof.
  induction s as [| c s IH]; [reflexivity |]. cbn [JS.split_hash_0].
  destruct (Ascii.eqb c "#") eqn:E; [reflexivity |].
  change (JS.split_hash_0 (String c (JS.split_hash_0 s +:+ "#" +:+ anchor)) =
          String c (JS.split_hash_0 s)).
  cbn [JS.split_hash_0]. now rewrite E, IH.
Qed.
End StringFacts.

Section TraverseFacts.
Variable spineHref : string.

#[local] Abbreviation hit := (tocHrefMatches spineHref).

Lemma traverse_item_flatten (item : NavItem.t) :
  forall matches,
    traverse_item spineHref item matches =
    matches ++ List.filter hit (flattenNavItem item).
Proof.
  induction item as [label href subitems IH] using NavItem_tree_ind.
  intros matches.
  cbn [traverse_item flattenNavItem List.filter].
  assert (Hloop : forall acc,
    (fix traverse (items acc : list NavItem.t) {struct items} : list NavItem.t :=
       match items with
       | [] => acc
       | i :: rest => traverse rest (traverse_item spineHref i acc)
       end) subitems acc =
    acc ++ List.filter hit
             ((fix go (items : list NavItem.t) : list NavItem.t :=
                 match items with
                 | [] => []
                 | i :: rest => flattenNavItem i ++ go rest
                 end) subitems)).
  { induction IH as [| i rest Hi _ IHrest]; intros acc.
    - cbn. now rewrite app_nil_r.
    - rewrite Hi, IHrest, List.filter_app. now rewrite app_assoc. }
  set (item := NavItem.mk label href subitems).
  set (matches1 := if hit item then matches ++ [item] else matches).
  assert (E1 : matches ++ (if hit item then item :: [] else []) = matches1).
  { unfold matches1. destruct (hit item); [reflexivity | apply app_nil_r]. }
  transitivity (matches1 ++ List.filter hit
             ((fix go (items : list NavItem.t) : list NavItem.t :=
                 match items with
                 | [] => []
                 | i :: rest => flattenNavItem i ++ go rest
                 end) subitems)).
  - destruct subitems as [| i rest]; [cbn; now rewrite app_nil_r |].
    cbn [length Nat.ltb Nat.leb]. apply Hloop.
  - rewrite <- E1. destruct (hit item); [| now rewrite app_nil_r].
    now rewrite <- app_assoc.
Qed.

Lemma traverse_flatten (items : list NavItem.t) :
  forall matches,
    traverse spineHref items matches = matches ++ List.filter hit (flattenToc items).
Proof.
  induction items as [| item rest IH]; intros matches; cbn [traverse flattenToc].
  - now rewrite app_nil_r.
  - rewrite traverse_item_flatten, IH, List.filter_app. now rewrite app_assoc.
Qed.
End TraverseFacts.

(** The traversal order lists the entries of the tree at any depth, and
    only them. *)
Lemma flattenNavItem_occurs (entry item : NavItem.t) :
  In entry (flattenNavItem item) <-> entry = item \/ occursIn entry (NavItem.subitems item).
Proof.
  revert entry. induction item as [label href subitems IH] using NavItem_tree_ind.
  intros entry. cbn [flattenNavItem NavItem.subitems In].
  assert (Hgo : In entry
            ((fix go (items : list NavItem.t) : list NavItem.t :=
                match items with
                | [] => []
                | i :: rest => flattenNavItem i ++ go rest
                end) subitems) <-> occursIn entry subitems).
  { induction IH as [| i rest Hi _ IHrest].
    - split; [intros [] | intros H; inversion H].
    - rewrite in_app_iff, Hi, IHrest. split.
      + intros [[-> | H] | H]; [apply occurs_here | now apply occurs_below | now apply occurs_later].
      + intros H. inversion H; subst; auto. }
  rewrite Hgo. split; intros [H | H]; auto.
Qed.

Lemma flattenToc_occurs (entry : NavItem.t) (toc : list NavItem.t) :
  In entry (flattenToc toc) <-> occursIn entry toc.
Proof.
  induction toc as [| item rest IH]; cbn [flattenToc].
  - split; [intros [] | intros H; inversion H].
  - rewrite in_app_iff, flattenNavItem_occurs, IH. split.
    + intros [[-> | H] | H]; [apply occurs_here | now apply occurs_below | now apply occurs_later].
    + intros H. inversion H; subst; auto.
Qed.

(** [split("#")[0]] is the file portion of an href, and the only one. *)
Lemma split_hash_0_no_hash (s pre post : string) :
  JS.split_hash_0 s <> pre +:+ "#" +:+ post.
Proof.
  revert pre. induction s as [| c s IH]; intros pre; cbn [JS.split_hash_0].
  - destruct pre; discriminate.
  - destruct (Ascii.eqb c "#") eqn:E.
    + destruct pre; discriminate.
    + destruct pre as [| d pre].
      * intros H. injection H as H _. subst c. discriminate.
      * intros H. injection H as _ H. now apply IH in H.
Qed.

Lemma split_hash_0_rest (s : string) :
  s = JS.split_hash_0 s \/ exists anchor, s = JS.split_hash_0 s +:+ "#" +:+ anchor.
Proof.
  induction s as [| c s IH]; [now left |]. cbn [JS.split_hash_0].
  destruct (Ascii.eqb c "#") eqn:E.
  - apply Ascii.eqb_eq in E. subst c. right. now exists s.
  - destruct IH as [IH | [anchor IH]].
    + left. now f_equal.
    + right. exists anchor.
      change (String c s = String c (JS.split_hash_0 s +:+ "#" +:+ anchor)). now f_equal.
Qed.

Lemma split_hash_0_filePortion (href : string) : filePortion href (JS.split_hash_0 href).
Proof. split; [intros pre post; apply split_hash_0_no_hash | apply split_hash_0_rest]. Qed.

Lemma split_hash_0_whole (file : string) :
  (forall pre post, file <> pre +:+ "#" +:+ post) -> JS.split_hash_0 file = file.
Proof.
  induction file as [| c file IH]; intros Hfree; [reflexivity |]. cbn [JS.split_hash_0].
  destruct (Ascii.eqb c "#") eqn:E.
  - apply Ascii.eqb_eq in E. subst c. now destruct (Hfree EmptyString file).
  - f_equal. apply IH. intros pre post H. apply (Hfree (String c pre) post).
    change (String c file = String c (pre +:+ "#" +:+ post)). now f_equal.
Qed.

Lemma split_hash_0_before (file anchor : string) :
  (forall pre post, file <> pre +:+ "#" +:+ post) ->
  JS.split_hash_0 (file +:+ "#" +:+ anchor) = file.
Proof.
  induction file as [| c file IH]; intros Hfree; [reflexivity |].
  change (JS.split_hash_0 (String c (file +:+ "#" +:+ anchor)) = String c file).
  cbn [JS.split_hash_0].
  destruct (Ascii.eqb c "#") eqn:E.
  - apply Ascii.eqb_eq in E. subst c. now destruct (Hfree EmptyString file).
  - f_equal. apply IH. intros pre post H. apply (Hfree (String c pre) post).
    change (String c file = String c (pre +:+ "#" +:+ post)). now f_equal.
Qed.

Lemma filePortion_unique (href file : string) :
  filePortion href file -> file = JS.split_hash_0 href.
Proof.
  intros [Hfree [-> | [anchor ->]]].
  - symmetry. now apply split_hash_0_whole.
  - symmetry. now apply split_hash_0_before.
Qed.

(** The test of [getMatchingTocEntries], in the words of the file
    portion. *)
Lemma tocHrefMatches_spec (spineHref : string) (entry : NavItem.t) :
  tocHrefMatches spineHref entry = true <-> fileOccursIn spineHref entry.
Proof.
  unfold tocHrefMatches, fileOccursIn. rewrite orb_true_iff. split.
  - intros H. exists (JS.split_hash_0 (NavItem.href entry)).
    split; [apply split_hash_0_filePortion |].
    apply includes_spec. destruct H as [H | H]; [exact H | now apply endsWith_includes].
  - intros (file & Hfile & Hocc). apply filePortion_unique in Hfile. subst file.
    left. now apply includes_spec.
Qed.

Lemma targetsSection_fileOccursIn (spineHref : string) (entry : NavItem.t) :
  targetsSection spineHref entry -> fileOccursIn spineHref entry.
Proof.
  intros (file & Hfile & _ & [-> | [dir ->]]); exists file; (split; [exact Hfile |]).
  - exists EmptyString, EmptyString. cbn. now rewrite append_empty_r.
  - exists (dir +:+ "/"), EmptyString. rewrite append_empty_r.
    clear Hfile. induction dir as [| c dir IH]; [reflexivity |].
    change (String c (dir +:+ "/" +:+ file) = String c ((dir +:+ "/") +:+ file)).
    now f_equal.
Qed.

Lemma getMatchingTocEntries_filter (toc : list NavItem.t) (spineHref : string) :
  getMatchingTocEntries toc spineHref =
  List.filter (tocHrefMatches spineHref) (flattenToc toc).
Proof. unfold getMatchingTocEntries. now rewrite traverse_flatten. Qed.

(** C7. [getMatchingTocEntries] collects the entries of the chapter
    tree, at any depth, whose file portion (the href without its anchor)
    occurs somewhere in the href of the section: they come in the order
    of the traversal (an entry, then the entries below it, then its next
    sibling), each as often as the tree holds it.  Every entry whose href
    targets the section is among them, and the anchor does not count:
    two hrefs with the same file portion are collected alike. *)
Theorem getMatchingTocEntries_collects (toc : list NavItem.t) (spineHref : string) :
  (forall entry,
     In entry (getMatchingTocEntries toc spineHref) <->
     occursIn entry toc /\ fileOccursIn spineHref entry) /\
  (exists keep,
     (forall entry, keep entry = true <-> fileOccursIn spineHref entry) /\
     getMatchingTocEntries toc spineHref = List.filter keep (flattenToc toc)) /\
  (forall entry,
     occursIn entry toc -> targetsSection spineHref entry ->
     In entry (getMatchingTocEntries toc spineHref)) /\
  (forall label href subitems label' href' subitems' file,
     filePortion href file -> filePortion href' file ->
     (fileOccursIn spineHref (NavItem.mk label href subitems) <->
      fileOccursIn spineHref (NavItem.mk label' href' subitems'))).
Proof.
  assert (Hin : forall entry,
            In entry (getMatchingTocEntries toc spineHref) <->
            occursIn entry toc /\ fileOccursIn spineHref entry).
  { intros entry.
    rewrite getMatchingTocEntries_filter, filter_In, flattenToc_occurs, tocHrefMatches_spec.
    reflexivity. }
  split; [exact Hin |]. split; [| split].
  - exists (tocHrefMatches spineHref). split.
    + intros entry. apply tocHrefMatches_spec.
    + apply getMatchingTocEntries_filter.
  - intros entry Hocc Htarget. apply Hin. split; [exact Hocc |].
    now apply targetsSection_fileOccursIn.
  - intros label href subitems label' href' subitems' file Hfile Hfile'.
    rewrite <- !tocHrefMatches_spec. unfold tocHrefMatches. cbn [NavItem.href].
    apply filePortion_unique in Hfile, Hfile'. now rewrite <- Hfile, <- Hfile'.
Qed.

(** C7 on the sample table of contents: the entry of chapter 26 targets
    the shared file, so it is collected for it. *)
Lemma getMatchingTocEntries_collects_witness :
  let entry :=
    NavItem.mk "26" "chapters22-27.xhtml#c26"
      [NavItem.mk "26, second half" "chapters22-27.xhtml#c26b" []] in
  occursIn entry Demo.toc /\ targetsSection Demo.sharedFile entry /\
  In entry (getMatchingTocEntries Demo.toc Demo.sharedFile).
Proof.
  cbv zeta.
  assert (Hocc : occursIn
            (NavItem.mk "26" "chapters22-27.xhtml#c26"
               [NavItem.mk "26, second half" "chapters22-27.xhtml#c26b" []]) Demo.toc).
  { unfold Demo.toc. apply occurs_later, occurs_below. cbn [NavItem.subitems].
    apply occurs_later, occurs_here. }
  assert (Htarget : targetsSection Demo.sharedFile
            (NavItem.mk "26" "chapters22-27.xhtml#c26"
               [NavItem.mk "26, second half" "chapters22-27.xhtml#c26b" []])).
  { exists "chapters22-27.xhtml". split; [| split].
    - exact (split_hash_0_filePortion "chapters22-27.xhtml#c26").
    - discriminate.
    - right. now exists "OEBPS". }
  split; [exact Hocc |]. split; [exact Htarget |].
  exact (proj1 (proj2 (proj2 (getMatchingTocEntries_collects Demo.toc Demo.sharedFile)))
           _ Hocc Htarget).
Defined.

(** C7 with the file portion compared for equality: for the section
    [OEBPS/xch1.xhtml] the code collects the entry of [ch1.xhtml],
    another file, and an entry that is an anchor only; neither targets
    the section. *)
Lemma getMatchingTocEntries_collects_counterexample :
  getMatchingTocEntries Demo.looseToc Demo.looseFile = [Demo.anchorOnly; Demo.otherChapter] /\
  ~ targetsSection Demo.looseFile Demo.anchorOnly /\
  ~ targetsSection Demo.looseFile Demo.otherChapter /\
  ~ (forall entry,
       In entry (getMatchingTocEntries Demo.looseToc Demo.looseFile) <->
       occursIn entry Demo.looseToc /\ targetsSection Demo.looseFile entry).
Proof.
  assert (Hrun : getMatchingTocEntries Demo.looseToc Demo.looseFile =
                 [Demo.anchorOnly; Demo.otherChapter]) by (vm_compute; reflexivity).
  assert (Hanchor : ~ targetsSection Demo.looseFile Demo.anchorOnly).
  { intros (file & Hfile & Hne & _). apply filePortion_unique in Hfile.
    now apply Hne. }
  assert (Hother : ~ targetsSection Demo.looseFile Demo.otherChapter).
  { intros (file & Hfile & _ & Hsec). apply filePortion_unique in Hfile.
    cbn in Hfile. subst file. destruct Hsec as [Hsec | [dir Hsec]]; [discriminate |].
    assert (Hends : JS.endsWith Demo.looseFile "/ch1.xhtml" = true).
    { apply endsWith_spec. now exists dir. }
    vm_compute in Hends. discriminate. }
  split; [exact Hrun |]. split; [exact Hanchor |]. split; [exact Hother |].
  intros H. apply Hother. apply (H Demo.otherChapter).
  rewrite Hrun. cbn. tauto.
Qed.

(** The traversal on the sample table of contents: the entries of the
    shared file at every depth, in reading order. *)
Example getMatchingTocEntries_demo :
  map NavItem.label (getMatchingTocEntries Demo.toc Demo.sharedFile) =
  ["Part"; "22"; "26"; "26, second half"; "27"].
Proof. vm_compute. reflexivity. Qed.

(* ===================================================================== *)
(** * [isLocationBookmarked] and the same-anchor test *)
(* ===================================================================== *)

Section SameAnchorFacts.
Variable compare : string -> string -> Z.
Variable spinePos : string -> Z.

Lemma isLocationBookmarked_find p bookmarks :
  JS.truthy p = true ->
  isLocationBookmarked compare spinePos (Some p) bookmarks =
  List.find (fun b => sameAnchor compare spinePos p (Bookmark.cfi b)) bookmarks.
Proof. intros H. unfold isLocationBookmarked. now rewrite H. Qed.

Lemma isLocationBookmarked_None p bookmarks :
  JS.truthy p = true ->
  isLocationBookmarked compare spinePos (Some p) bookmarks = None <->
  bookmarksAt compare spinePos p bookmarks = [].
Proof.
  intros H. rewrite isLocationBookmarked_find by exact H. unfold bookmarksAt.
  induction bookmarks as [| b l IH]; cbn [List.find List.filter]; [tauto |].
  destruct (sameAnchor compare spinePos p (Bookmark.cfi b)); [| exact IH].
  split; discriminate.
Qed.

Lemma isLocationBookmarked_Some p bookmarks b :
  isLocationBookmarked compare spinePos (Some p) bookmarks = Some b ->
  In b bookmarks /\ sameAnchor compare spinePos p (Bookmark.cfi b) = true.
Proof.
  unfold isLocationBookmarked. destruct (negb (JS.truthy p)); [discriminate |].
  apply find_some.
Qed.

Context `{!Consistent compare}.

Lemma sameAnchor_refl p : sameAnchor compare spinePos p p = true.
Proof.
  unfold sameAnchor. rewrite (cmp_refl compare), Z.eqb_refl. reflexivity.
Qed.

Lemma sameAnchor_sym a b :
  sameAnchor compare spinePos a b = sameAnchor compare spinePos b a.
Proof.
  unfold sameAnchor. rewrite (Z.eqb_sym (spinePos a)). f_equal.
  destruct (Z.eqb_spec (compare a b) 0) as [H | H],
           (Z.eqb_spec (compare b a) 0) as [H' | H']; try reflexivity.
  - now apply (cmp_zero_sym compare) in H.
  - now apply (cmp_zero_sym compare) in H'.
Qed.

Lemma sameAnchor_trans a b c :
  sameAnchor compare spinePos a b = true -> sameAnchor compare spinePos b c = true ->
  sameAnchor compare spinePos a c = true.
Proof.
  unfold sameAnchor. rewrite !andb_true_iff, !Z.eqb_eq.
  intros [H1 H2] [H3 H4]. split; [congruence |].
  now apply (cmp_zero_trans compare a b c).
Qed.
End SameAnchorFacts.

(** C9. The same-anchor test of [isLocationBookmarked] (same spine
    position and [compare] equal to zero) is reflexive and symmetric, so
    the lookup at a current position finds a bookmark whenever one is
    stored at exactly that position.  [compare] is taken consistent; the
    lookup takes an empty string for no position. *)
Theorem sameAnchor_reflexive_symmetric
    (compare : string -> string -> Z) (spinePos : string -> Z) :
  Consistent compare ->
  (forall p, sameAnchor compare spinePos p p = true) /\
  (forall a b, sameAnchor compare spinePos a b = sameAnchor compare spinePos b a) /\
  (forall p bookmarks b,
     JS.truthy p = true -> In b bookmarks -> Bookmark.cfi b = p ->
     exists found,
       isLocationBookmarked compare spinePos (Some p) bookmarks = Some found /\
       In found bookmarks /\
       sameAnchor compare spinePos p (Bookmark.cfi found) = true).
Proof.
  intros Hc. split; [| split].
  - intros p. now apply sameAnchor_refl.
  - intros a b. now apply sameAnchor_sym.
  - intros p bookmarks b Hp Hin Hcfi.
    destruct (isLocationBookmarked compare spinePos (Some p) bookmarks) as [found |] eqn:E.
    + exists found. split; [reflexivity |]. now apply isLocationBookmarked_Some in E.
    + exfalso. rewrite isLocationBookmarked_find in E by exact Hp.
      apply (find_none _ _ E) in Hin. cbv beta in Hin.
      rewrite Hcfi, sameAnchor_refl in Hin; [discriminate | exact Hc].
Qed.

(** C9 on the sample data: under the reference reading, a bookmark at the
    anchor of chapter 26 is found from that position. *)
Lemma sameAnchor_reflexive_symmetric_witness :
  Consistent RefCfi.compare /\
  exists found,
    isLocationBookmarked RefCfi.compare RefCfi.spinePos (Some Demo.a26)
      [Demo.bm1; Demo.bm2] = Some found /\
    In found [Demo.bm1; Demo.bm2] /\
    sameAnchor RefCfi.compare RefCfi.spinePos Demo.a26 (Bookmark.cfi found) = true.
Proof.
  split; [exact RefCfi_Consistent |].
  apply (proj2 (proj2 (sameAnchor_reflexive_symmetric RefCfi.compare RefCfi.spinePos
                         RefCfi_Consistent)) Demo.a26 [Demo.bm1; Demo.bm2] Demo.bm2).
  - reflexivity.
  - right. left. reflexivity.
  - reflexivity.
Defined.

(* ===================================================================== *)
(** * [searchBook] *)
(* ===================================================================== *)

Section SectionFacts.
Variable cfiReturns : string -> list string -> bool.

#[local] Abbreviation ok := (attributes cfiReturns).

Lemma forallb_find {A} (f : A -> bool) (l : list A) :
  forallb f l = match List.find (fun x => negb (f x)) l with Some _ => false | None => true end.
Proof.
  induction l as [| x l IH]; [reflexivity |]. cbn [forallb List.find].
  destruct (f x); [exact IH | reflexivity].
Qed.

Lemma attributedPrefix_all (f : EpubSearchMatch.t -> bool) (l : list EpubSearchMatch.t) :
  forallb f l = true -> attributedPrefix f l = l.
Proof.
  induction l as [| x l IH]; [reflexivity |]. cbn [forallb attributedPrefix].
  destruct (f x); [| discriminate]. intros H. now rewrite IH.
Qed.

(** The matches attributed are the first ones: all of them, or those
    before one whose attribution throws. *)
Lemma attributedPrefix_spec (f : EpubSearchMatch.t -> bool) (l : list EpubSearchMatch.t) :
  exists rest,
    l = attributedPrefix f l ++ rest /\
    (forall m, In m (attributedPrefix f l) -> f m = true) /\
    (rest = [] \/ exists m rest', rest = m :: rest' /\ f m = false).
Proof.
  induction l as [| x l (rest & Hl & Hok & Hrest)].
  - exists []. split; [reflexivity |]. split; [intros m [] | now left].
  - cbn [attributedPrefix]. destruct (f x) eqn:Hx.
    + exists rest. split; [cbn; now f_equal |]. split; [| exact Hrest].
      intros m [<- | Hm]; [exact Hx | now apply Hok].
    + exists (x :: l). split; [reflexivity |]. split; [intros m [] |].
      right. now exists x, l.
Qed.

Lemma sectionSucceeds_iff toc query item :
  sectionSucceeds cfiReturns toc query item = true <->
  SpineItem.load_ok item = true /\
  exists matches,
    SpineItem.find item query = Some matches /\
    forall m, In m matches -> ok toc item m = true.
Proof.
  unfold sectionSucceeds. rewrite andb_true_iff.
  destruct (SpineItem.find item query) as [matches |].
  - rewrite forallb_forall. split.
    + intros [Hl Hm]. split; [exact Hl |]. now exists matches.
    + intros [Hl (ms & [= <-] & Hm)]. tauto.
  - split; [intros [_ H]; discriminate | intros [_ (ms & H & _)]; discriminate].
Qed.

Lemma sectionTrace_warnings toc query spine :
  List.filter isWarn (flat_map (sectionTrace cfiReturns toc query) spine) =
  map sectionWarning
      (List.filter (fun i => negb (sectionSucceeds cfiReturns toc query i)) spine).
Proof.
  induction spine as [| item rest IH]; [reflexivity |].
  cbn [flat_map List.filter]. rewrite List.filter_app, IH.
  unfold sectionTrace at 1.
  destruct (SpineItem.load_ok item), (sectionSucceeds cfiReturns toc query item);
    reflexivity.
Qed.

Lemma sectionTrace_loads toc query spine :
  List.filter isLoad (flat_map (sectionTrace cfiReturns toc query) spine) =
  map (fun i => Search.Load (SpineItem.href i)) spine.
Proof.
  induction spine as [| item rest IH]; [reflexivity |].
  cbn [flat_map map]. rewrite List.filter_app, IH.
  unfold sectionTrace at 1.
  destruct (SpineItem.load_ok item), (sectionSucceeds cfiReturns toc query item);
    reflexivity.
Qed.

Lemma sectionTrace_finds toc query spine :
  List.filter isFind (flat_map (sectionTrace cfiReturns toc query) spine) =
  map (fun i => Search.Find (SpineItem.href i) query) (List.filter SpineItem.load_ok spine).
Proof.
  induction spine as [| item rest IH]; [reflexivity |].
  cbn [flat_map List.filter]. rewrite List.filter_app, IH.
  unfold sectionTrace at 1.
  destruct (SpineItem.load_ok item), (sectionSucceeds cfiReturns toc query item);
    reflexivity.
Qed.

Lemma sectionTrace_unloads toc query spine :
  List.filter isUnload (flat_map (sectionTrace cfiReturns toc query) spine) =
  map (fun i => Search.Unload (SpineItem.href i)) spine.
Proof.
  induction spine as [| item rest IH]; [reflexivity |].
  cbn [flat_map map]. rewrite List.filter_app, IH.
  unfold sectionTrace at 1.
  destruct (SpineItem.load_ok item), (sectionSucceeds cfiReturns toc query item);
    reflexivity.
Qed.
End SectionFacts.

Section SearchFacts.
Variable compare : string -> string -> Z.
Variable cfiReturns : string -> list string -> bool.

#[local] Abbreviation ok := (attributes cfiReturns).

(** The attribution of a match of a section: the title, or the
    exception of epub.js; the state is left as it is. *)
Lemma attribute_run toc item m (s : Search.State) :
  attribute compare cfiReturns (EpubSearchMatch.cfi m)
    (getChapterPositions item (getMatchingTocEntries toc (SpineItem.href item)))
    (SpineItem.href item) s =
  (s, if ok toc item m
      then inr (SearchResult.chapterTitle (sectionResult compare toc item m))
      else inl (CfiError (EpubSearchMatch.cfi m))).
Proof.
  unfold attribute, attributes, sectionResult. cbn [SearchResult.chapterTitle].
  set (chapters := getChapterPositions item _).
  destruct ((length chapters =? 0)%nat || (length chapters =? 1)%nat
            || (length (List.filter hasCfi chapters) =? 0)%nat); [reflexivity |].
  cbn [orb]. destruct (cfiReturns _ _); reflexivity.
Qed.

(** The loop over the matches of a section: results are pushed until an
    attribution throws. *)
Lemma for_of_attribute toc item matches (s : Search.State) :
  for_of matches (fun m =>
    chapterTitle ← attribute compare cfiReturns (EpubSearchMatch.cfi m)
                     (getChapterPositions item
                        (getMatchingTocEntries toc (SpineItem.href item)))
                     (SpineItem.href item);
    Search.push (SearchResult.mk (EpubSearchMatch.cfi m) (EpubSearchMatch.excerpt m)
                                 chapterTitle)) s =
  (Search.mkState
     (Search.results s ++
      map (sectionResult compare toc item) (attributedPrefix (ok toc item) matches))
     (Search.trace s),
   match List.find (fun m => negb (ok toc item m)) matches with
   | Some m => inl (CfiError (EpubSearchMatch.cfi m))
   | None => inr tt
   end).
Proof.
  revert s. induction matches as [| m rest IH]; intros [results trace].
  - cbn. now rewrite app_nil_r.
  - cbn [for_of attributedPrefix List.find].
    unfold mbind at 1, M_bind at 1. unfold mbind at 1, M_bind at 1.
    rewrite attribute_run. destruct (ok toc item m) eqn:Hm; cbn [negb].
    + unfold Search.push, modify. rewrite IH.
      cbn [Search.results Search.trace map]. unfold sectionResult at 2.
      now rewrite <- app_assoc.
    + cbn. now rewrite app_nil_r.
Qed.

(** One turn of the loop: what the section yields is appended to the
    results; no exception leaves the turn. *)
Lemma searchItem_run toc query item (s : Search.State) :
  searchItem compare cfiReturns toc query item s =
  (Search.mkState
     (Search.results s ++ sectionYield compare cfiReturns toc query item)
     (Search.trace s ++ sectionTrace cfiReturns toc query item),
   inr tt).
Proof.
  destruct s as [results trace].
  unfold searchItem, sectionYield, sectionSucceeds, sectionTrace, try_catch_finally.
  unfold Search.load, Search.find, Search.unload, Search.warn, Search.emit.
  destruct (SpineItem.load_ok item) eqn:Hload; cbn [andb].
  - destruct (SpineItem.find item query) as [matches |] eqn:Hfind.
    + unfold sectionSucceeds. rewrite Hload, Hfind. cbn [andb default].
      unfold mbind at 1, M_bind at 1, modify at 1.
      unfold mbind at 1, M_bind at 1, mret at 1, M_ret at 1.
      unfold mbind at 1, M_bind at 1.
      unfold mbind at 1, M_bind at 1, modify at 1.
      unfold mret at 1, M_ret at 1.
      rewrite for_of_attribute. rewrite forallb_find.
      cbn [Search.results Search.trace].
      destruct (List.find _ matches) as [bad |];
        unfold modify; cbn [Search.results Search.trace];
        now rewrite <- ?app_assoc.
    + unfold sectionSucceeds. rewrite Hload, Hfind. cbn [andb default].
      unfold mbind, M_bind, mret, M_ret, modify, throw. cbn.
      rewrite app_nil_r. now rewrite <- ?app_assoc.
  - unfold sectionSucceeds. rewrite Hload. cbn [andb].
    unfold mbind, M_bind, mret, M_ret, modify, throw. cbn.
    rewrite app_nil_r. now rewrite <- ?app_assoc.
Qed.

Lemma for_of_searchItem toc query spine (s : Search.State) :
  for_of spine (searchItem compare cfiReturns toc query) s =
  (Search.mkState
     (Search.results s ++ flat_map (sectionYield compare cfiReturns toc query) spine)
     (Search.trace s ++ flat_map (sectionTrace cfiReturns toc query) spine),
   inr tt).
Proof.
  revert s. induction spine as [| item rest IH]; intros s.
  - destruct s. cbn. now rewrite !app_nil_r.
  - cbn [for_of]. unfold mbind, M_bind at 1. rewrite searchItem_run, IH.
    cbn [Search.results Search.trace flat_map]. now rewrite <- !app_assoc.
Qed.

(** The run of a search that passes the guard. *)
Lemma searchBook_yields book query :
  JS.truthy (JS.trim query) = true ->
  (2 <= String.length query)%nat ->
  searchBook compare cfiReturns book query Search.initial =
  (Search.mkState
     (flat_map (sectionYield compare cfiReturns (default [] (Book.toc book)) query)
               (Book.spine book))
     (flat_map (sectionTrace cfiReturns (default [] (Book.toc book)) query)
               (Book.spine book)),
   inr (flat_map (sectionYield compare cfiReturns (default [] (Book.toc book)) query)
                 (Book.spine book))).
Proof.
  intros Htrim Hlen. unfold searchBook. rewrite Htrim.
  destruct (Nat.ltb_spec (String.length query) 2) as [H | _]; [lia |].
  cbn [negb orb]. unfold mbind, M_bind at 1. rewrite for_of_searchItem.
  reflexivity.
Qed.

(** A processed section yields all its matches; one that does not load
    or cannot be matched yields none. *)
Lemma sectionYield_succeeds toc query item :
  sectionSucceeds cfiReturns toc query item = true ->
  sectionYield compare cfiReturns toc query item = sectionMatches compare toc query item.
Proof.
  unfold sectionSucceeds, sectionYield, sectionMatches.
  destruct (SpineItem.load_ok item); [| discriminate]. cbn [andb].
  destruct (SpineItem.find item query) as [matches |]; [| discriminate].
  cbn [default]. intros H. now rewrite attributedPrefix_all.
Qed.

Lemma sectionYield_skipped toc query item :
  SpineItem.load_ok item = false \/ SpineItem.find item query = None ->
  sectionYield compare cfiReturns toc query item = [].
Proof.
  unfold sectionYield. intros [-> | ->]; [reflexivity |].
  destruct (SpineItem.load_ok item); reflexivity.
Qed.

(** When no attribution throws, the results are the matches of the
    processed sections. *)
Lemma flat_map_sectionYield toc query spine :
  (forall item matches m,
     In item spine -> SpineItem.find item query = Some matches -> In m matches ->
     ok toc item m = true) ->
  flat_map (sectionYield compare cfiReturns toc query) spine =
  flat_map (sectionMatches compare toc query)
           (List.filter (sectionSucceeds cfiReturns toc query) spine).
Proof.
  induction spine as [| item rest IH]; intros Hok; [reflexivity |].
  cbn [flat_map List.filter].
  rewrite IH by (intros i ms m Hi; apply Hok; now right).
  destruct (sectionSucceeds cfiReturns toc query item) eqn:Hs.
  - cbn [flat_map]. now rewrite sectionYield_succeeds.
  - rewrite sectionYield_skipped; [reflexivity |].
    destruct (SpineItem.load_ok item) eqn:Hl; [| now left]. right.
    destruct (SpineItem.find item query) as [matches |] eqn:Hf; [| reflexivity].
    exfalso. assert (Htrue : sectionSucceeds cfiReturns toc query item = true).
    { apply sectionSucceeds_iff. split; [exact Hl |]. exists matches.
      split; [exact Hf |]. intros m Hm. apply (Hok item matches m); auto. now left. }
    congruence.
Qed.

End SearchFacts.

(** C4. On a query shorter than two characters, the empty one included,
    [searchBook] returns the empty list without an exception and without
    a call to its collaborators: no section is loaded and no text match
    is asked for. *)
Theorem searchBook_short_query (compare : string -> string -> Z)
    (cfiReturns : string -> list string -> bool)
    (book : Book.t) (query : string) (s : Search.State) :
  (String.length query < 2)%nat ->
  searchBook compare cfiReturns book query s = (s, inr []) /\
  exists final,
    searchBook compare cfiReturns book query Search.initial = (final, inr []) /\
    Search.trace final = [] /\ Search.results final = [].
Proof.
  intros Hlen.
  assert (E : forall s', searchBook compare cfiReturns book query s' = (s', inr [])).
  { intros s'. unfold searchBook.
    destruct (Nat.ltb_spec (String.length query) 2) as [_ | H]; [| lia].
    now rewrite orb_true_r. }
  split; [apply E |]. exists Search.initial. now rewrite E.
Qed.

(** C4 on the sample data: a query of one character on the sample book. *)
Lemma searchBook_short_query_witness :
  searchBook RefCfi.compare RefCfi.cfiReturns Demo.book "m" Search.initial =
  (Search.initial, inr []).
Proof.
  apply (searchBook_short_query RefCfi.compare RefCfi.cfiReturns Demo.book "m"
           Search.initial).
  cbn. lia.
Defined.

(** C5, as the code has it.  On a query that is searched, whatever
    sections fail to load, to be matched or to have their matches
    attributed, [searchBook] returns without an exception; each failing
    section, and no other, has its warning recorded, in spine order;
    every section is loaded and unloaded, failing or not, the text match
    being asked of the sections that loaded.  What it returns is the
    concatenation, in spine order, of what the sections yield: all the
    matches of a section that is processed; none of a section that does
    not load or cannot be matched; and, of a section where the
    attribution of a match throws, the matches before that one, which
    were pushed already.  So when no attribution throws, it returns the
    concatenation of the matches of the sections processed. *)
Theorem searchBook_skips_failing_sections (compare : string -> string -> Z)
    (cfiReturns : string -> list string -> bool)
    (book : Book.t) (query : string) :
  JS.truthy (JS.trim query) = true ->
  (2 <= String.length query)%nat ->
  let toc := default [] (Book.toc book) in
  let spine := Book.spine book in
  let succeeds := sectionSucceeds cfiReturns toc query in
  let yield := sectionYield compare cfiReturns toc query in
  exists final,
    searchBook compare cfiReturns book query Search.initial =
      (final, inr (Search.results final)) /\
    Search.results final = flat_map yield spine /\
    (* a section is processed when it loads, is matched, and every match
       is attributed *)
    (forall item,
       succeeds item = true <->
       SpineItem.load_ok item = true /\
       exists matches,
         SpineItem.find item query = Some matches /\
         forall m, In m matches -> attributes cfiReturns toc item m = true) /\
    (* what a section yields *)
    (forall item, succeeds item = true -> yield item = sectionMatches compare toc query item) /\
    (forall item,
       SpineItem.load_ok item = false \/ SpineItem.find item query = None ->
       yield item = []) /\
    (forall item matches,
       SpineItem.load_ok item = true -> SpineItem.find item query = Some matches ->
       exists attributed rest,
         matches = attributed ++ rest /\
         yield item = map (sectionResult compare toc item) attributed /\
         (forall m, In m attributed -> attributes cfiReturns toc item m = true) /\
         (rest = [] \/
          exists m rest', rest = m :: rest' /\ attributes cfiReturns toc item m = false)) /\
    (* with no failing attribution, the matches of the processed sections *)
    ((forall item matches m,
        In item spine -> SpineItem.find item query = Some matches -> In m matches ->
        attributes cfiReturns toc item m = true) ->
     Search.results final = flat_map (sectionMatches compare toc query)
                                     (List.filter succeeds spine)) /\
    List.filter isWarn (Search.trace final) =
      map sectionWarning (List.filter (fun i => negb (succeeds i)) spine) /\
    List.filter isLoad (Search.trace final) =
      map (fun i => Search.Load (SpineItem.href i)) spine /\
    List.filter isFind (Search.trace final) =
      map (fun i => Search.Find (SpineItem.href i) query)
          (List.filter SpineItem.load_ok spine) /\
    List.filter isUnload (Search.trace final) =
      map (fun i => Search.Unload (SpineItem.href i)) spine /\
    Search.trace final = flat_map (sectionTrace cfiReturns toc query) spine.
Proof.
  intros Htrim Hlen toc spine succeeds yield.
  exists (Search.mkState (flat_map yield spine)
                         (flat_map (sectionTrace cfiReturns toc query) spine)).
  split; [apply (searchBook_yields compare cfiReturns book query Htrim Hlen) |].
  cbn [Search.results Search.trace].
  split; [reflexivity |].
  split; [intros item; apply sectionSucceeds_iff |].
  split; [intros item; apply sectionYield_succeeds |].
  split; [intros item; apply sectionYield_skipped |].
  split.
  { intros item matches Hload Hfind. subst yield. unfold sectionYield.
    rewrite Hload, Hfind. cbn [default].
    destruct (attributedPrefix_spec (attributes cfiReturns toc item) matches)
      as (rest & Hsplit & Hok & Hrest).
    exists (attributedPrefix (attributes cfiReturns toc item) matches), rest. auto. }
  split; [intros Hok; now apply flat_map_sectionYield |].
  split; [apply sectionTrace_warnings |].
  split; [apply sectionTrace_loads |]. split; [apply sectionTrace_finds |].
  split; [apply sectionTrace_unloads | reflexivity].
Qed.

(** The search on the sample book, run: what it returns and what it
    did, in order. *)
Example searchBook_demo :
  searchBook RefCfi.compare RefCfi.cfiReturns Demo.book "mate" Search.initial =
  (Search.mkState
     [SearchResult.mk Demo.inChapter26 "the chief mate" "26"]
     [ Search.Load "OEBPS/chapter01.xhtml";
       Search.Warn "Failed to search spine item: OEBPS/chapter01.xhtml";
       Search.Unload "OEBPS/chapter01.xhtml";
       Search.Load Demo.sharedFile; Search.Find Demo.sharedFile "mate";
       Search.Unload Demo.sharedFile;
       Search.Load "OEBPS/chapter99.xhtml"; Search.Find "OEBPS/chapter99.xhtml" "mate";
       Search.Warn "Failed to search spine item: OEBPS/chapter99.xhtml";
       Search.Unload "OEBPS/chapter99.xhtml" ],
   inr [SearchResult.mk Demo.inChapter26 "the chief mate" "26"]) /\
  searchBook RefCfi.compare RefCfi.cfiReturns Demo.book "  " Search.initial =
  (Search.initial, inr []).
Proof. split; vm_compute; reflexivity. Qed.

(** C5 on the sample data: on the sample book the first section does not
    load and the last cannot be matched; the match of the middle one is
    returned, under chapter 26. *)
Lemma searchBook_skips_failing_sections_witness :
  exists final,
    searchBook RefCfi.compare RefCfi.cfiReturns Demo.book "mate" Search.initial =
      (final, inr (Search.results final)) /\
    Search.results final =
      [SearchResult.mk Demo.inChapter26 "the chief mate" "26"] /\
    List.filter isWarn (Search.trace final) =
      [sectionWarning Demo.unreadable; sectionWarning Demo.broken].
Proof.
  destruct (searchBook_skips_failing_sections RefCfi.compare RefCfi.cfiReturns
              Demo.book "mate")
    as (final & Hrun & Hres & _ & _ & _ & _ & _ & Hwarn & _).
  - reflexivity.
  - cbn. lia.
  - exists final. split; [exact Hrun |]. split.
    + rewrite Hres. vm_compute. reflexivity.
    + rewrite Hwarn. vm_compute. reflexivity.
Defined.

(** C5 as it is stated, on a book of one section: the section is
    matched three times and the attribution of the third match throws.
    The section fails, its warning is recorded, and the list returned
    holds its first two matches: it is not the concatenation of the
    matches of the sections processed, of which there is none. *)
Lemma searchBook_skips_failing_sections_counterexample :
  let toc := default [] (Book.toc Demo.garbledBook) in
  exists final,
    searchBook RefCfi.compare RefCfi.cfiReturns Demo.garbledBook "mate" Search.initial =
      (final, inr (Search.results final)) /\
    List.filter isWarn (Search.trace final) = [sectionWarning Demo.garbled] /\
    List.filter (sectionSucceeds RefCfi.cfiReturns toc "mate")
                (Book.spine Demo.garbledBook) = [] /\
    Search.results final =
      [SearchResult.mk Demo.inChapter26 "the chief mate" "26";
       SearchResult.mk Demo.a27 "the chief mate" "27"] /\
    Search.results final <>
      flat_map (sectionMatches RefCfi.compare toc "mate")
               (List.filter (sectionSucceeds RefCfi.cfiReturns toc "mate")
                            (Book.spine Demo.garbledBook)).
Proof.
  intros toc.
  exists (Search.mkState
            [SearchResult.mk Demo.inChapter26 "the chief mate" "26";
             SearchResult.mk Demo.a27 "the chief mate" "27"]
            [Search.Load Demo.sharedFile; Search.Find Demo.sharedFile "mate";
             sectionWarning Demo.garbled; Search.Unload Demo.sharedFile]).
  split; [vm_compute; reflexivity |].
  cbn [Search.results Search.trace].
  split; [vm_compute; reflexivity |]. split; [vm_compute; reflexivity |].
  split; [reflexivity |]. vm_compute. discriminate.
Qed.

(* ===================================================================== *)
(** * The highlight popup: [handleColorSelect], [handleCancelHighlight] *)
(* ===================================================================== *)

(** Running an effect step by step. *)
Ltac run_eff :=
  unfold mbind, M_bind, mret, M_ret, get, modify, throw, zoom, try_catch_finally;
  cbn beta iota delta [fst snd].

(** Cancelling closes the popup and leaves the store as it is. *)
Lemma handleCancelHighlight_run (s : Notes.State) :
  exists s2,
    handleCancelHighlight s = (s2, inr tt) /\
    Notes.db s2 = Notes.db s /\
    Notes.highlights s2 = Notes.highlights s /\
    Notes.highlightPopup s2 = None.
Proof.
  destruct s as [db highlights popup rendition selection].
  unfold handleCancelHighlight, Notes.setHighlightPopup, Notes.removeAllRanges. run_eff.
  cbn [Notes.highlightPopup].
  destruct popup as [current |]; [destruct (Stage_eqb _ _) |];
    eexists; (split; [reflexivity |]); cbn; auto.
Qed.

(** Choosing a colour in the colour picker: the highlight is in the
    store when [createHighlight] returns, whatever the overlay does
    next. *)
Lemma handleColorSelect_run bookId color uuid now overlayOk (s : Notes.State)
    popup annotations :
  Notes.highlightPopup s = Some popup ->
  HighlightPopupState.isNew popup = true ->
  HighlightPopupState.stage popup = color_picker ->
  Notes.rendition s = Some annotations ->
  Db.highlights (Notes.db s) !! uuid = None ->
  let cfiRange := HighlightPopupState.cfiRange popup in
  let highlight :=
    Highlight.mk uuid bookId cfiRange (HighlightPopupState.text popup) color None now now in
  let db1 :=
    Db.mk (Db.bookmarks (Notes.db s)) (<[uuid := highlight]> (Db.highlights (Notes.db s)))
          (Db.calls (Notes.db s) ++ [Db.CreateHighlight highlight]) in
  handleColorSelect bookId color uuid now overlayOk s =
  if overlayOk then
    (Notes.mkState db1 (Notes.highlights s ++ [highlight])
       (Some (HighlightPopupState.mk (HighlightPopupState.position popup) false editing
                (Some uuid) cfiRange (HighlightPopupState.text popup) color None))
       (Some (<[cfiRange := Annotation.mk "" (getColorValue color)]> annotations))
       ((fun _ => false) <$> Notes.selection s),
     inr tt)
  else
    (Notes.mkState db1 (Notes.highlights s) (Some popup) (Some annotations)
       (Notes.selection s),
     inl (OverlayError cfiRange)).
Proof.
  destruct s as [[bookmarks highlights calls] hl pop rendition selection].
  cbn [Notes.highlightPopup Notes.rendition Notes.db Notes.highlights Notes.selection
       Db.highlights Db.bookmarks Db.calls].
  intros -> Hnew Hstage -> Hfresh.
  unfold handleColorSelect. run_eff.
  cbn [Notes.highlightPopup Notes.rendition].
  rewrite Hnew, Hstage. cbn [negb Stage_eqb orb].
  unfold Notes.onDb, Db.createHighlight, Db.called, Notes.annotationsAdd,
    Notes.removeAllRanges, Notes.setHighlights, Notes.setHighlightPopup.
  run_eff. cbn [Notes.db Db.highlights Db.bookmarks Db.calls].
  rewrite Hfresh.
  destruct overlayOk; cbn; reflexivity.
Qed.

(** The other ways a colour selection can go: nothing without a
    rendition; a change of the colour shown when the popup is not the
    colour picker of a new highlight; an exception, and nothing stored,
    when the store refuses the id. *)
Lemma handleColorSelect_no_rendition bookId color uuid now overlayOk (s : Notes.State) :
  Notes.rendition s = None ->
  handleColorSelect bookId color uuid now overlayOk s = (s, inr tt).
Proof.
  destruct s as [db hl pop rendition selection]. cbn [Notes.rendition]. intros ->.
  unfold handleColorSelect. run_eff. cbn [Notes.highlightPopup Notes.rendition].
  destruct pop; reflexivity.
Qed.

Lemma handleColorSelect_recolour bookId color uuid now overlayOk (s : Notes.State)
    popup annotations :
  Notes.highlightPopup s = Some popup ->
  Notes.rendition s = Some annotations ->
  HighlightPopupState.isNew popup = false \/ HighlightPopupState.stage popup = editing ->
  handleColorSelect bookId color uuid now overlayOk s =
  (Notes.mkState (Notes.db s) (Notes.highlights s)
     (Some (HighlightPopupState.withColor popup color)) (Some annotations)
     (Notes.selection s),
   inr tt).
Proof.
  destruct s as [db hl pop rendition selection].
  cbn [Notes.highlightPopup Notes.rendition Notes.db Notes.highlights Notes.selection].
  intros -> -> Hcase.
  unfold handleColorSelect. run_eff. cbn [Notes.highlightPopup Notes.rendition].
  assert (E : negb (HighlightPopupState.isNew popup)
              || negb (Stage_eqb (HighlightPopupState.stage popup) color_picker) = true).
  { destruct Hcase as [-> | ->]; [reflexivity | apply orb_true_r]. }
  rewrite E. reflexivity.
Qed.

Lemma handleColorSelect_refused bookId color uuid now overlayOk (s : Notes.State)
    popup annotations taken :
  Notes.highlightPopup s = Some popup ->
  HighlightPopupState.isNew popup = true ->
  HighlightPopupState.stage popup = color_picker ->
  Notes.rendition s = Some annotations ->
  Db.highlights (Notes.db s) !! uuid = Some taken ->
  let highlight :=
    Highlight.mk uuid bookId (HighlightPopupState.cfiRange popup)
                 (HighlightPopupState.text popup) color None now now in
  handleColorSelect bookId color uuid now overlayOk s =
  (Notes.mkState
     (Db.mk (Db.bookmarks (Notes.db s)) (Db.highlights (Notes.db s))
            (Db.calls (Notes.db s) ++ [Db.CreateHighlight highlight]))
     (Notes.highlights s) (Some popup) (Some annotations) (Notes.selection s),
   inl (ConstraintError uuid)).
Proof.
  destruct s as [[bookmarks highlights calls] hl pop rendition selection].
  cbn [Notes.highlightPopup Notes.rendition Notes.db Notes.highlights Notes.selection
       Db.highlights Db.bookmarks Db.calls].
  intros -> Hnew Hstage -> Htaken.
  unfold handleColorSelect. run_eff.
  cbn [Notes.highlightPopup Notes.rendition].
  rewrite Hnew, Hstage. cbn [negb Stage_eqb orb].
  unfold Notes.onDb, Db.createHighlight, Db.called. run_eff.
  cbn [Notes.db Db.highlights Db.bookmarks Db.calls].
  rewrite Htaken. reflexivity.
Qed.

(** The popup leaves the colour picker for the editing stage on one
    path only: a new highlight, a rendition, an id the store accepts and
    an overlay that registers.  Whenever it has, the highlight is in the
    store. *)
Lemma handleColorSelect_transition bookId color uuid now overlayOk
    (s s1 : Notes.State) r1 popup popup1 :
  handleColorSelect bookId color uuid now overlayOk s = (s1, r1) ->
  Notes.highlightPopup s = Some popup ->
  HighlightPopupState.stage popup = color_picker ->
  Notes.highlightPopup s1 = Some popup1 ->
  HighlightPopupState.stage popup1 = editing ->
  let highlight :=
    Highlight.mk uuid bookId (HighlightPopupState.cfiRange popup)
                 (HighlightPopupState.text popup) color None now now in
  r1 = inr tt /\
  HighlightPopupState.highlightId popup1 = Some uuid /\
  Db.highlights (Notes.db s1) !! uuid = Some highlight /\
  Db.calls (Notes.db s1) = Db.calls (Notes.db s) ++ [Db.CreateHighlight highlight].
Proof.
  intros Hrun Hpopup Hstage Hpopup1 Hstage1 highlight.
  destruct (Notes.rendition s) as [annotations |] eqn:Hrend.
  2:{ exfalso. rewrite handleColorSelect_no_rendition in Hrun by exact Hrend.
      injection Hrun as <- _. congruence. }
  destruct (HighlightPopupState.isNew popup) eqn:Hnew.
  2:{ exfalso.
      rewrite (handleColorSelect_recolour _ _ _ _ _ _ popup annotations Hpopup Hrend
                 (or_introl Hnew)) in Hrun.
      injection Hrun as <- _. cbn in Hpopup1. injection Hpopup1 as <-.
      cbn in Hstage1. congruence. }
  destruct (Db.highlights (Notes.db s) !! uuid) as [taken |] eqn:Hid.
  { exfalso.
    rewrite (handleColorSelect_refused _ _ _ _ _ _ popup annotations taken
               Hpopup Hnew Hstage Hrend Hid) in Hrun.
    injection Hrun as <- _. cbn in Hpopup1. congruence. }
  pose proof (handleColorSelect_run bookId color uuid now overlayOk s popup annotations
                Hpopup Hnew Hstage Hrend Hid) as Hrun'.
  cbv zeta in Hrun'. fold highlight in Hrun'. rewrite Hrun in Hrun'.
  destruct overlayOk.
  - injection Hrun' as -> ->. cbn in Hpopup1. injection Hpopup1 as <-.
    cbn. rewrite lookup_insert_eq. auto.
  - exfalso. injection Hrun' as -> _. cbn in Hpopup1. congruence.
Qed.

(** C2. When a colour is chosen in the colour picker of a new
    highlight, [createHighlight] is the one call the store receives and
    the highlight is in the store from then on, with no note, before any
    note is saved; the popup moves to the editing stage with the id of
    the highlight.  Cancelling afterwards makes no call to the store, so
    the highlight is still there.  And whenever a colour selection has
    taken the popup from the colour picker to the editing stage, the
    highlight is in the store, and still is after a cancel. *)
Theorem handleColorSelect_persists_before_note
    (bookId : string) (color : HighlightColor) (uuid : string) (now : Z) (overlayOk : bool)
    (s : Notes.State) (popup : HighlightPopupState.t) :
  Notes.highlightPopup s = Some popup ->
  HighlightPopupState.stage popup = color_picker ->
  let highlight :=
    Highlight.mk uuid bookId (HighlightPopupState.cfiRange popup)
                 (HighlightPopupState.text popup) color None now now in
  (* the transition, when its conditions are met *)
  (forall annotations,
     HighlightPopupState.isNew popup = true ->
     Notes.rendition s = Some annotations ->
     Db.highlights (Notes.db s) !! uuid = None ->
     exists s1 r1,
       handleColorSelect bookId color uuid now overlayOk s = (s1, r1) /\
       Db.highlights (Notes.db s1) !! uuid = Some highlight /\
       Db.calls (Notes.db s1) = Db.calls (Notes.db s) ++ [Db.CreateHighlight highlight] /\
       (overlayOk = true ->
          r1 = inr tt /\
          Notes.highlights s1 = Notes.highlights s ++ [highlight] /\
          exists popup1,
            Notes.highlightPopup s1 = Some popup1 /\
            HighlightPopupState.stage popup1 = editing /\
            HighlightPopupState.isNew popup1 = false /\
            HighlightPopupState.highlightId popup1 = Some uuid /\
            HighlightPopupState.note popup1 = None)) /\
  (* every transition leaves the highlight in the store, cancel or not *)
  (forall s1 r1 popup1,
     handleColorSelect bookId color uuid now overlayOk s = (s1, r1) ->
     Notes.highlightPopup s1 = Some popup1 ->
     HighlightPopupState.stage popup1 = editing ->
     HighlightPopupState.highlightId popup1 = Some uuid /\
     Db.highlights (Notes.db s1) !! uuid = Some highlight /\
     Db.calls (Notes.db s1) = Db.calls (Notes.db s) ++ [Db.CreateHighlight highlight] /\
     exists s2,
       handleCancelHighlight s1 = (s2, inr tt) /\
       Notes.db s2 = Notes.db s1 /\
       Db.calls (Notes.db s2) = Db.calls (Notes.db s) ++ [Db.CreateHighlight highlight] /\
       Db.highlights (Notes.db s2) !! uuid = Some highlight /\
       Notes.highlightPopup s2 = None).
Proof.
  intros Hpopup Hstage highlight. split.
  - intros annotations Hnew Hrend Hfresh.
    pose proof (handleColorSelect_run bookId color uuid now overlayOk s popup annotations
                  Hpopup Hnew Hstage Hrend Hfresh) as Hrun.
    cbv zeta in Hrun. fold highlight in Hrun.
    destruct (handleColorSelect bookId color uuid now overlayOk s) as [s1 r1].
    exists s1, r1. split; [reflexivity |].
    assert (Hstore : Db.highlights (Notes.db s1) !! uuid = Some highlight /\
                     Db.calls (Notes.db s1) =
                     Db.calls (Notes.db s) ++ [Db.CreateHighlight highlight]).
    { destruct overlayOk; injection Hrun as -> _; cbn; now rewrite lookup_insert_eq. }
    destruct Hstore as [Hin Hcalls].
    split; [exact Hin |]. split; [exact Hcalls |].
    intros ->. injection Hrun as -> ->. cbn.
    split; [reflexivity |]. split; [reflexivity |].
    eexists. split; [reflexivity |]. cbn. auto.
  - intros s1 r1 popup1 Hrun Hpopup1 Hstage1.
    destruct (handleColorSelect_transition bookId color uuid now overlayOk s s1 r1
                popup popup1 Hrun Hpopup Hstage Hpopup1 Hstage1)
      as (_ & Hid & Hin & Hcalls).
    fold highlight in Hin, Hcalls.
    split; [exact Hid |]. split; [exact Hin |]. split; [exact Hcalls |].
    destruct (handleCancelHighlight_run s1) as (s2 & Hcancel & Hdb & _ & Hnone).
    exists s2. rewrite Hdb. auto.
Qed.

(** C2 on the sample data: a passage is selected, yellow is chosen, the
    popup is cancelled; the highlight is in the store. *)
Lemma handleColorSelect_persists_before_note_witness :
  exists s1 s2,
    handleColorSelect Demo.bookId yellow "hl-1" 50 true Demo.picking = (s1, inr tt) /\
    handleCancelHighlight s1 = (s2, inr tt) /\
    Db.highlights (Notes.db s2) !! "hl-1" =
      Some (Highlight.mk "hl-1" Demo.bookId Demo.selectedRange "The chief mate"
                         yellow None 50 50) /\
    Db.calls (Notes.db s2) =
      [Db.CreateHighlight (Highlight.mk "hl-1" Demo.bookId Demo.selectedRange
                             "The chief mate" yellow None 50 50)].
Proof.
  pose proof (handleColorSelect_persists_before_note Demo.bookId yellow "hl-1" 50 true
                Demo.picking
                (HighlightPopupState.mk (120, 80)%Z true color_picker None
                   Demo.selectedRange "The chief mate" yellow None)
                eq_refl eq_refl) as [Hgo Hkept].
  destruct (Hgo ∅ eq_refl eq_refl eq_refl) as (s1 & r1 & Hrun & _ & _ & Hok).
  destruct (Hok eq_refl) as (-> & _ & popup1 & Hpopup1 & Hstage1 & _).
  destruct (Hkept s1 (inr tt) popup1 Hrun Hpopup1 Hstage1)
    as (_ & _ & _ & s2 & Hcancel & _ & Hcalls & Hstore & _).
  exists s1, s2. repeat split; assumption.
Defined.

(* ===================================================================== *)
(** * The bookmark toggle: [handleToggleBookmark] *)
(* ===================================================================== *)

Section ToggleFacts.
Variable compare : string -> string -> Z.
Variable spinePos : string -> Z.
Variable bookId : string.

#[local] Abbreviation toggle := (handleToggleBookmark compare spinePos bookId).
#[local] Abbreviation at_ := (bookmarksAt compare spinePos).

(** Without a position, absent or empty, the toggle does nothing. *)
Lemma toggle_no_position location rangeText uuid now (s : Bookmarks.State) :
  location = None \/ location = Some EmptyString ->
  toggle location rangeText uuid now s = (s, inr tt).
Proof. intros [-> | ->]; reflexivity. Qed.

(** A bookmark at the anchor: it is deleted, from the store and from
    the list. *)
Lemma toggle_existing p rangeText uuid now (s : Bookmarks.State) existing :
  JS.truthy p = true ->
  isLocationBookmarked compare spinePos (Some p) (Bookmarks.bookmarks s) = Some existing ->
  toggle (Some p) rangeText uuid now s =
  (Bookmarks.mkState
     (Db.mk (delete (Bookmark.id existing) (Db.bookmarks (Bookmarks.db s)))
            (Db.highlights (Bookmarks.db s))
            (Db.calls (Bookmarks.db s) ++ [Db.DeleteBookmark (Bookmark.id existing)]))
     (List.filter (fun b => negb (String.eqb (Bookmark.id b) (Bookmark.id existing)))
                  (Bookmarks.bookmarks s)),
   inr tt).
Proof.
  intros Hp Hex. destruct s as [[bookmarks highlights calls] list].
  unfold handleToggleBookmark. rewrite Hp. cbn [negb]. run_eff.
  cbn [Bookmarks.bookmarks] in *. rewrite Hex.
  unfold Bookmarks.onDb, Db.deleteBookmark, Db.called, Bookmarks.setBookmarks.
  run_eff. reflexivity.
Qed.

(** No bookmark at the anchor: one is created at the position, in the
    store and at the end of the list. *)
Lemma toggle_create p rangeText uuid now (s : Bookmarks.State) :
  JS.truthy p = true ->
  isLocationBookmarked compare spinePos (Some p) (Bookmarks.bookmarks s) = None ->
  Db.bookmarks (Bookmarks.db s) !! uuid = None ->
  let bookmark := Bookmark.mk uuid bookId p (Bookmarks.extractExcerpt rangeText) now in
  toggle (Some p) rangeText uuid now s =
  (Bookmarks.mkState
     (Db.mk (<[uuid := bookmark]> (Db.bookmarks (Bookmarks.db s)))
            (Db.highlights (Bookmarks.db s))
            (Db.calls (Bookmarks.db s) ++ [Db.CreateBookmark bookmark]))
     (Bookmarks.bookmarks s ++ [bookmark]),
   inr tt).
Proof.
  intros Hp Hex Hfresh. destruct s as [[bookmarks highlights calls] list].
  unfold handleToggleBookmark. rewrite Hp. cbn [negb]. run_eff.
  cbn [Bookmarks.bookmarks Bookmarks.db Db.bookmarks] in *. rewrite Hex.
  unfold Bookmarks.onDb, Db.createBookmark, Db.called, Bookmarks.setBookmarks.
  run_eff. cbn [Bookmarks.db Db.bookmarks]. rewrite Hfresh. reflexivity.
Qed.

(** The store refuses the id: the call is made, nothing is stored and
    the list stays. *)
Lemma toggle_create_refused p rangeText uuid now (s : Bookmarks.State) taken :
  JS.truthy p = true ->
  isLocationBookmarked compare spinePos (Some p) (Bookmarks.bookmarks s) = None ->
  Db.bookmarks (Bookmarks.db s) !! uuid = Some taken ->
  let bookmark := Bookmark.mk uuid bookId p (Bookmarks.extractExcerpt rangeText) now in
  toggle (Some p) rangeText uuid now s =
  (Bookmarks.mkState
     (Db.mk (Db.bookmarks (Bookmarks.db s)) (Db.highlights (Bookmarks.db s))
            (Db.calls (Bookmarks.db s) ++ [Db.CreateBookmark bookmark]))
     (Bookmarks.bookmarks s),
   inl (ConstraintError uuid)).
Proof.
  intros Hp Hex Htaken. destruct s as [[bookmarks highlights calls] list].
  unfold handleToggleBookmark. rewrite Hp. cbn [negb]. run_eff.
  cbn [Bookmarks.bookmarks Bookmarks.db Db.bookmarks] in *. rewrite Hex.
  unfold Bookmarks.onDb, Db.createBookmark, Db.called, Bookmarks.setBookmarks.
  run_eff. cbn [Bookmarks.db Db.bookmarks]. rewrite Htaken. reflexivity.
Qed.

(** The four ways a toggle can go. *)
Lemma toggle_cases location rangeText uuid now (s : Bookmarks.State) :
  let s' := fst (toggle location rangeText uuid now s) in
  (Bookmarks.bookmarks s' = Bookmarks.bookmarks s /\
   Db.bookmarks (Bookmarks.db s') = Db.bookmarks (Bookmarks.db s)) \/
  (exists p existing,
     location = Some p /\ JS.truthy p = true /\
     In existing (Bookmarks.bookmarks s) /\
     Bookmarks.bookmarks s' =
       List.filter (fun b => negb (String.eqb (Bookmark.id b) (Bookmark.id existing)))
                   (Bookmarks.bookmarks s) /\
     Db.bookmarks (Bookmarks.db s') =
       delete (Bookmark.id existing) (Db.bookmarks (Bookmarks.db s))) \/
  (exists p,
     location = Some p /\ JS.truthy p = true /\
     at_ p (Bookmarks.bookmarks s) = [] /\
     Db.bookmarks (Bookmarks.db s) !! uuid = None /\
     let bookmark := Bookmark.mk uuid bookId p (Bookmarks.extractExcerpt rangeText) now in
     Bookmarks.bookmarks s' = Bookmarks.bookmarks s ++ [bookmark] /\
     Db.bookmarks (Bookmarks.db s') = <[uuid := bookmark]> (Db.bookmarks (Bookmarks.db s))).
Proof.
  destruct location as [p |]; [| left; split; reflexivity].
  destruct (JS.truthy p) eqn:Hp.
  2:{ left. unfold handleToggleBookmark. rewrite Hp. split; reflexivity. }
  destruct (isLocationBookmarked compare spinePos (Some p) (Bookmarks.bookmarks s))
    as [existing |] eqn:Hex.
  - right. left. exists p, existing.
    rewrite (toggle_existing p rangeText uuid now s existing Hp Hex).
    apply isLocationBookmarked_Some in Hex. cbn. tauto.
  - destruct (Db.bookmarks (Bookmarks.db s) !! uuid) as [taken |] eqn:Hid.
    + left. rewrite (toggle_create_refused p rangeText uuid now s taken Hp Hex Hid).
      split; reflexivity.
    + right. right. exists p.
      rewrite (toggle_create p rangeText uuid now s Hp Hex Hid).
      apply isLocationBookmarked_None in Hex; [| exact Hp]. cbn. tauto.
Qed.

Lemma find_app_none {A} (f : A -> bool) (l k : list A) :
  List.find f l = None -> List.find f (l ++ k) = List.find f k.
Proof.
  induction l as [| x l IH]; [reflexivity |]. cbn [List.find app].
  destruct (f x); [discriminate | exact IH].
Qed.

Lemma bookmarksAt_app p l1 l2 : at_ p (l1 ++ l2) = at_ p l1 ++ at_ p l2.
Proof. apply List.filter_app. Qed.

Lemma bookmarksAt_filter_length p (f : Bookmark.t -> bool) l :
  (length (at_ p (List.filter f l)) <= length (at_ p l))%nat.
Proof.
  unfold bookmarksAt. induction l as [| b l IH]; [reflexivity |].
  cbn [List.filter]. destruct (f b); cbn [List.filter];
    destruct (sameAnchor compare spinePos p (Bookmark.cfi b)); cbn [length]; lia.
Qed.

Context `{!Consistent compare}.

(** Anchors that are the same have the same bookmarks. *)
Lemma bookmarksAt_same p q l :
  sameAnchor compare spinePos p q = true -> at_ p l = at_ q l.
Proof.
  intros Hpq. unfold bookmarksAt. apply filter_ext. intros b.
  destruct (sameAnchor compare spinePos q (Bookmark.cfi b)) eqn:Hq.
  - now apply (sameAnchor_trans compare spinePos p q).
  - destruct (sameAnchor compare spinePos p (Bookmark.cfi b)) eqn:Hp; [| reflexivity].
    rewrite (sameAnchor_sym compare spinePos) in Hpq.
    now rewrite (sameAnchor_trans compare spinePos q p _ Hpq Hp) in Hq.
Qed.

(** Every toggle keeps at most one bookmark per anchor. *)
Lemma toggle_onePerAnchor location rangeText uuid now (s : Bookmarks.State) :
  onePerAnchor compare spinePos (Bookmarks.bookmarks s) ->
  onePerAnchor compare spinePos
    (Bookmarks.bookmarks (fst (toggle location rangeText uuid now s))).
Proof.
  intros Hone.
  destruct (toggle_cases location rangeText uuid now s)
    as [[-> _] | [(p & existing & _ & _ & _ & -> & _) | (p & _ & _ & Hnone & _ & Hlist)]].
  - exact Hone.
  - intros q. pose proof (Hone q). pose proof (bookmarksAt_filter_length q
      (fun b => negb (String.eqb (Bookmark.id b) (Bookmark.id existing)))
      (Bookmarks.bookmarks s)). lia.
  - cbv zeta in Hlist. destruct Hlist as [-> _]. intros q.
    rewrite bookmarksAt_app. rewrite length_app.
    unfold bookmarksAt at 2. cbn [List.filter Bookmark.cfi].
    destruct (sameAnchor compare spinePos q p) eqn:Hqp; cbn [length].
    + rewrite (bookmarksAt_same q p _ Hqp), Hnone. cbn. lia.
    + pose proof (Hone q). lia.
Qed.

(** Every toggle keeps the list of the hook the mirror of the store. *)
Lemma toggle_mirrorsStore location rangeText uuid now (s : Bookmarks.State) :
  mirrorsStore bookId s ->
  mirrorsStore bookId (fst (toggle location rangeText uuid now s)).
Proof.
  intros [Hnd Hmirror]. unfold mirrorsStore.
  destruct (toggle_cases location rangeText uuid now s)
    as [[-> ->] | [(p & existing & _ & _ & _ & -> & ->)
                  | (p & _ & _ & _ & Hfresh & Hlist)]].
  - split; assumption.
  - split.
    + clear Hmirror. induction (Bookmarks.bookmarks s) as [| b l IH]; [constructor |].
      cbn [map] in Hnd. inversion Hnd as [| ? ? Hnotin Hnd']; subst.
      cbn [List.filter]. destruct (negb _); [| now apply IH].
      cbn [map]. constructor; [| now apply IH].
      intros Hin. apply Hnotin. apply list_elem_of_In in Hin.
      apply list_elem_of_In. apply in_map_iff in Hin.
      destruct Hin as (b' & Hid & Hb'). apply filter_In in Hb'.
      apply in_map_iff. exists b'. tauto.
    + intros b. rewrite filter_In, Hmirror, negb_true_iff, String.eqb_neq.
      split.
      * intros [[Hstore Hbook] Hne]. now rewrite lookup_delete_ne.
      * intros [Hstore Hbook].
        destruct (String.eqb_spec (Bookmark.id b) (Bookmark.id existing)) as [E | Hne].
        -- rewrite E, lookup_delete_eq in Hstore. discriminate.
        -- rewrite lookup_delete_ne in Hstore by congruence. tauto.
  - cbv zeta in Hlist. destruct Hlist as [-> ->].
    set (bookmark := Bookmark.mk uuid bookId p (Bookmarks.extractExcerpt rangeText) now).
    assert (Hids : forall b, In b (Bookmarks.bookmarks s) -> Bookmark.id b <> uuid).
    { intros b Hb E. apply Hmirror in Hb. destruct Hb as [Hb _].
      rewrite E, Hfresh in Hb. discriminate. }
    split.
    + rewrite map_app. cbn [map]. apply NoDup_app. split; [exact Hnd |].
      split; [| apply NoDup_singleton].
      intros x Hx Hx'. rewrite list_elem_of_In in Hx. rewrite list_elem_of_In in Hx'.
      cbn [In] in Hx'. destruct Hx' as [<- | []].
      apply in_map_iff in Hx. destruct Hx as (b & Hid & Hb).
      now apply (Hids b).
    + intros b. rewrite in_app_iff. split.
      * intros [Hb | [<- | []]].
        -- rewrite lookup_insert_ne by (intros E; now apply (Hids b)).
           now apply Hmirror.
        -- cbn. now rewrite lookup_insert_eq.
      * intros [Hstore Hbook].
        destruct (String.eqb_spec uuid (Bookmark.id b)) as [E | Hne].
        -- rewrite <- E, lookup_insert_eq in Hstore. right. left. congruence.
        -- rewrite lookup_insert_ne in Hstore by exact Hne. left. now apply Hmirror.
Qed.

(** Two toggles at a position with no bookmark: created, then deleted. *)
Lemma toggle_twice p rangeText uuid now rangeText' uuid' now' (s : Bookmarks.State) :
  JS.truthy p = true ->
  at_ p (Bookmarks.bookmarks s) = [] ->
  Db.bookmarks (Bookmarks.db s) !! uuid = None ->
  exists s1 s2,
    toggle (Some p) rangeText uuid now s = (s1, inr tt) /\
    length (at_ p (Bookmarks.bookmarks s1)) = 1%nat /\
    toggle (Some p) rangeText' uuid' now' s1 = (s2, inr tt) /\
    at_ p (Bookmarks.bookmarks s2) = [] /\
    Db.bookmarks (Bookmarks.db s2) = Db.bookmarks (Bookmarks.db s).
Proof.
  intros Hp Hnone Hfresh.
  set (bookmark := Bookmark.mk uuid bookId p (Bookmarks.extractExcerpt rangeText) now).
  assert (Hex : isLocationBookmarked compare spinePos (Some p) (Bookmarks.bookmarks s) = None)
    by now apply isLocationBookmarked_None.
  set (s1 := Bookmarks.mkState
               (Db.mk (<[uuid := bookmark]> (Db.bookmarks (Bookmarks.db s)))
                      (Db.highlights (Bookmarks.db s))
                      (Db.calls (Bookmarks.db s) ++ [Db.CreateBookmark bookmark]))
               (Bookmarks.bookmarks s ++ [bookmark])).
  assert (Hat : at_ p (Bookmarks.bookmarks s1) = [bookmark]).
  { cbn [s1 Bookmarks.bookmarks]. rewrite bookmarksAt_app, Hnone. unfold bookmarksAt.
    cbn [List.filter Bookmark.cfi bookmark app]. now rewrite sameAnchor_refl. }
  assert (Hex1 : isLocationBookmarked compare spinePos (Some p) (Bookmarks.bookmarks s1)
                 = Some bookmark).
  { rewrite isLocationBookmarked_find in * by exact Hp.
    cbn [s1 Bookmarks.bookmarks].
    rewrite (find_app_none _ _ _ Hex). cbn [List.find Bookmark.cfi bookmark].
    now rewrite sameAnchor_refl. }
  exists s1. eexists.
  split; [apply (toggle_create p rangeText uuid now s Hp Hex Hfresh) |].
  split; [now rewrite Hat |].
  split; [apply (toggle_existing p rangeText' uuid' now' s1 bookmark Hp Hex1) |].
  cbn [s1 Bookmarks.bookmarks Bookmarks.db Db.bookmarks Bookmark.id bookmark]. split.
  - assert (Hle := bookmarksAt_filter_length p
      (fun b => negb (String.eqb (Bookmark.id b) uuid)) (Bookmarks.bookmarks s)).
    rewrite List.filter_app, bookmarksAt_app. cbn [List.filter Bookmark.id].
    rewrite String.eqb_refl. cbn [negb]. unfold bookmarksAt at 2. cbn [List.filter].
    rewrite app_nil_r.
    rewrite Hnone in Hle.
    destruct (at_ p (List.filter _ (Bookmarks.bookmarks s)));
      [reflexivity | cbn in Hle; lia].
  - rewrite delete_insert_eq. now apply delete_id.
Qed.
End ToggleFacts.

(** C3.  At every position [p] (a position is a CFI string, so it is
    not empty; [handleToggleBookmark] returns at once on a location that
    is [null] or empty, as the reader has none before the first page is
    displayed), the toggle deletes, from the store and from the list, the
    bookmark the lookup finds at the anchor of [p] when there is one,
    and otherwise creates one at [p] (the id drawn being new to the
    store).  Every toggle, at any location, keeps at most one bookmark
    per anchor and keeps the list the mirror of the store; and two
    toggles at a [p] with no bookmark leave no bookmark at [p].
    [compare] is taken consistent. *)
Theorem handleToggleBookmark_toggles
    (compare : string -> string -> Z) (spinePos : string -> Z) (bookId : string)
    (p : string) (rangeText : option string) (uuid : string) (now : Z)
    (s : Bookmarks.State) :
  Consistent compare ->
  JS.truthy p = true ->
  let toggle := handleToggleBookmark compare spinePos bookId in
  (* a bookmark at the anchor is deleted *)
  ((exists b, In b (Bookmarks.bookmarks s) /\
              sameAnchor compare spinePos p (Bookmark.cfi b) = true) ->
   exists existing,
     isLocationBookmarked compare spinePos (Some p) (Bookmarks.bookmarks s) = Some existing /\
     In existing (Bookmarks.bookmarks s) /\
     sameAnchor compare spinePos p (Bookmark.cfi existing) = true /\
     toggle (Some p) rangeText uuid now s =
     (Bookmarks.mkState
        (Db.mk (delete (Bookmark.id existing) (Db.bookmarks (Bookmarks.db s)))
               (Db.highlights (Bookmarks.db s))
               (Db.calls (Bookmarks.db s) ++ [Db.DeleteBookmark (Bookmark.id existing)]))
        (List.filter (fun b => negb (String.eqb (Bookmark.id b) (Bookmark.id existing)))
                     (Bookmarks.bookmarks s)),
      inr tt)) /\
  (* with none, one is created *)
  (bookmarksAt compare spinePos p (Bookmarks.bookmarks s) = [] ->
   Db.bookmarks (Bookmarks.db s) !! uuid = None ->
   let bookmark := Bookmark.mk uuid bookId p (Bookmarks.extractExcerpt rangeText) now in
   toggle (Some p) rangeText uuid now s =
   (Bookmarks.mkState
      (Db.mk (<[uuid := bookmark]> (Db.bookmarks (Bookmarks.db s)))
             (Db.highlights (Bookmarks.db s))
             (Db.calls (Bookmarks.db s) ++ [Db.CreateBookmark bookmark]))
      (Bookmarks.bookmarks s ++ [bookmark]),
    inr tt)) /\
  (* the invariants, for every toggle *)
  (forall location,
     onePerAnchor compare spinePos (Bookmarks.bookmarks s) ->
     onePerAnchor compare spinePos
       (Bookmarks.bookmarks (fst (toggle location rangeText uuid now s)))) /\
  (forall location,
     mirrorsStore bookId s ->
     mirrorsStore bookId (fst (toggle location rangeText uuid now s))) /\
  (* toggling twice *)
  (bookmarksAt compare spinePos p (Bookmarks.bookmarks s) = [] ->
   Db.bookmarks (Bookmarks.db s) !! uuid = None ->
   forall rangeText' uuid' now',
   exists s1 s2,
     toggle (Some p) rangeText uuid now s = (s1, inr tt) /\
     length (bookmarksAt compare spinePos p (Bookmarks.bookmarks s1)) = 1%nat /\
     toggle (Some p) rangeText' uuid' now' s1 = (s2, inr tt) /\
     bookmarksAt compare spinePos p (Bookmarks.bookmarks s2) = [] /\
     Db.bookmarks (Bookmarks.db s2) = Db.bookmarks (Bookmarks.db s)).
Proof.
  intros Hc Hp toggle. split; [| split; [| split; [| split]]].
  - intros (b & Hb & Hsame).
    destruct (isLocationBookmarked compare spinePos (Some p) (Bookmarks.bookmarks s))
      as [existing |] eqn:Hex.
    + exists existing. split; [reflexivity |].
      destruct (isLocationBookmarked_Some _ _ _ _ _ Hex) as [Hin Hsame'].
      split; [exact Hin |]. split; [exact Hsame' |].
      now apply toggle_existing.
    + exfalso. rewrite isLocationBookmarked_find in Hex by exact Hp.
      apply (find_none _ _ Hex) in Hb. cbv beta in Hb. congruence.
  - intros Hnone Hfresh. apply toggle_create; [exact Hp | | exact Hfresh].
    now apply isLocationBookmarked_None.
  - intros location. now apply toggle_onePerAnchor.
  - intros location. now apply toggle_mirrorsStore.
  - intros Hnone Hfresh rangeText' uuid' now'. now apply toggle_twice.
Qed.

(** C3 on the sample data: on a book with no bookmark, two
    toggles at the anchor of chapter 26 leave none. *)
Lemma handleToggleBookmark_toggles_witness :
  exists s1 s2,
    handleToggleBookmark RefCfi.compare RefCfi.spinePos Demo.bookId (Some Demo.a26)
      (Some "  The chief mate of the Pequod ") "bm-1" 10 Demo.noBookmarks = (s1, inr tt) /\
    length (bookmarksAt RefCfi.compare RefCfi.spinePos Demo.a26 (Bookmarks.bookmarks s1))
      = 1%nat /\
    handleToggleBookmark RefCfi.compare RefCfi.spinePos Demo.bookId (Some Demo.a26)
      None "bm-2" 20 s1 = (s2, inr tt) /\
    bookmarksAt RefCfi.compare RefCfi.spinePos Demo.a26 (Bookmarks.bookmarks s2) = [] /\
    Db.bookmarks (Bookmarks.db s2) = Db.bookmarks (Bookmarks.db Demo.noBookmarks).
Proof.
  apply (proj2 (proj2 (proj2 (proj2
           (handleToggleBookmark_toggles RefCfi.compare RefCfi.spinePos Demo.bookId
              Demo.a26 (Some "  The chief mate of the Pequod ") "bm-1" 10 Demo.noBookmarks
              RefCfi_Consistent eq_refl))))); reflexivity.
Defined.

(** The toggle on the sample data, run: the excerpt is trimmed, the
    second toggle removes what the first stored. *)
Example handleToggleBookmark_demo :
  let '(s1, _) :=
    handleToggleBookmark RefCfi.compare RefCfi.spinePos Demo.bookId (Some Demo.a26)
      (Some "  The chief mate of the Pequod ") "bm-1" 10 Demo.noBookmarks in
  Bookmarks.bookmarks s1 =
    [Bookmark.mk "bm-1" Demo.bookId Demo.a26 "The chief mate of the Pequod" 10] /\
  Bookmarks.bookmarks
    (fst (handleToggleBookmark RefCfi.compare RefCfi.spinePos Demo.bookId (Some Demo.a26)
            None "bm-2" 20 s1)) = [].
Proof. vm_compute. split; reflexivity. Qed.

(* ===================================================================== *)
(** * [escapeRegex] *)
(* ===================================================================== *)

Lemma isRegexSpecial_backslash : isRegexSpecial "\" = true.
Proof. reflexivity. Qed.

Lemma not_special_not_backslash c : isRegexSpecial c = false -> Ascii.eqb c "\" = false.
Proof.
  intros H. destruct (Ascii.eqb_spec c "\") as [-> | _]; [| reflexivity].
  rewrite isRegexSpecial_backslash in H. discriminate.
Qed.

Lemma literalOf_escapeRegex s : literalOf (escapeRegex s) = Some s.
Proof.
  induction s as [| c s IH]; [reflexivity |].
  cbn [escapeRegex]. destruct (isRegexSpecial c) eqn:Hc.
  - cbn [literalOf]. rewrite Ascii.eqb_refl, Hc, IH. reflexivity.
  - cbn [literalOf]. rewrite (not_special_not_backslash c Hc), Hc, IH. reflexivity.
Qed.

Lemma escapeRegex_length s :
  (String.length s <= String.length (escapeRegex s) <= 2 * String.length s)%nat.
Proof.
  induction s as [| c s IH]; cbn [escapeRegex String.length]; [lia |].
  destruct (isRegexSpecial c); cbn [String.length]; lia.
Qed.

(** The text a pattern spells is no longer than the pattern. *)
Lemma literalOf_length p t :
  literalOf p = Some t -> (String.length t <= String.length p)%nat.
Proof.
  assert (H : forall n p t, (String.length p <= n)%nat -> literalOf p = Some t ->
                            (String.length t <= String.length p)%nat).
  { clear. induction n as [| n IH]; intros p t Hn H.
    - destruct p; [| cbn in Hn; lia]. injection H as <-. cbn. lia.
    - destruct p as [| c p]; [injection H as <-; cbn; lia |].
      cbn [literalOf] in H. cbn [String.length] in Hn. destruct (Ascii.eqb c "\").
      + destruct p as [| d p]; [discriminate |]. cbn [String.length] in Hn.
        destruct (isRegexSpecial d); [| discriminate].
        destruct (literalOf p) as [u |] eqn:E; [| discriminate].
        injection H as <-. apply IH in E; cbn [String.length] in *; lia.
      + destruct (isRegexSpecial c); [discriminate |].
        destruct (literalOf p) as [u |] eqn:E; [| discriminate].
        injection H as <-. apply IH in E; cbn [String.length] in *; lia. }
  apply (H (String.length p)). lia.
Qed.

(** X1. The pattern [escapeRegex] builds spells its argument and nothing
    else: read as a regular expression it is made of plain characters
    and escaped special characters only, and the text they spell is the
    argument.  So two different terms never get the same pattern, a
    term with no special character is its own pattern, and a pattern is
    at most twice as long as its term. *)
Theorem escapeRegex_spells_argument :
  (forall s, literalOf (escapeRegex s) = Some s) /\
  (forall s t, escapeRegex s = escapeRegex t -> s = t) /\
  (forall s, literalOf s = Some s -> escapeRegex s = s) /\
  (forall s, (String.length s <= String.length (escapeRegex s) <= 2 * String.length s)%nat).
Proof.
  split; [exact literalOf_escapeRegex |]. split; [| split; [| exact escapeRegex_length]].
  - intros s t H. apply (f_equal literalOf) in H.
    rewrite !literalOf_escapeRegex in H. now injection H.
  - induction s as [| c s IH]; [reflexivity |].
    cbn [literalOf escapeRegex].
    destruct (Ascii.eqb_spec c "\") as [-> | Hne].
    + destruct s as [| d s']; [discriminate |].
      destruct (isRegexSpecial d); [| discriminate].
      destruct (literalOf s') as [t |] eqn:E; [| discriminate].
      cbn. intros H. injection H as H1 H2. exfalso.
      apply literalOf_length in E. subst t. cbn in E. lia.
    + destruct (isRegexSpecial c); [discriminate |].
      destruct (literalOf s) as [t |] eqn:E; [| discriminate].
      cbn. intros H. injection H as ->. now rewrite IH.
Qed.

(** X1 on a term: a term with no special character. *)
Lemma escapeRegex_spells_argument_witness :
  escapeRegex "chief mate" = "chief mate" /\
  (escapeRegex "a.b" = escapeRegex "a.b" -> "a.b" = "a.b").
Proof.
  split.
  - apply (proj1 (proj2 (proj2 escapeRegex_spells_argument))). reflexivity.
  - apply (proj1 (proj2 escapeRegex_spells_argument)).
Defined.

Example escapeRegex_demo :
  escapeRegex "what? (a+b)*[c]\d" = "what\? \(a\+b\)\*\[c\]\\d".
Proof. reflexivity. Qed.

(* ===================================================================== *)
(** * [searchBook]: what a result holds, blank queries, memory *)
(* ===================================================================== *)

Section SearchMore.
Variable compare : string -> string -> Z.

Lemma scanChapters_In matchCfi l best :
  In (scanChapters compare matchCfi l best) (best :: l).
Proof.
  revert best. induction l as [| c l IH]; intros best; cbn [scanChapters]; [now left |].
  destruct (compare (ChapterPosition.cfi_nn c) matchCfi <=? 0)%Z; [| now left].
  right. apply IH.
Qed.

(** The answer of [findChapterForMatch] is the fallback label, when no
    chapter matched, and otherwise the label of a matched chapter. *)
Lemma findChapterForMatch_label matchCfi chapters fallbackLabel :
  (chapters = [] /\ findChapterForMatch compare matchCfi chapters fallbackLabel = fallbackLabel)
  \/ exists c, In c chapters /\
               findChapterForMatch compare matchCfi chapters fallbackLabel =
               ChapterPosition.label c.
Proof.
  destruct chapters as [| first rest]; [left; split; reflexivity |].
  right. unfold findChapterForMatch.
  destruct ((length (first :: rest) =? 1)%nat
            || (length (List.filter hasCfi (first :: rest)) =? 0)%nat) eqn:E.
  - exists first. split; [now left | reflexivity].
  - apply orb_false_iff in E. destruct E as [_ E]. apply Nat.eqb_neq in E.
    pose proof (sort_length (byCfiAscending compare) (List.filter hasCfi (first :: rest)))
      as Hlen.
    destruct (JS.sort (byCfiAscending compare) (List.filter hasCfi (first :: rest)))
      as [| c0 sorted] eqn:Hs.
    + cbn [length] in Hlen. lia.
    + exists (scanChapters compare matchCfi (c0 :: sorted) c0). split; [| reflexivity].
      assert (Hin : In (scanChapters compare matchCfi (c0 :: sorted) c0) (c0 :: sorted)).
      { pose proof (scanChapters_In matchCfi (c0 :: sorted) c0) as [<- | H];
          [now left | exact H]. }
      remember (scanChapters compare matchCfi (c0 :: sorted) c0) as best.
      rewrite <- Hs in Hin. apply sort_In in Hin. apply filter_In in Hin. tauto.
Qed.

Lemma getChapterPositions_label item entries c :
  In c (getChapterPositions item entries) ->
  exists e, In e entries /\ ChapterPosition.label c = JS.trim (NavItem.label e).
Proof.
  unfold getChapterPositions. rewrite in_map_iff. intros (e & <- & He).
  exists e. split; [exact He | reflexivity].
Qed.

(** What the result made of a match of a section holds: the position
    and the excerpt of the match, and for a title the href of the section
    when no entry of the chapter tree matches it, and otherwise the
    trimmed label of an entry of the tree collected for the section. *)
Lemma sectionResult_holds toc item m :
  SearchResult.cfi (sectionResult compare toc item m) = EpubSearchMatch.cfi m /\
  SearchResult.excerpt (sectionResult compare toc item m) = EpubSearchMatch.excerpt m /\
  ((getMatchingTocEntries toc (SpineItem.href item) = [] /\
    SearchResult.chapterTitle (sectionResult compare toc item m) = SpineItem.href item) \/
   exists entry,
     In entry (getMatchingTocEntries toc (SpineItem.href item)) /\
     occursIn entry toc /\ fileOccursIn (SpineItem.href item) entry /\
     SearchResult.chapterTitle (sectionResult compare toc item m) =
       JS.trim (NavItem.label entry)).
Proof.
  unfold sectionResult. cbn [SearchResult.cfi SearchResult.excerpt SearchResult.chapterTitle].
  split; [reflexivity |]. split; [reflexivity |].
  destruct (findChapterForMatch_label (EpubSearchMatch.cfi m)
              (getChapterPositions item (getMatchingTocEntries toc (SpineItem.href item)))
              (SpineItem.href item)) as [[Hnil ->] | (c & Hc & ->)].
  - left. split; [| reflexivity]. unfold getChapterPositions in Hnil.
    now apply map_eq_nil in Hnil.
  - right. apply getChapterPositions_label in Hc. destruct Hc as (e & He & ->).
    exists e. split; [exact He |].
    rewrite getMatchingTocEntries_filter in He.
    apply filter_In in He. destruct He as [He Hhit].
    apply flattenToc_occurs in He. apply tocHrefMatches_spec in Hhit. auto.
Qed.
End SearchMore.

(** X2. What [searchBook] returns is, section by section in spine order,
    one result per match kept of the section, in match order: every
    match of a section that is processed, none of a section that does
    not load or cannot be matched, and otherwise the first matches.  The
    result made of a match of a section holds the position and the
    excerpt of that match; its chapter title is the href of that section
    when no entry of the chapter tree is collected for that section, and
    otherwise the trimmed label of an entry of the tree, at any depth,
    collected for that section: one whose file portion occurs in the
    href of the section. *)
Theorem searchBook_results_attributed (compare : string -> string -> Z)
    (cfiReturns : string -> list string -> bool)
    (book : Book.t) (query : string) (results : list SearchResult.t) (final : Search.State) :
  searchBook compare cfiReturns book query Search.initial = (final, inr results) ->
  let toc := default [] (Book.toc book) in
  let searched :=
    if JS.truthy (JS.trim query) && (2 <=? String.length query)%nat
    then Book.spine book else [] in
  results = flat_map (sectionYield compare cfiReturns toc query) searched /\
  forall item,
    exists kept rest,
      sectionYield compare cfiReturns toc query item =
        map (sectionResult compare toc item) kept /\
      (SpineItem.load_ok item = true ->
       default [] (SpineItem.find item query) = kept ++ rest) /\
      (sectionSucceeds cfiReturns toc query item = true ->
       SpineItem.find item query = Some kept) /\
      (SpineItem.load_ok item = false \/ SpineItem.find item query = None -> kept = []) /\
      forall m,
        let r := sectionResult compare toc item m in
        SearchResult.cfi r = EpubSearchMatch.cfi m /\
        SearchResult.excerpt r = EpubSearchMatch.excerpt m /\
        ((getMatchingTocEntries toc (SpineItem.href item) = [] /\
          SearchResult.chapterTitle r = SpineItem.href item) \/
         exists entry,
           In entry (getMatchingTocEntries toc (SpineItem.href item)) /\
           occursIn entry toc /\ fileOccursIn (SpineItem.href item) entry /\
           SearchResult.chapterTitle r = JS.trim (NavItem.label entry)).
Proof.
  intros Hrun toc searched. split.
  - subst searched.
    destruct (JS.truthy (JS.trim query)) eqn:Htrim;
      [destruct (Nat.leb_spec 2 (String.length query)) as [Hlen | Hlen] |].
    + rewrite (searchBook_yields compare cfiReturns book query Htrim Hlen) in Hrun.
      now injection Hrun as _ <-.
    + unfold searchBook in Hrun. rewrite Htrim in Hrun.
      destruct (Nat.ltb_spec (String.length query) 2) as [_ | H]; [| lia].
      cbn in Hrun. now injection Hrun as _ <-.
    + unfold searchBook in Hrun. rewrite Htrim in Hrun. cbn in Hrun.
      now injection Hrun as _ <-.
  - intros item.
    destruct (attributedPrefix_spec (attributes cfiReturns toc item)
                (default [] (SpineItem.find item query))) as (rest & Hsplit & _ & _).
    destruct (SpineItem.load_ok item) eqn:Hload.
    + exists (attributedPrefix (attributes cfiReturns toc item)
                (default [] (SpineItem.find item query))), rest.
      split; [unfold sectionYield; now rewrite Hload |].
      split; [intros _; exact Hsplit |]. split; [| split].
      * intros Hok. unfold sectionSucceeds in Hok. rewrite Hload in Hok. cbn [andb] in Hok.
        destruct (SpineItem.find item query) as [matches |]; [| discriminate].
        cbn [default]. now rewrite attributedPrefix_all.
      * intros [H | H]; [discriminate |]. now rewrite H.
      * intros m. apply sectionResult_holds.
    + exists [], []. split; [unfold sectionYield; now rewrite Hload |].
      split; [discriminate |]. split; [| split].
      * intros Hok. unfold sectionSucceeds in Hok. rewrite Hload in Hok. discriminate.
      * reflexivity.
      * intros m. apply sectionResult_holds.
Qed.

(** X2 on the sample book: the one result is that of the match of the
    shared file. *)
Lemma searchBook_results_attributed_witness :
  [SearchResult.mk Demo.inChapter26 "the chief mate" "26"] =
  flat_map (sectionYield RefCfi.compare RefCfi.cfiReturns Demo.toc "mate")
           [Demo.unreadable; Demo.shared; Demo.broken].
Proof.
  exact (proj1 (searchBook_results_attributed RefCfi.compare RefCfi.cfiReturns
                  Demo.book "mate" _ _ (proj1 searchBook_demo))).
Defined.

Lemma trimStart_allSpace s : allSpace s = true -> JS.trimStart s = EmptyString.
Proof.
  induction s as [| c s IH]; [reflexivity |]. cbn [allSpace JS.trimStart].
  intros H. apply andb_true_iff in H. destruct H as [-> H]. now apply IH.
Qed.

Lemma trimEnd_empty s : JS.trimEnd s = EmptyString -> allSpace s = true.
Proof.
  induction s as [| c s IH]; [reflexivity |]. cbn [allSpace JS.trimEnd].
  destruct (JS.is_space c); [| discriminate]. cbn [andb].
  destruct (String.eqb_spec (JS.trimEnd s) "") as [E | _]; [| discriminate].
  intros _. now apply IH.
Qed.

Lemma trimStart_empty s : JS.trimStart s = EmptyString -> allSpace s = true.
Proof.
  induction s as [| c s IH]; [reflexivity |]. cbn [allSpace JS.trimStart].
  destruct (JS.is_space c); [exact IH | discriminate].
Qed.

Lemma trimStart_suffix s : exists pre, s = pre +:+ JS.trimStart s /\ allSpace pre = true.
Proof.
  induction s as [| c s (pre & IH & Hpre)].
  - now exists EmptyString.
  - cbn [JS.trimStart]. destruct (JS.is_space c) eqn:Hc.
    + exists (String c pre). split; [| cbn [allSpace]; now rewrite Hc, Hpre].
      change (String c s = String c (pre +:+ JS.trimStart s)). now f_equal.
    + now exists EmptyString.
Qed.

Lemma allSpace_app a b : allSpace (a +:+ b) = allSpace a && allSpace b.
Proof.
  induction a as [| c a IH]; [reflexivity |].
  change (allSpace (String c (a +:+ b)) = allSpace (String c a) && allSpace b).
  cbn [allSpace]. now rewrite IH, andb_assoc.
Qed.

(** A string trims to nothing exactly when it is white space only. *)
Lemma trim_empty_iff s : JS.trim s = EmptyString <-> allSpace s = true.
Proof.
  unfold JS.trim. split.
  - intros H. apply trimEnd_empty in H.
    destruct (trimStart_suffix s) as (pre & E & Hpre).
    rewrite E, allSpace_app, Hpre, H. reflexivity.
  - intros H. now rewrite (trimStart_allSpace s H).
Qed.

(** X3. A query of white space only, whatever its length, is not
    searched: [searchBook] returns the empty list, without an exception
    and without a call to the sections. *)
Theorem searchBook_blank_query (compare : string -> string -> Z)
    (cfiReturns : string -> list string -> bool)
    (book : Book.t) (query : string) (s : Search.State) :
  allSpace query = true ->
  searchBook compare cfiReturns book query s = (s, inr []).
Proof.
  intros H. apply trim_empty_iff in H. unfold searchBook, JS.truthy. rewrite H.
  reflexivity.
Qed.

(** X3 on a query of three spaces. *)
Lemma searchBook_blank_query_witness :
  searchBook RefCfi.compare RefCfi.cfiReturns Demo.book "   " Search.initial = (Search.initial, inr []).
Proof. apply searchBook_blank_query. reflexivity. Defined.

Section LoadedFacts.
Variable cfiReturns : string -> list string -> bool.
Variable toc : list NavItem.t.

Lemma removeFirst_head h l : removeFirst h (h :: l) = l.
Proof. clear cfiReturns toc. cbn. now rewrite String.eqb_refl. Qed.

Lemma loadedAfter_app loaded a b :
  loadedAfter loaded (a ++ b) = loadedAfter (loadedAfter loaded a) b.
Proof.
  clear cfiReturns toc.
  revert loaded. induction a as [| e a IH]; intros loaded; [reflexivity |].
  destruct e; cbn [app loadedAfter]; apply IH.
Qed.

(** One turn of the loop leaves loaded what was loaded ... *)
Lemma loadedAfter_sectionTrace loaded query item :
  loadedAfter loaded (sectionTrace cfiReturns toc query item) = loaded.
Proof.
  unfold sectionTrace.
  destruct (SpineItem.load_ok item), (sectionSucceeds cfiReturns toc query item);
    cbn [app loadedAfter]; apply removeFirst_head.
Qed.

(** ... and holds at most its own section in between. *)
Lemma loadedAfter_sectionTrace_prefix query item pre post :
  sectionTrace cfiReturns toc query item = pre ++ post ->
  (length (loadedAfter [] pre) <= 1)%nat.
Proof.
  intros H.
  assert (Hpre : pre = firstn (length pre) (sectionTrace cfiReturns toc query item)).
  { rewrite H, firstn_app, Nat.sub_diag, firstn_all. cbn [firstn].
    now rewrite app_nil_r. }
  rewrite Hpre. generalize (length pre) as n. intros n. unfold sectionTrace.
  destruct (SpineItem.load_ok item), (sectionSucceeds cfiReturns toc query item); cbn [app];
    do 5 (try (destruct n as [| n]; cbn [firstn loadedAfter length];
               rewrite ?removeFirst_head; cbn [length]; try lia)).
Qed.

Lemma loadedAfter_sections_prefix query spine pre post :
  flat_map (sectionTrace cfiReturns toc query) spine = pre ++ post ->
  (length (loadedAfter [] pre) <= 1)%nat.
Proof.
  revert pre. induction spine as [| item rest IH]; intros pre H.
  - cbn in H. symmetry in H. apply app_eq_nil in H. destruct H as [-> _]. cbn. lia.
  - cbn [flat_map] in H. apply app_eq_app in H.
    destruct H as (k & [[H1 H2] | [H1 H2]]).
    + apply (loadedAfter_sectionTrace_prefix query item pre k). exact H1.
    + subst pre. rewrite loadedAfter_app, loadedAfter_sectionTrace.
      apply (IH k). exact H2.
Qed.

Lemma loadedAfter_sections query spine :
  loadedAfter [] (flat_map (sectionTrace cfiReturns toc query) spine) = [].
Proof.
  induction spine as [| item rest IH]; [reflexivity |].
  cbn [flat_map]. now rewrite loadedAfter_app, loadedAfter_sectionTrace.
Qed.
End LoadedFacts.

(** X4. Whatever the book and the query, and whichever sections fail,
    [searchBook] never holds more than one section loaded at a time, and
    holds none when it returns: every section it loaded is unloaded
    before the next is loaded. *)
Theorem searchBook_one_section_at_a_time (compare : string -> string -> Z)
    (cfiReturns : string -> list string -> bool)
    (book : Book.t) (query : string) :
  let final := fst (searchBook compare cfiReturns book query Search.initial) in
  loadedAfter [] (Search.trace final) = [] /\
  forall calls rest,
    Search.trace final = calls ++ rest ->
    (length (loadedAfter [] calls) <= 1)%nat.
Proof.
  destruct (JS.truthy (JS.trim query)) eqn:Htrim;
    [destruct (Nat.leb_spec 2 (String.length query)) as [Hlen | Hlen] |].
  - rewrite (searchBook_yields compare cfiReturns book query Htrim Hlen).
    cbn [fst Search.trace].
    split; [apply loadedAfter_sections |].
    intros calls rest H.
    exact (loadedAfter_sections_prefix cfiReturns (default [] (Book.toc book)) query
             (Book.spine book) calls rest H).
  - unfold searchBook. rewrite Htrim.
    destruct (Nat.ltb_spec (String.length query) 2) as [_ | H]; [| lia].
    cbn. split; [reflexivity |]. intros calls rest H.
    symmetry in H. apply app_eq_nil in H. destruct H as [-> _]. cbn. lia.
  - unfold searchBook. rewrite Htrim. cbn. split; [reflexivity |].
    intros calls rest H. symmetry in H. apply app_eq_nil in H.
    destruct H as [-> _]. cbn. lia.
Qed.

(** X4 on the sample book: after the first four calls of the search one
    section is loaded. *)
Lemma searchBook_one_section_at_a_time_witness :
  (length (loadedAfter []
     [ Search.Load "OEBPS/chapter01.xhtml";
       Search.Warn "Failed to search spine item: OEBPS/chapter01.xhtml";
       Search.Unload "OEBPS/chapter01.xhtml";
       Search.Load Demo.sharedFile ]) <= 1)%nat.
Proof.
  apply (proj2 (searchBook_one_section_at_a_time RefCfi.compare RefCfi.cfiReturns
                  Demo.book "mate")) with
    (rest := [ Search.Find Demo.sharedFile "mate"; Search.Unload Demo.sharedFile;
               Search.Load "OEBPS/chapter99.xhtml";
               Search.Find "OEBPS/chapter99.xhtml" "mate";
               Search.Warn "Failed to search spine item: OEBPS/chapter99.xhtml";
               Search.Unload "OEBPS/chapter99.xhtml" ]).
  vm_compute. reflexivity.
Defined.

(* ===================================================================== *)
(** * The hook [useBookmarks]: deleting from the list, the indicator *)
(* ===================================================================== *)

Lemma handleDeleteBookmark_run id (s : Bookmarks.State) :
  handleDeleteBookmark id s =
  (Bookmarks.mkState
     (Db.mk (delete id (Db.bookmarks (Bookmarks.db s)))
            (Db.highlights (Bookmarks.db s))
            (Db.calls (Bookmarks.db s) ++ [Db.DeleteBookmark id]))
     (List.filter (fun b => negb (String.eqb (Bookmark.id b) id)) (Bookmarks.bookmarks s)),
   inr tt).
Proof. destruct s as [[bookmarks highlights calls] l]. reflexivity. Qed.

(** Dropping the bookmarks of one id from the list and the record of
    that id from the store keeps the list the mirror of the store. *)
Lemma mirrorsStore_delete bookId id db l :
  mirrorsStore bookId (Bookmarks.mkState db l) ->
  mirrorsStore bookId
    (Bookmarks.mkState
       (Db.mk (delete id (Db.bookmarks db)) (Db.highlights db)
              (Db.calls db ++ [Db.DeleteBookmark id]))
       (List.filter (fun b => negb (String.eqb (Bookmark.id b) id)) l)).
Proof.
  unfold mirrorsStore. cbn [Bookmarks.bookmarks Bookmarks.db Db.bookmarks].
  intros [Hnd Hmirror]. split.
  - clear Hmirror. induction l as [| b l IH]; [constructor |].
    cbn [map] in Hnd. inversion Hnd as [| ? ? Hnotin Hnd']; subst.
    cbn [List.filter]. destruct (negb _); [| now apply IH].
    cbn [map]. constructor; [| now apply IH].
    intros Hin. apply Hnotin. apply list_elem_of_In in Hin.
    apply list_elem_of_In. apply in_map_iff in Hin.
    destruct Hin as (b' & Hid & Hb'). apply filter_In in Hb'.
    apply in_map_iff. exists b'. tauto.
  - intros b. rewrite filter_In, Hmirror, negb_true_iff, String.eqb_neq.
    split.
    + intros [[Hstore Hbook] Hne]. now rewrite lookup_delete_ne.
    + intros [Hstore Hbook].
      destruct (String.eqb_spec (Bookmark.id b) id) as [E | Hne].
      * rewrite E, lookup_delete_eq in Hstore. discriminate.
      * rewrite lookup_delete_ne in Hstore by congruence. tauto.
Qed.

Section BookmarkMore.
Variable compare : string -> string -> Z.
Variable spinePos : string -> Z.

(** With at most one bookmark per anchor, the bookmark the lookup finds
    at an anchor is the only one there. *)
Lemma onePerAnchor_only p l existing b :
  onePerAnchor compare spinePos l ->
  In existing l -> sameAnchor compare spinePos p (Bookmark.cfi existing) = true ->
  In b l -> sameAnchor compare spinePos p (Bookmark.cfi b) = true ->
  b = existing.
Proof.
  intros Hone He Hpe Hb Hpb. specialize (Hone p). unfold bookmarksAt in Hone.
  assert (He' : In existing
            (List.filter (fun b => sameAnchor compare spinePos p (Bookmark.cfi b)) l))
    by (apply filter_In; tauto).
  assert (Hb' : In b
            (List.filter (fun b => sameAnchor compare spinePos p (Bookmark.cfi b)) l))
    by (apply filter_In; tauto).
  destruct (List.filter _ l) as [| x [| y k]]; cbn [length] in Hone; [destruct He' | | lia].
  destruct He' as [<- | []]. destruct Hb' as [<- | []]. reflexivity.
Qed.
End BookmarkMore.

(** X5. [handleDeleteBookmark] never throws; it makes one call to the
    store, after which the store holds no bookmark under the id and the
    list no bookmark of the id, every other record and every other
    bookmark of the list being left; the highlights are not touched.
    With at most one bookmark per anchor before there is at most one
    after, and a list that mirrors the store still does. *)
Theorem handleDeleteBookmark_removes
    (compare : string -> string -> Z) (spinePos : string -> Z) (bookId : string)
    (id : string) (s : Bookmarks.State) :
  let s' := fst (handleDeleteBookmark id s) in
  snd (handleDeleteBookmark id s) = inr tt /\
  Db.calls (Bookmarks.db s') = Db.calls (Bookmarks.db s) ++ [Db.DeleteBookmark id] /\
  Db.bookmarks (Bookmarks.db s') !! id = None /\
  (forall k, k <> id ->
     Db.bookmarks (Bookmarks.db s') !! k = Db.bookmarks (Bookmarks.db s) !! k) /\
  Db.highlights (Bookmarks.db s') = Db.highlights (Bookmarks.db s) /\
  (forall b, In b (Bookmarks.bookmarks s') <->
             In b (Bookmarks.bookmarks s) /\ Bookmark.id b <> id) /\
  (onePerAnchor compare spinePos (Bookmarks.bookmarks s) ->
   onePerAnchor compare spinePos (Bookmarks.bookmarks s')) /\
  (mirrorsStore bookId s -> mirrorsStore bookId s').
Proof.
  rewrite handleDeleteBookmark_run. cbn [fst snd Bookmarks.db Bookmarks.bookmarks
    Db.calls Db.bookmarks Db.highlights].
  split; [reflexivity |]. split; [reflexivity |].
  split; [apply lookup_delete_eq |].
  split; [intros k Hk; now apply lookup_delete_ne |].
  split; [reflexivity |].
  split; [intros b; now rewrite filter_In, negb_true_iff, String.eqb_neq |].
  split.
  - intros Hone p. specialize (Hone p).
    pose proof (bookmarksAt_filter_length compare spinePos p
      (fun b => negb (String.eqb (Bookmark.id b) id)) (Bookmarks.bookmarks s)). lia.
  - destruct s as [db l]. apply mirrorsStore_delete.
Qed.

(** X5 on a list of one bookmark, deleted from the list of bookmarks. *)
Lemma handleDeleteBookmark_removes_witness :
  let s := Bookmarks.mkState (Db.mk {[ "bm-2" := Demo.bm2 ]} ∅ []) [Demo.bm2] in
  onePerAnchor RefCfi.compare RefCfi.spinePos (Bookmarks.bookmarks s) /\
  onePerAnchor RefCfi.compare RefCfi.spinePos
    (Bookmarks.bookmarks (fst (handleDeleteBookmark "bm-2" s))).
Proof.
  intros s.
  assert (Hone : onePerAnchor RefCfi.compare RefCfi.spinePos (Bookmarks.bookmarks s)).
  { intros p. unfold bookmarksAt. cbn [s Bookmarks.bookmarks List.filter].
    destruct (sameAnchor _ _ _ _); cbn; lia. }
  split; [exact Hone |].
  exact (proj1 (proj2 (proj2 (proj2 (proj2 (proj2 (proj2
           (handleDeleteBookmark_removes RefCfi.compare RefCfi.spinePos Demo.bookId
              "bm-2" s))))))) Hone).
Defined.

(** X6. With at most one bookmark per anchor, a toggle at a present
    position flips the bookmark indicator of the page: the page is
    bookmarked after exactly when it was not before (the id drawn being
    new to the store, and [compare] consistent). *)
Theorem handleToggleBookmark_flips_indicator
    (compare : string -> string -> Z) (spinePos : string -> Z) (bookId : string)
    (p : string) (rangeText : option string) (uuid : string) (now : Z)
    (s : Bookmarks.State) :
  Consistent compare ->
  JS.truthy p = true ->
  onePerAnchor compare spinePos (Bookmarks.bookmarks s) ->
  Db.bookmarks (Bookmarks.db s) !! uuid = None ->
  isCurrentPageBookmarked compare spinePos (Some p)
    (fst (handleToggleBookmark compare spinePos bookId (Some p) rangeText uuid now s)) =
  negb (isCurrentPageBookmarked compare spinePos (Some p) s).
Proof.
  intros Hc Hp Hone Hfresh. unfold isCurrentPageBookmarked.
  destruct (isLocationBookmarked compare spinePos (Some p) (Bookmarks.bookmarks s))
    as [existing |] eqn:Hex.
  - rewrite (toggle_existing compare spinePos bookId p rangeText uuid now s existing Hp Hex).
    cbn [fst Bookmarks.bookmarks negb].
    destruct (isLocationBookmarked_Some _ _ _ _ _ Hex) as [Hin Hsame].
    destruct (isLocationBookmarked compare spinePos (Some p) (List.filter _ _))
      as [b |] eqn:Hex'; [| reflexivity].
    exfalso. destruct (isLocationBookmarked_Some _ _ _ _ _ Hex') as [Hb Hsameb].
    apply filter_In in Hb. destruct Hb as [Hb Hne].
    rewrite (onePerAnchor_only compare spinePos p _ existing b Hone Hin Hsame Hb Hsameb) in Hne.
    rewrite String.eqb_refl in Hne. discriminate.
  - rewrite (toggle_create compare spinePos bookId p rangeText uuid now s Hp Hex Hfresh).
    cbn [fst Bookmarks.bookmarks negb].
    rewrite isLocationBookmarked_find in * by exact Hp.
    rewrite (find_app_none _ _ _ Hex). cbn [List.find Bookmark.cfi].
    now rewrite sameAnchor_refl.
Qed.

(** X6 on the sample data: the page of chapter 26, not bookmarked, is
    after a toggle. *)
Lemma handleToggleBookmark_flips_indicator_witness :
  isCurrentPageBookmarked RefCfi.compare RefCfi.spinePos (Some Demo.a26)
    (fst (handleToggleBookmark RefCfi.compare RefCfi.spinePos Demo.bookId (Some Demo.a26)
            None "bm-1" 10 Demo.noBookmarks)) =
  negb (isCurrentPageBookmarked RefCfi.compare RefCfi.spinePos (Some Demo.a26)
          Demo.noBookmarks).
Proof.
  apply handleToggleBookmark_flips_indicator;
    [exact RefCfi_Consistent | reflexivity | | reflexivity].
  intros q. cbn. lia.
Defined.

(* ===================================================================== *)
(** * The hook [useNotes]: the other handlers *)
(* ===================================================================== *)

Section NotesRuns.
Lemma handleSelection_run cfiRange rangeText position (s : Notes.State) :
  handleSelection cfiRange rangeText position s =
  (match Notes.rendition s with
   | Some _ =>
       if JS.truthy (JS.trim rangeText) then
         Notes.mkState (Notes.db s) (Notes.highlights s)
           (Some (HighlightPopupState.mk position true color_picker None cfiRange
                    (String.substring 0 500 rangeText) DEFAULT_HIGHLIGHT_COLOR None))
           (Notes.rendition s) (Notes.selection s)
       else s
   | None => s
   end, inr tt).
Proof.
  destruct s as [db hl pop rendition selection].
  unfold handleSelection, Notes.setHighlightPopup. run_eff. cbn [Notes.rendition].
  destruct rendition; [| reflexivity].
  destruct (JS.truthy (JS.trim rangeText)); reflexivity.
Qed.

Lemma handleHighlightClick_run cfiRange clientX clientY (s : Notes.State) :
  handleHighlightClick cfiRange clientX clientY s =
  (match List.find (fun h => String.eqb (Highlight.cfiRange h) cfiRange)
                   (Notes.highlights s) with
   | Some highlight =>
       Notes.mkState (Notes.db s) (Notes.highlights s)
         (Some (HighlightPopupState.mk (clientX, clientY) false editing
                  (Some (Highlight.id highlight)) (Highlight.cfiRange highlight)
                  (Highlight.text highlight) (Highlight.color highlight)
                  (Highlight.note highlight)))
         (Notes.rendition s) (Notes.selection s)
   | None => s
   end, inr tt).
Proof.
  destruct s as [db hl pop rendition selection].
  unfold handleHighlightClick, Notes.setHighlightPopup. run_eff. cbn [Notes.highlights].
  destruct (List.find _ hl); reflexivity.
Qed.

Lemma handleHighlightColorChange_run color (s : Notes.State) :
  handleHighlightColorChange color s =
  (Notes.mkState (Notes.db s) (Notes.highlights s)
     ((fun p => HighlightPopupState.withColor p color) <$> Notes.highlightPopup s)
     (Notes.rendition s) (Notes.selection s), inr tt).
Proof.
  destruct s as [db hl [p |] rendition selection]; reflexivity.
Qed.

Lemma handleColorSelect_no_popup bookId color uuid now overlayOk (s : Notes.State) :
  Notes.highlightPopup s = None ->
  handleColorSelect bookId color uuid now overlayOk s = (s, inr tt).
Proof.
  destruct s as [db hl pop rendition selection]. cbn [Notes.highlightPopup]. intros ->.
  reflexivity.
Qed.

Lemma handleCancelHighlight_state (s : Notes.State) :
  handleCancelHighlight s =
  (Notes.mkState (Notes.db s) (Notes.highlights s) None (Notes.rendition s)
     (match Notes.highlightPopup s with
      | Some current =>
          if Stage_eqb (HighlightPopupState.stage current) color_picker
          then (fun _ => false) <$> Notes.selection s
          else Notes.selection s
      | None => Notes.selection s
      end), inr tt).
Proof.
  destruct s as [db hl pop rendition selection].
  unfold handleCancelHighlight, Notes.setHighlightPopup, Notes.removeAllRanges. run_eff.
  cbn [Notes.highlightPopup].
  destruct pop as [current |]; [destruct (Stage_eqb _ _) |]; reflexivity.
Qed.

(** A save that has nothing to act on: no popup, no rendition, or a
    popup with no id. *)
Lemma handleHighlightSave_idle note now overlayOk (s : Notes.State) :
  Notes.highlightPopup s = None \/ Notes.rendition s = None \/
  (exists popup, Notes.highlightPopup s = Some popup /\
     (HighlightPopupState.highlightId popup = None \/
      HighlightPopupState.highlightId popup = Some EmptyString)) ->
  handleHighlightSave note now overlayOk s = (s, inr tt).
Proof.
  destruct s as [db hl pop rendition selection].
  cbn [Notes.highlightPopup Notes.rendition].
  unfold handleHighlightSave. run_eff. cbn [Notes.highlightPopup Notes.rendition].
  intros [-> | [-> | (popup & -> & [H | H])]]; try reflexivity.
  - destruct pop; reflexivity.
  - destruct rendition; [| reflexivity]. now rewrite H.
  - destruct rendition; [| reflexivity]. now rewrite H.
Qed.

Lemma handleHighlightSave_unknown note now overlayOk (s : Notes.State)
    popup annotations id :
  Notes.highlightPopup s = Some popup ->
  Notes.rendition s = Some annotations ->
  HighlightPopupState.highlightId popup = Some id ->
  JS.truthy id = true ->
  Db.highlights (Notes.db s) !! id = None ->
  handleHighlightSave note now overlayOk s =
  (Notes.mkState
     (Db.mk (Db.bookmarks (Notes.db s)) (Db.highlights (Notes.db s))
            (Db.calls (Notes.db s) ++
             [Db.UpdateHighlight id (Some (HighlightPopupState.color popup)) (Some note)]))
     (Notes.highlights s) (Some popup) (Some annotations) (Notes.selection s),
   inl HighlightNotFound).
Proof.
  destruct s as [[bookmarks highlights calls] hl pop rendition selection].
  cbn [Notes.highlightPopup Notes.rendition Notes.db Notes.highlights Notes.selection
       Db.highlights Db.bookmarks Db.calls].
  intros -> -> Hid Htruthy Hnone.
  unfold handleHighlightSave. run_eff. cbn [Notes.highlightPopup Notes.rendition].
  rewrite Hid, Htruthy. cbn [negb].
  unfold Notes.onDb, Db.updateHighlight, Db.called. run_eff.
  cbn [Notes.db Db.highlights Db.bookmarks Db.calls].
  rewrite Hnone. reflexivity.
Qed.

Lemma handleHighlightSave_run note now overlayOk (s : Notes.State)
    popup annotations id h :
  Notes.highlightPopup s = Some popup ->
  Notes.rendition s = Some annotations ->
  HighlightPopupState.highlightId popup = Some id ->
  JS.truthy id = true ->
  Db.highlights (Notes.db s) !! id = Some h ->
  let cfiRange := HighlightPopupState.cfiRange popup in
  let color := HighlightPopupState.color popup in
  let updated :=
    Highlight.mk (Highlight.id h) (Highlight.bookId h) (Highlight.cfiRange h)
                 (Highlight.text h) color note (Highlight.createdAt h) now in
  handleHighlightSave note now overlayOk s =
  (Notes.mkState
     (Db.mk (Db.bookmarks (Notes.db s))
            (<[Highlight.id h := updated]> (Db.highlights (Notes.db s)))
            (Db.calls (Notes.db s) ++ [Db.UpdateHighlight id (Some color) (Some note)]))
     (map (fun x => if String.eqb (Highlight.id x) (Highlight.id h) then updated else x)
          (Notes.highlights s))
     None
     (Some (if overlayOk
            then <[cfiRange := Annotation.mk (noteClass note) (getColorValue color)]>
                   (delete cfiRange annotations)
            else delete cfiRange annotations))
     (Notes.selection s),
   inr tt).
Proof.
  destruct s as [[bookmarks highlights calls] hl pop rendition selection].
  cbn [Notes.highlightPopup Notes.rendition Notes.db Notes.highlights Notes.selection
       Db.highlights Db.bookmarks Db.calls].
  intros -> -> Hid Htruthy Hsome.
  unfold handleHighlightSave. run_eff. cbn [Notes.highlightPopup Notes.rendition].
  rewrite Hid, Htruthy. cbn [negb].
  unfold Notes.onDb, Db.updateHighlight, Db.called, Notes.setHighlights,
    Notes.annotationsRemove, Notes.annotationsAdd, Notes.setHighlightPopup. run_eff.
  cbn [Notes.db Db.highlights Db.bookmarks Db.calls].
  rewrite Hsome. cbn [default Highlight.id].
  destruct overlayOk; reflexivity.
Qed.

Lemma handleDeleteHighlight_run id cfiRangeFromPopup (s : Notes.State) :
  let given :=
    match cfiRangeFromPopup with
    | Some r => if JS.truthy r then Some r else None
    | None => None
    end in
  let cfiRange :=
    match given with
    | Some r => Some r
    | None =>
        Highlight.cfiRange <$>
          List.find (fun h => String.eqb (Highlight.id h) id) (Notes.highlights s)
    end in
  handleDeleteHighlight id cfiRangeFromPopup s =
  (Notes.mkState
     (Db.mk (Db.bookmarks (Notes.db s)) (delete id (Db.highlights (Notes.db s)))
            (Db.calls (Notes.db s) ++ [Db.DeleteHighlight id]))
     (List.filter (fun h => negb (String.eqb (Highlight.id h) id)) (Notes.highlights s))
     None
     (match cfiRange with
      | Some r => if JS.truthy r then (fun a => delete r a) <$> Notes.rendition s
                  else Notes.rendition s
      | None => Notes.rendition s
      end)
     (Notes.selection s),
   inr tt).
Proof.
  destruct s as [[bookmarks highlights calls] hl pop rendition selection].
  cbn [Notes.highlightPopup Notes.rendition Notes.db Notes.highlights Notes.selection
       Db.highlights Db.bookmarks Db.calls].
  unfold handleDeleteHighlight, Notes.onDb, Db.deleteHighlight, Db.called,
    Notes.setHighlights, Notes.annotationsRemove, Notes.setHighlightPopup. run_eff.
  cbn [Notes.highlightPopup Notes.rendition Notes.db Notes.highlights Notes.selection
       Db.highlights Db.bookmarks Db.calls].
  destruct (match match cfiRangeFromPopup with
                  | Some r => if JS.truthy r then Some r else None
                  | None => None
                  end with
            | Some r => Some r
            | None => Highlight.cfiRange <$>
                        List.find (fun h => String.eqb (Highlight.id h) id) hl
            end) as [r |]; [| reflexivity].
  destruct rendition as [annotations |]; [| destruct (JS.truthy r); reflexivity].
  destruct (JS.truthy r); reflexivity.
Qed.

Lemma restoreHighlights_loop accepts (hs : list Highlight.t)
    db hl pop (rendition : option (gmap string Annotation.t)) selection :
  for_of hs (fun h =>
    try_catch_finally
      (Notes.annotationsAdd (accepts (Highlight.cfiRange h)) (Highlight.cfiRange h)
                            (noteClass (Highlight.note h)) (Highlight.color h))
      (fun _ => mret tt)
      (mret tt)) (Notes.mkState db hl pop rendition selection) =
  (Notes.mkState db hl pop (restoredOverlays accepts hs <$> rendition) selection, inr tt).
Proof.
  revert rendition. induction hs as [| h hs IH]; intros rendition.
  - cbn. destruct rendition; reflexivity.
  - cbn [for_of]. unfold mbind at 1, M_bind at 1.
    unfold try_catch_finally at 1, Notes.annotationsAdd at 1.
    destruct (accepts (Highlight.cfiRange h)) eqn:Hacc.
    + run_eff. cbn [Notes.db Notes.highlights Notes.highlightPopup Notes.rendition
                    Notes.selection].
      rewrite IH. unfold restoredOverlays. cbn [fold_left]. rewrite Hacc.
      destruct rendition; reflexivity.
    + run_eff. rewrite IH. unfold restoredOverlays. cbn [fold_left]. rewrite Hacc.
      reflexivity.
Qed.

Lemma restoreHighlights_run accepts (s : Notes.State) :
  restoreHighlights accepts s =
  (Notes.mkState (Notes.db s) (Notes.highlights s) (Notes.highlightPopup s)
     (restoredOverlays accepts (Notes.highlights s) <$> Notes.rendition s)
     (Notes.selection s), inr tt).
Proof.
  destruct s as [db hl pop rendition selection].
  unfold restoreHighlights. unfold mbind at 1, M_bind at 1, get at 1.
  cbn [Notes.highlights]. apply restoreHighlights_loop.
Qed.
End NotesRuns.

Section NotesInvariants.
Variable bookId : string.

Lemma truthy_false s : JS.truthy s = false -> s = EmptyString.
Proof. destruct s; [reflexivity | discriminate]. Qed.

Lemma handleSelection_keeps cfiRange rangeText position s :
  popupAgrees s -> listInStore s ->
  popupAgrees (fst (handleSelection cfiRange rangeText position s)) /\
  listInStore (fst (handleSelection cfiRange rangeText position s)).
Proof.
  intros Hp Hl. rewrite handleSelection_run. cbn [fst].
  destruct (Notes.rendition s); [| tauto].
  destruct (JS.truthy _); [| tauto].
  split; [unfold popupAgrees; cbn; auto | exact Hl].
Qed.

Lemma handleHighlightClick_keeps cfiRange clientX clientY s :
  popupAgrees s -> listInStore s ->
  popupAgrees (fst (handleHighlightClick cfiRange clientX clientY s)) /\
  listInStore (fst (handleHighlightClick cfiRange clientX clientY s)).
Proof.
  intros Hp Hl. rewrite handleHighlightClick_run. cbn [fst].
  destruct (List.find _ _) as [h |] eqn:Hf; [| tauto].
  apply find_some in Hf. destruct Hf as [Hin _].
  split; [| exact Hl]. unfold popupAgrees. cbn. split; [reflexivity |].
  exists h. auto.
Qed.

Lemma withColor_popupAgrees db hl popup rendition selection rendition' selection' color :
  popupAgrees (Notes.mkState db hl (Some popup) rendition selection) ->
  popupAgrees (Notes.mkState db hl (Some (HighlightPopupState.withColor popup color))
                 rendition' selection').
Proof. unfold popupAgrees. cbn. trivial. Qed.

Lemma handleHighlightColorChange_keeps color s :
  popupAgrees s -> listInStore s ->
  popupAgrees (fst (handleHighlightColorChange color s)) /\
  listInStore (fst (handleHighlightColorChange color s)).
Proof.
  intros Hp Hl. rewrite handleHighlightColorChange_run. cbn [fst].
  split; [| exact Hl].
  destruct s as [db hl [popup |] rendition selection]; [| exact I].
  now apply (withColor_popupAgrees db hl popup rendition selection).
Qed.

Lemma listInStore_fresh s uuid h :
  listInStore s -> Db.highlights (Notes.db s) !! uuid = None ->
  In h (Notes.highlights s) -> Highlight.id h <> uuid.
Proof. intros Hl Hfresh Hin E. apply Hl in Hin. rewrite E, Hfresh in Hin. discriminate. Qed.

Lemma handleColorSelect_keeps color uuid now overlayOk s :
  popupAgrees s -> listInStore s ->
  popupAgrees (fst (handleColorSelect bookId color uuid now overlayOk s)) /\
  listInStore (fst (handleColorSelect bookId color uuid now overlayOk s)).
Proof.
  intros Hp Hl.
  destruct (Notes.highlightPopup s) as [popup |] eqn:Hpopup.
  2:{ rewrite handleColorSelect_no_popup by exact Hpopup. tauto. }
  destruct (Notes.rendition s) as [annotations |] eqn:Hrend.
  2:{ rewrite handleColorSelect_no_rendition by exact Hrend. tauto. }
  destruct (HighlightPopupState.isNew popup) eqn:Hnew.
  2:{ rewrite (handleColorSelect_recolour _ _ _ _ _ _ popup annotations Hpopup Hrend
                 (or_introl Hnew)).
      cbn [fst]. split; [| exact Hl].
      destruct s as [db hl pop rendition selection]. cbn in Hpopup. subst pop.
      now apply (withColor_popupAgrees db hl popup rendition selection). }
  destruct (HighlightPopupState.stage popup) eqn:Hstage.
  2:{ rewrite (handleColorSelect_recolour _ _ _ _ _ _ popup annotations Hpopup Hrend
                 (or_intror Hstage)).
      cbn [fst]. split; [| exact Hl].
      destruct s as [db hl pop rendition selection]. cbn in Hpopup. subst pop.
      now apply (withColor_popupAgrees db hl popup rendition selection). }
  destruct (Db.highlights (Notes.db s) !! uuid) as [taken |] eqn:Hid.
  { rewrite (handleColorSelect_refused _ _ _ _ _ _ popup annotations taken
               Hpopup Hnew Hstage Hrend Hid).
    cbn [fst]. split.
    - unfold popupAgrees in *. rewrite Hpopup in Hp. cbn. exact Hp.
    - exact Hl. }
  rewrite (handleColorSelect_run bookId color uuid now overlayOk s popup annotations
             Hpopup Hnew Hstage Hrend Hid).
  destruct overlayOk; cbn [fst]; split.
  - unfold popupAgrees. cbn. split; [reflexivity |].
    eexists. split; [apply in_app_iff; right; left; reflexivity |]. cbn. auto.
  - intros h Hin. cbn in Hin |- *. apply in_app_iff in Hin.
    destruct Hin as [Hin | [<- | []]].
    + rewrite lookup_insert_ne by (intros E; now apply (listInStore_fresh s uuid h)).
      now apply Hl.
    + cbn. apply lookup_insert_eq.
  - unfold popupAgrees in *. rewrite Hpopup in Hp. cbn. rewrite Hstage in *. exact Hp.
  - intros h Hin. cbn in Hin |- *.
    rewrite lookup_insert_ne by (intros E; now apply (listInStore_fresh s uuid h)).
    now apply Hl.
Qed.

(** With the popup and the list in agreement and the list in the store,
    a save finds its highlight. *)
Lemma handleHighlightSave_cases note now overlayOk s :
  popupAgrees s -> listInStore s ->
  handleHighlightSave note now overlayOk s = (s, inr tt) \/
  exists popup annotations id h,
    Notes.highlightPopup s = Some popup /\
    Notes.rendition s = Some annotations /\
    HighlightPopupState.highlightId popup = Some id /\
    JS.truthy id = true /\
    Db.highlights (Notes.db s) !! id = Some h /\
    Highlight.id h = id.
Proof.
  intros Hp Hl.
  destruct (Notes.highlightPopup s) as [popup |] eqn:Hpopup.
  2:{ left. apply handleHighlightSave_idle. now left. }
  destruct (Notes.rendition s) as [annotations |] eqn:Hrend.
  2:{ left. apply handleHighlightSave_idle. right. now left. }
  destruct (HighlightPopupState.highlightId popup) as [id |] eqn:Hid.
  2:{ left. apply handleHighlightSave_idle. right. right. exists popup. auto. }
  destruct (JS.truthy id) eqn:Htruthy.
  2:{ left. apply handleHighlightSave_idle. right. right. exists popup.
      apply truthy_false in Htruthy. subst id. auto. }
  right. unfold popupAgrees in Hp. rewrite Hpopup in Hp.
  destruct (HighlightPopupState.stage popup).
  - destruct Hp as [_ Hp]. congruence.
  - destruct Hp as [_ (h & Hin & Hh & _)].
    exists popup, annotations, id, h.
    assert (E : Highlight.id h = id) by congruence.
    apply Hl in Hin. rewrite E in Hin. auto 10.
Qed.

Lemma handleHighlightSave_keeps note now overlayOk s :
  popupAgrees s -> listInStore s ->
  popupAgrees (fst (handleHighlightSave note now overlayOk s)) /\
  listInStore (fst (handleHighlightSave note now overlayOk s)).
Proof.
  intros Hp Hl.
  destruct (handleHighlightSave_cases note now overlayOk s Hp Hl)
    as [-> | (popup & annotations & id & h & Hpopup & Hrend & Hid & Htruthy & Hh & E)];
    [tauto |].
  rewrite (handleHighlightSave_run note now overlayOk s popup annotations id h
             Hpopup Hrend Hid Htruthy Hh).
  cbn [fst]. split; [exact I |].
  intros x Hin. cbn in Hin |- *. apply in_map_iff in Hin.
  destruct Hin as (y & Hy & Hin).
  destruct (String.eqb_spec (Highlight.id y) (Highlight.id h)) as [Eid | Hne].
  - subst x. cbn. apply lookup_insert_eq.
  - subst x. rewrite lookup_insert_ne by congruence. now apply Hl.
Qed.

Lemma handleDeleteHighlight_keeps id cfiRangeFromPopup s :
  popupAgrees s -> listInStore s ->
  popupAgrees (fst (handleDeleteHighlight id cfiRangeFromPopup s)) /\
  listInStore (fst (handleDeleteHighlight id cfiRangeFromPopup s)).
Proof.
  intros Hp Hl. rewrite handleDeleteHighlight_run. cbn [fst]. split; [exact I |].
  intros h Hin. cbn in Hin |- *. apply filter_In in Hin. destruct Hin as [Hin Hne].
  apply negb_true_iff, String.eqb_neq in Hne.
  rewrite lookup_delete_ne by congruence. now apply Hl.
Qed.

Lemma notesStep_keeps a s :
  popupAgrees s -> listInStore s ->
  popupAgrees (fst (notesStep bookId a s)) /\ listInStore (fst (notesStep bookId a s)).
Proof.
  intros Hp Hl. destruct a; cbn [notesStep].
  - now apply handleSelection_keeps.
  - now apply handleHighlightClick_keeps.
  - now apply handleHighlightColorChange_keeps.
  - now apply handleColorSelect_keeps.
  - now apply handleHighlightSave_keeps.
  - rewrite handleCancelHighlight_state. cbn [fst]. split; [exact I | exact Hl].
  - now apply handleDeleteHighlight_keeps.
  - rewrite restoreHighlights_run. cbn [fst]. split; [| exact Hl].
    unfold popupAgrees in *. cbn. exact Hp.
Qed.

Lemma notesSession_keeps actions s :
  popupAgrees s -> listInStore s ->
  popupAgrees (notesSession bookId actions s) /\ listInStore (notesSession bookId actions s).
Proof.
  revert s. induction actions as [| a actions IH]; intros s Hp Hl; [tauto |].
  cbn [notesSession fold_left].
  destruct (notesStep_keeps a s Hp Hl) as [Hp' Hl']. now apply IH.
Qed.
End NotesInvariants.

(** X7. The popup and the list of highlights stay in agreement, and the
    list stays in the store, through every call of a handler of the
    hook, whether it returns or throws: a colour picker is the draft of
    a new highlight and has no id; an editor has the id and the range of
    a highlight of the list; every highlight of the list is in the store
    as the list has it.  So after any calls made one after the other
    from a closed popup, an editor always has an id, that of a stored
    highlight. *)
Theorem notes_popup_and_list_agree (bookId : string) :
  (forall a s,
     popupAgrees s -> listInStore s ->
     popupAgrees (fst (notesStep bookId a s)) /\
     listInStore (fst (notesStep bookId a s))) /\
  (forall actions s popup,
     Notes.highlightPopup s = None -> listInStore s ->
     let s' := notesSession bookId actions s in
     Notes.highlightPopup s' = Some popup ->
     HighlightPopupState.stage popup = editing ->
     exists h,
       In h (Notes.highlights s') /\
       HighlightPopupState.highlightId popup = Some (Highlight.id h) /\
       HighlightPopupState.cfiRange popup = Highlight.cfiRange h /\
       Db.highlights (Notes.db s') !! Highlight.id h = Some h).
Proof.
  split; [intros a s; apply notesStep_keeps |].
  intros actions s popup Hnone Hl s' Hpopup Hstage.
  assert (Hp : popupAgrees s) by (unfold popupAgrees; now rewrite Hnone).
  destruct (notesSession_keeps bookId actions s Hp Hl) as [Hp' Hl'].
  fold s' in Hp', Hl'. unfold popupAgrees in Hp'. rewrite Hpopup, Hstage in Hp'.
  destruct Hp' as [_ (h & Hin & Hid & Hrange)].
  exists h. auto.
Qed.

(** X7 on the sample data: a passage is selected, a colour chosen. *)
Lemma notes_popup_and_list_agree_witness :
  let s' := notesSession Demo.bookId
              [Select Demo.selectedRange "The chief mate" (120, 80)%Z;
               SelectColor green "hl-1" 50 true] Demo.idle in
  exists h,
    In h (Notes.highlights s') /\
    Some "hl-1" = Some (Highlight.id h) /\
    Demo.selectedRange = Highlight.cfiRange h /\
    Db.highlights (Notes.db s') !! Highlight.id h = Some h.
Proof.
  apply (proj2 (notes_popup_and_list_agree Demo.bookId)
           [Select Demo.selectedRange "The chief mate" (120, 80)%Z;
            SelectColor green "hl-1" 50 true]
           Demo.idle
           (HighlightPopupState.mk (120, 80)%Z false editing (Some "hl-1")
              Demo.selectedRange "The chief mate" green None)).
  - reflexivity.
  - intros h [].
  - reflexivity.
  - reflexivity.
Defined.

(** X8. A save from a popup with an id, with a rendition.  When the
    store holds a highlight under the id, the save returns: the store
    holds the highlight with the colour of the popup, the note given and
    the time of the save, its id, book, range, text and time of creation
    being kept, and holds every other record as before; the list has
    the updated highlight in place of the one of that id, in the same
    order; the popup is closed; the overlay of the range is replaced by
    one in the colour of the popup, marked when there is a note to
    mark, or is gone when the renderer refuses the new one.  When the
    store holds nothing under the id, the save throws after its call to
    the store: store contents, list, overlays and popup are as they
    were. *)
Theorem handleHighlightSave_updates
    (note : option string) (now : Z) (overlayOk : bool) (s : Notes.State)
    (popup : HighlightPopupState.t) (annotations : gmap string Annotation.t) (id : string) :
  Notes.highlightPopup s = Some popup ->
  Notes.rendition s = Some annotations ->
  HighlightPopupState.highlightId popup = Some id ->
  JS.truthy id = true ->
  let cfiRange := HighlightPopupState.cfiRange popup in
  let color := HighlightPopupState.color popup in
  let call := Db.UpdateHighlight id (Some color) (Some note) in
  let s' := fst (handleHighlightSave note now overlayOk s) in
  (forall h,
     Db.highlights (Notes.db s) !! id = Some h -> Highlight.id h = id ->
     let updated :=
       Highlight.mk id (Highlight.bookId h) (Highlight.cfiRange h) (Highlight.text h)
                    color note (Highlight.createdAt h) now in
     snd (handleHighlightSave note now overlayOk s) = inr tt /\
     Notes.db s' =
       Db.mk (Db.bookmarks (Notes.db s)) (<[id := updated]> (Db.highlights (Notes.db s)))
             (Db.calls (Notes.db s) ++ [call]) /\
     Notes.highlights s' =
       map (fun x => if String.eqb (Highlight.id x) id then updated else x)
           (Notes.highlights s) /\
     Notes.highlightPopup s' = None /\
     Notes.selection s' = Notes.selection s /\
     exists annotations',
       Notes.rendition s' = Some annotations' /\
       annotations' !! cfiRange =
         (if overlayOk then Some (Annotation.mk (noteClass note) (getColorValue color))
          else None) /\
       forall r, r <> cfiRange -> annotations' !! r = annotations !! r) /\
  (Db.highlights (Notes.db s) !! id = None ->
   handleHighlightSave note now overlayOk s =
   (Notes.mkState
      (Db.mk (Db.bookmarks (Notes.db s)) (Db.highlights (Notes.db s))
             (Db.calls (Notes.db s) ++ [call]))
      (Notes.highlights s) (Some popup) (Some annotations) (Notes.selection s),
    inl HighlightNotFound)).
Proof.
  intros Hpopup Hrend Hid Htruthy cfiRange color call s'. split.
  - intros h Hh E updated. subst s'.
    rewrite (handleHighlightSave_run note now overlayOk s popup annotations id h
               Hpopup Hrend Hid Htruthy Hh).
    rewrite E. cbn [fst snd Notes.db Notes.highlights Notes.highlightPopup
                    Notes.selection Notes.rendition].
    repeat (split; [reflexivity |]).
    eexists. split; [reflexivity |].
    fold cfiRange color. destruct overlayOk; split.
    + apply lookup_insert_eq.
    + intros r Hr. rewrite lookup_insert_ne by congruence. now apply lookup_delete_ne.
    + apply lookup_delete_eq.
    + intros r Hr. now apply lookup_delete_ne.
  - intros Hnone.
    exact (handleHighlightSave_unknown note now overlayOk s popup annotations id
             Hpopup Hrend Hid Htruthy Hnone).
Qed.

(** X8 on the sample data: the highlight made from the selection gets a
    note. *)
Lemma handleHighlightSave_updates_witness :
  let s := notesSession Demo.bookId
             [Select Demo.selectedRange "The chief mate" (120, 80)%Z;
              SelectColor green "hl-1" 50 true] Demo.idle in
  Db.highlights (Notes.db (fst (handleHighlightSave (Some "Starbuck") 60 true s))) !! "hl-1" =
    Some (Highlight.mk "hl-1" Demo.bookId Demo.selectedRange "The chief mate" green
                       (Some "Starbuck") 50 60) /\
  Notes.highlightPopup (fst (handleHighlightSave (Some "Starbuck") 60 true s)) = None.
Proof.
  intros s.
  destruct (proj1 (handleHighlightSave_updates (Some "Starbuck") 60 true s
              (HighlightPopupState.mk (120, 80)%Z false editing (Some "hl-1")
                 Demo.selectedRange "The chief mate" green None)
              (<[Demo.selectedRange := Annotation.mk "" (getColorValue green)]> ∅)
              "hl-1" eq_refl eq_refl eq_refl eq_refl)
              (Highlight.mk "hl-1" Demo.bookId Demo.selectedRange "The chief mate" green
                            None 50 50) eq_refl eq_refl)
    as (_ & Hdb & _ & Hclosed & _).
  split; [| exact Hclosed].
  rewrite Hdb. cbn [Notes.db Db.highlights]. apply lookup_insert_eq.
Defined.

(** X9. With the popup and the list in agreement and the list in the
    store, so in particular after any calls of the handlers made from a
    closed popup, a save does not throw: the id of the popup is that of
    a stored highlight. *)
Theorem handleHighlightSave_returns
    (bookId : string) (note : option string) (now : Z) (overlayOk : bool) :
  (forall s,
     popupAgrees s -> listInStore s ->
     snd (handleHighlightSave note now overlayOk s) = inr tt) /\
  (forall actions s,
     Notes.highlightPopup s = None -> listInStore s ->
     snd (handleHighlightSave note now overlayOk (notesSession bookId actions s)) = inr tt).
Proof.
  assert (Hsave : forall s, popupAgrees s -> listInStore s ->
            snd (handleHighlightSave note now overlayOk s) = inr tt).
  { intros s Hp Hl.
    destruct (handleHighlightSave_cases note now overlayOk s Hp Hl)
      as [-> | (popup & annotations & id & h & Hpopup & Hrend & Hid & Htruthy & Hh & E)];
      [reflexivity |].
    now rewrite (handleHighlightSave_run note now overlayOk s popup annotations id h
                   Hpopup Hrend Hid Htruthy Hh). }
  split; [exact Hsave |].
  intros actions s Hnone Hl.
  assert (Hp : popupAgrees s) by (unfold popupAgrees; now rewrite Hnone).
  destruct (notesSession_keeps bookId actions s Hp Hl) as [Hp' Hl'].
  now apply Hsave.
Qed.

(** X9 on the sample data: a save after a selection and a choice of
    colour. *)
Lemma handleHighlightSave_returns_witness :
  snd (handleHighlightSave (Some "Starbuck") 60 true
         (notesSession Demo.bookId
            [Select Demo.selectedRange "The chief mate" (120, 80)%Z;
             SelectColor green "hl-1" 50 true] Demo.idle)) = inr tt.
Proof.
  apply (proj2 (handleHighlightSave_returns Demo.bookId (Some "Starbuck") 60 true)).
  - reflexivity.
  - intros h [].
Defined.

(** X10. In the editor of a highlight a change of colour is not stored
    until the save.  [handleColorSelect] does there what
    [handleHighlightColorChange] does: the popup shows the colour, and
    the store receives no call; list and overlays keep the old colour.
    A cancel then leaves the store as it was.  A save then stores the
    colour shown. *)
Theorem colour_change_stored_on_save
    (bookId : string) (color : HighlightColor) (s : Notes.State)
    (popup : HighlightPopupState.t) (annotations : gmap string Annotation.t)
    (id : string) (h : Highlight.t) :
  Notes.highlightPopup s = Some popup ->
  HighlightPopupState.stage popup = editing ->
  Notes.rendition s = Some annotations ->
  HighlightPopupState.highlightId popup = Some id ->
  JS.truthy id = true ->
  Db.highlights (Notes.db s) !! id = Some h ->
  Highlight.id h = id ->
  let s1 := fst (handleHighlightColorChange color s) in
  (forall uuid now overlayOk,
     handleColorSelect bookId color uuid now overlayOk s =
     handleHighlightColorChange color s) /\
  Notes.highlightPopup s1 = Some (HighlightPopupState.withColor popup color) /\
  Notes.db s1 = Notes.db s /\
  Notes.highlights s1 = Notes.highlights s /\
  Notes.rendition s1 = Notes.rendition s /\
  Notes.db (fst (handleCancelHighlight s1)) = Notes.db s /\
  (forall note now overlayOk,
     Db.highlights (Notes.db (fst (handleHighlightSave note now overlayOk s1))) !! id =
     Some (Highlight.mk id (Highlight.bookId h) (Highlight.cfiRange h) (Highlight.text h)
                        color note (Highlight.createdAt h) now)).
Proof.
  intros Hpopup Hstage Hrend Hid Htruthy Hh E s1.
  assert (Hs1 : s1 = Notes.mkState (Notes.db s) (Notes.highlights s)
                       (Some (HighlightPopupState.withColor popup color))
                       (Some annotations) (Notes.selection s)).
  { subst s1. rewrite handleHighlightColorChange_run, Hpopup, Hrend. reflexivity. }
  split.
  { intros uuid now overlayOk.
    rewrite (handleColorSelect_recolour bookId color uuid now overlayOk s popup annotations
               Hpopup Hrend (or_intror Hstage)).
    rewrite handleHighlightColorChange_run, Hpopup, Hrend. reflexivity. }
  rewrite Hs1. cbn [Notes.highlightPopup Notes.db Notes.highlights Notes.rendition].
  repeat (split; [first [reflexivity | now rewrite Hrend] |]).
  split.
  { rewrite handleCancelHighlight_state. reflexivity. }
  intros note now overlayOk.
  rewrite (handleHighlightSave_run note now overlayOk
             (Notes.mkState (Notes.db s) (Notes.highlights s)
                (Some (HighlightPopupState.withColor popup color))
                (Some annotations) (Notes.selection s))
             (HighlightPopupState.withColor popup color) annotations id h
             eq_refl eq_refl Hid Htruthy Hh).
  cbn [fst Notes.db Db.highlights HighlightPopupState.withColor HighlightPopupState.color].
  rewrite E. apply lookup_insert_eq.
Qed.

(** X10 on the sample data: the green highlight is shown pink, then
    saved. *)
Lemma colour_change_stored_on_save_witness :
  let s := notesSession Demo.bookId
             [Select Demo.selectedRange "The chief mate" (120, 80)%Z;
              SelectColor green "hl-1" 50 true] Demo.idle in
  Notes.db (fst (handleHighlightColorChange pink s)) = Notes.db s /\
  Db.highlights
    (Notes.db (fst (handleHighlightSave None 60 true
                      (fst (handleHighlightColorChange pink s))))) !! "hl-1" =
    Some (Highlight.mk "hl-1" Demo.bookId Demo.selectedRange "The chief mate" pink
                       None 50 60).
Proof.
  intros s.
  destruct (colour_change_stored_on_save Demo.bookId pink s
              (HighlightPopupState.mk (120, 80)%Z false editing (Some "hl-1")
                 Demo.selectedRange "The chief mate" green None)
              (<[Demo.selectedRange := Annotation.mk "" (getColorValue green)]> ∅)
              "hl-1"
              (Highlight.mk "hl-1" Demo.bookId Demo.selectedRange "The chief mate" green
                            None 50 50)
              eq_refl eq_refl eq_refl eq_refl eq_refl eq_refl eq_refl)
    as (_ & _ & Hdb & _ & _ & _ & Hsave).
  split; [exact Hdb | exact (Hsave None 60%Z true)].
Defined.

(** X11. [handleDeleteHighlight] never throws.  It makes one call to the
    store, which then holds nothing under the id and every other record
    as before; the list loses the highlights of the id and keeps the
    others; the popup is closed.  The overlay removed is that of the
    range given, when one is given, and otherwise that of the range of
    the highlight of the id in the list, when there is one.  A second
    call with the same arguments changes nothing but the record of the
    calls. *)
Theorem handleDeleteHighlight_removes
    (id : string) (cfiRangeFromPopup : option string) (s : Notes.State) :
  let s' := fst (handleDeleteHighlight id cfiRangeFromPopup s) in
  let s'' := fst (handleDeleteHighlight id cfiRangeFromPopup s') in
  snd (handleDeleteHighlight id cfiRangeFromPopup s) = inr tt /\
  Notes.db s' =
    Db.mk (Db.bookmarks (Notes.db s)) (delete id (Db.highlights (Notes.db s)))
          (Db.calls (Notes.db s) ++ [Db.DeleteHighlight id]) /\
  (forall h, In h (Notes.highlights s') <-> In h (Notes.highlights s) /\ Highlight.id h <> id) /\
  Notes.highlightPopup s' = None /\
  Notes.selection s' = Notes.selection s /\
  (forall r, cfiRangeFromPopup = Some r -> JS.truthy r = true ->
     Notes.rendition s' = (fun a => delete r a) <$> Notes.rendition s) /\
  (cfiRangeFromPopup = None \/ cfiRangeFromPopup = Some EmptyString ->
   (forall h,
      List.find (fun h => String.eqb (Highlight.id h) id) (Notes.highlights s) = Some h ->
      JS.truthy (Highlight.cfiRange h) = true ->
      Notes.rendition s' = (fun a => delete (Highlight.cfiRange h) a) <$> Notes.rendition s) /\
   ((forall h, In h (Notes.highlights s) -> Highlight.id h <> id) ->
    Notes.rendition s' = Notes.rendition s)) /\
  (Db.highlights (Notes.db s'') = Db.highlights (Notes.db s') /\
   Notes.highlights s'' = Notes.highlights s' /\
   Notes.rendition s'' = Notes.rendition s' /\
   Notes.highlightPopup s'' = None).
Proof.
  intros s' s''.
  assert (Hnone : forall l : list Highlight.t,
            List.find (fun h => String.eqb (Highlight.id h) id)
              (List.filter (fun h => negb (String.eqb (Highlight.id h) id)) l) = None).
  { intros l. induction l as [| x l IH]; [reflexivity |]. cbn [List.filter].
    destruct (String.eqb (Highlight.id x) id) eqn:E; cbn [negb]; [exact IH |].
    cbn [List.find]. now rewrite E. }
  assert (Hfix : forall l : list Highlight.t,
            List.filter (fun h => negb (String.eqb (Highlight.id h) id))
              (List.filter (fun h => negb (String.eqb (Highlight.id h) id)) l) =
            List.filter (fun h => negb (String.eqb (Highlight.id h) id)) l).
  { intros l. induction l as [| x l IH]; [reflexivity |]. cbn [List.filter].
    destruct (negb _) eqn:E; [| exact IH]. cbn [List.filter]. rewrite E. now f_equal. }
  assert (Hdel : forall r (o : option (gmap string Annotation.t)),
            (fun a => delete r a) <$> ((fun a => delete r a) <$> o) =
            (fun a => delete r a) <$> o).
  { intros r [a |]; [| reflexivity]. cbn. f_equal. apply delete_id, lookup_delete_eq. }
  subst s''. subst s'. rewrite (handleDeleteHighlight_run id cfiRangeFromPopup s).
  cbn [fst snd Notes.db Notes.highlights Notes.highlightPopup Notes.selection
       Notes.rendition].
  split; [reflexivity |]. split; [reflexivity |].
  split; [intros h; now rewrite filter_In, negb_true_iff, String.eqb_neq |].
  split; [reflexivity |]. split; [reflexivity |].
  split; [intros r -> Hr; rewrite Hr; now rewrite Hr |].
  split.
  { intros Hgiven.
    assert (Hg : match cfiRangeFromPopup with
                 | Some r => if JS.truthy r then Some r else None
                 | None => None
                 end = None) by (destruct Hgiven as [-> | ->]; reflexivity).
    rewrite Hg. split.
    - intros h -> Hr. cbn. now rewrite Hr.
    - intros Habsent.
      destruct (List.find _ (Notes.highlights s)) as [h |] eqn:Hf; [| reflexivity].
      apply find_some in Hf. destruct Hf as [Hin Hid].
      apply String.eqb_eq in Hid. now apply Habsent in Hin. }
  rewrite handleDeleteHighlight_run.
  cbn [fst Notes.db Notes.highlights Notes.highlightPopup Notes.selection
       Notes.rendition Db.highlights Db.bookmarks Db.calls].
  split; [apply delete_id, lookup_delete_eq |].
  split; [apply Hfix |]. split; [| reflexivity].
  rewrite Hnone.
  destruct (match cfiRangeFromPopup with
            | Some r => if JS.truthy r then Some r else None
            | None => None
            end) as [r |]; [| reflexivity].
  destruct (JS.truthy r); [apply Hdel | reflexivity].
Qed.

(** X11 on the sample data: the highlight made from the selection is
    deleted from the list of notes, where no range is given. *)
Lemma handleDeleteHighlight_removes_witness :
  let s := notesSession Demo.bookId
             [Select Demo.selectedRange "The chief mate" (120, 80)%Z;
              SelectColor green "hl-1" 50 true] Demo.idle in
  Notes.rendition (fst (handleDeleteHighlight "hl-1" None s)) =
  (fun a => delete Demo.selectedRange a) <$> Notes.rendition s.
Proof.
  intros s.
  destruct (handleDeleteHighlight_removes "hl-1" None s)
    as (_ & _ & _ & _ & _ & _ & Hlist & _).
  destruct (Hlist (or_introl eq_refl)) as [Hfound _].
  exact (Hfound (Highlight.mk "hl-1" Demo.bookId Demo.selectedRange "The chief mate" green
                              None 50 50) eq_refl eq_refl).
Defined.

Section RestoreFacts.
Variable accepts : string -> bool.

Lemma restoredOverlays_cons h hs annotations :
  restoredOverlays accepts (h :: hs) annotations =
  restoredOverlays accepts hs
    (if accepts (Highlight.cfiRange h)
     then <[Highlight.cfiRange h :=
              Annotation.mk (noteClass (Highlight.note h))
                            (getColorValue (Highlight.color h))]> annotations
     else annotations).
Proof. reflexivity. Qed.

(** A range of no accepted highlight keeps what it had. *)
Lemma restoredOverlays_other hs annotations r :
  (forall h, In h hs -> Highlight.cfiRange h = r -> accepts r = false) ->
  restoredOverlays accepts hs annotations !! r = annotations !! r.
Proof.
  revert annotations. induction hs as [| x hs IH]; intros annotations Hr; [reflexivity |].
  rewrite restoredOverlays_cons, IH by (intros h Hin; apply Hr; now right).
  destruct (accepts (Highlight.cfiRange x)) eqn:Hacc; [| reflexivity].
  apply lookup_insert_ne. intros E.
  pose proof (Hr x (or_introl eq_refl) E) as Hno. rewrite E in Hacc. congruence.
Qed.

(** The range of an accepted highlight gets the overlay of a highlight
    of that range. *)
Lemma restoredOverlays_accepted hs annotations h :
  In h hs -> accepts (Highlight.cfiRange h) = true ->
  exists h',
    In h' hs /\ Highlight.cfiRange h' = Highlight.cfiRange h /\
    restoredOverlays accepts hs annotations !! Highlight.cfiRange h =
    Some (Annotation.mk (noteClass (Highlight.note h')) (getColorValue (Highlight.color h'))).
Proof.
  revert annotations h. induction hs as [| x hs IH]; intros annotations h Hin Hacc;
    [destruct Hin |].
  rewrite restoredOverlays_cons.
  destruct (List.find (fun y => String.eqb (Highlight.cfiRange y) (Highlight.cfiRange h)) hs)
    as [y |] eqn:Hf.
  - apply find_some in Hf. destruct Hf as [Hy Ey]. apply String.eqb_eq in Ey.
    assert (Hacc' : accepts (Highlight.cfiRange y) = true) by now rewrite Ey.
    destruct (IH (if accepts (Highlight.cfiRange x)
                  then <[Highlight.cfiRange x :=
                           Annotation.mk (noteClass (Highlight.note x))
                                         (getColorValue (Highlight.color x))]> annotations
                  else annotations) y Hy Hacc')
      as (h' & Hh' & Eh' & Hlook).
    exists h'. split; [now right |]. split; [congruence |]. now rewrite <- Ey.
  - assert (Hx : x = h).
    { destruct Hin as [E | Hin]; [exact E |].
      apply (find_none _ _ Hf) in Hin. cbv beta in Hin.
      rewrite String.eqb_refl in Hin. discriminate. }
    subst x. exists h. split; [now left |]. split; [reflexivity |].
    rewrite restoredOverlays_other.
    + rewrite Hacc. apply lookup_insert_eq.
    + intros y Hy Ey. apply (find_none _ _ Hf) in Hy. cbv beta in Hy.
      rewrite Ey, String.eqb_refl in Hy. discriminate.
Qed.
End RestoreFacts.

(** X12. [restoreHighlights] never throws, whichever ranges the renderer
    refuses, and touches nothing but the overlays: store, list, popup
    and selection are as they were.  Afterwards the range of every
    highlight the renderer accepts has the overlay of a highlight of
    that range, in its colour and marked when it has a note to mark; a
    range of no accepted highlight has what it had. *)
Theorem restoreHighlights_overlays (accepts : string -> bool) (s : Notes.State) :
  let s' := fst (restoreHighlights accepts s) in
  snd (restoreHighlights accepts s) = inr tt /\
  Notes.db s' = Notes.db s /\
  Notes.highlights s' = Notes.highlights s /\
  Notes.highlightPopup s' = Notes.highlightPopup s /\
  Notes.selection s' = Notes.selection s /\
  forall annotations,
    Notes.rendition s = Some annotations ->
    exists annotations',
      Notes.rendition s' = Some annotations' /\
      (forall h,
         In h (Notes.highlights s) -> accepts (Highlight.cfiRange h) = true ->
         exists h',
           In h' (Notes.highlights s) /\
           Highlight.cfiRange h' = Highlight.cfiRange h /\
           annotations' !! Highlight.cfiRange h =
           Some (Annotation.mk (noteClass (Highlight.note h'))
                               (getColorValue (Highlight.color h')))) /\
      (forall r,
         (forall h, In h (Notes.highlights s) -> Highlight.cfiRange h = r ->
                    accepts r = false) ->
         annotations' !! r = annotations !! r).
Proof.
  intros s'. subst s'. rewrite restoreHighlights_run.
  cbn [fst snd Notes.db Notes.highlights Notes.highlightPopup Notes.selection
       Notes.rendition].
  repeat (split; [reflexivity |]).
  intros annotations ->. eexists. split; [reflexivity |]. split.
  - intros h Hin Hacc. now apply restoredOverlays_accepted.
  - intros r Hr. now apply restoredOverlays_other.
Qed.

(** X12 on the sample data: a page is displayed again, with a highlight
    the renderer accepts. *)
Lemma restoreHighlights_overlays_witness :
  let h := Highlight.mk "hl-1" Demo.bookId Demo.selectedRange "The chief mate" green
                        (Some "Starbuck") 50 60 in
  let s := Notes.mkState (Db.mk ∅ {[ "hl-1" := h ]} []) [h] None (Some ∅) None in
  exists annotations',
    Notes.rendition (fst (restoreHighlights (fun _ => true) s)) = Some annotations' /\
    annotations' !! Demo.selectedRange =
      Some (Annotation.mk "hl-has-note" (getColorValue green)).
Proof.
  intros h s.
  destruct (restoreHighlights_overlays (fun _ => true) s)
    as (_ & _ & _ & _ & _ & Hover).
  destruct (Hover ∅ eq_refl) as (annotations' & Hrend & Hacc & _).
  exists annotations'. split; [exact Hrend |].
  destruct (Hacc h (or_introl eq_refl) eq_refl) as (h' & [<- | []] & _ & Hlook).
  exact Hlook.
Defined.

(** X13. What each handler of the hook asks of the store.  Selecting
    text, clicking a highlight, changing the colour shown, cancelling
    and restoring the overlays make no call and leave store and list as
    they are.  Choosing a colour makes no call or one [createHighlight],
    of a highlight of the book with the id drawn, the colour chosen and
    no note; saving makes no call or one [updateHighlight], with the
    note given; deleting makes one [deleteHighlight], of the id given.
    No handler touches the bookmarks. *)
Theorem notes_store_calls (bookId : string) (a : NotesAction) (s : Notes.State) :
  let s' := fst (notesStep bookId a s) in
  Db.bookmarks (Notes.db s') = Db.bookmarks (Notes.db s) /\
  match a with
  | Select _ _ _ | ClickHighlight _ _ _ | ChangeColor _ | Cancel | Restore _ =>
      Notes.db s' = Notes.db s /\ Notes.highlights s' = Notes.highlights s
  | SelectColor color uuid now _ =>
      Notes.db s' = Notes.db s \/
      exists cfiRange text,
        Db.calls (Notes.db s') =
        Db.calls (Notes.db s) ++
        [Db.CreateHighlight (Highlight.mk uuid bookId cfiRange text color None now now)]
  | Save note _ _ =>
      Notes.db s' = Notes.db s \/
      exists id color,
        Db.calls (Notes.db s') =
        Db.calls (Notes.db s) ++ [Db.UpdateHighlight id (Some color) (Some note)]
  | Delete id _ =>
      Db.calls (Notes.db s') = Db.calls (Notes.db s) ++ [Db.DeleteHighlight id]
  end.
Proof.
  destruct a as [cfiRange rangeText position | cfiRange clientX clientY | color
                | color uuid now overlayOk | note now overlayOk | | id given | accepts];
    cbn [notesStep].
  - rewrite handleSelection_run. cbn [fst].
    destruct (Notes.rendition s); [destruct (JS.truthy _) |]; cbn; auto.
  - rewrite handleHighlightClick_run. cbn [fst].
    destruct (List.find _ _); cbn; auto.
  - rewrite handleHighlightColorChange_run. cbn. auto.
  - destruct (Notes.highlightPopup s) as [popup |] eqn:Hpopup.
    2:{ rewrite handleColorSelect_no_popup by exact Hpopup. cbn. auto. }
    destruct (Notes.rendition s) as [annotations |] eqn:Hrend.
    2:{ rewrite handleColorSelect_no_rendition by exact Hrend. cbn. auto. }
    destruct (HighlightPopupState.isNew popup) eqn:Hnew.
    2:{ rewrite (handleColorSelect_recolour _ _ _ _ _ _ popup annotations Hpopup Hrend
                   (or_introl Hnew)). cbn. auto. }
    destruct (HighlightPopupState.stage popup) eqn:Hstage.
    2:{ rewrite (handleColorSelect_recolour _ _ _ _ _ _ popup annotations Hpopup Hrend
                   (or_intror Hstage)). cbn. auto. }
    destruct (Db.highlights (Notes.db s) !! uuid) as [taken |] eqn:Hid.
    { rewrite (handleColorSelect_refused _ _ _ _ _ _ popup annotations taken
                 Hpopup Hnew Hstage Hrend Hid).
      cbn. split; [reflexivity |]. right. eauto. }
    rewrite (handleColorSelect_run bookId color uuid now overlayOk s popup annotations
               Hpopup Hnew Hstage Hrend Hid).
    destruct overlayOk; cbn; (split; [reflexivity |]); right; eauto.
  - destruct (Notes.highlightPopup s) as [popup |] eqn:Hpopup.
    2:{ rewrite handleHighlightSave_idle by now left. cbn. auto. }
    destruct (Notes.rendition s) as [annotations |] eqn:Hrend.
    2:{ rewrite handleHighlightSave_idle by (right; now left). cbn. auto. }
    destruct (HighlightPopupState.highlightId popup) as [id |] eqn:Hid.
    2:{ rewrite handleHighlightSave_idle by (right; right; exists popup; auto).
        cbn. auto. }
    destruct (JS.truthy id) eqn:Htruthy.
    2:{ apply truthy_false in Htruthy. subst id.
        rewrite handleHighlightSave_idle by (right; right; exists popup; auto).
        cbn. auto. }
    destruct (Db.highlights (Notes.db s) !! id) as [h |] eqn:Hh.
    + rewrite (handleHighlightSave_run note now overlayOk s popup annotations id h
                 Hpopup Hrend Hid Htruthy Hh).
      cbn. split; [reflexivity |]. right. eauto.
    + rewrite (handleHighlightSave_unknown note now overlayOk s popup annotations id
                 Hpopup Hrend Hid Htruthy Hh).
      cbn. split; [reflexivity |]. right. eauto.
  - rewrite handleCancelHighlight_state. cbn. auto.
  - rewrite handleDeleteHighlight_run. cbn. auto.
  - rewrite restoreHighlights_run. cbn. auto.
Qed.

Section SliceAndTrim.
Lemma substring_0_length n s :
  String.length (String.substring 0 n s) = Nat.min n (String.length s).
Proof.
  revert s. induction n as [| n IH]; intros [| c s]; cbn; try reflexivity.
  now rewrite IH.
Qed.

Lemma substring_0_prefix n s : String.prefix (String.substring 0 n s) s = true.
Proof.
  revert s. induction n as [| n IH]; intros [| c s]; cbn; try reflexivity.
  destruct (ascii_dec c c) as [_ | Hne]; [apply IH | now destruct Hne].
Qed.

Lemma trimStart_length s : (String.length (JS.trimStart s) <= String.length s)%nat.
Proof.
  induction s as [| c s IH]; cbn [JS.trimStart]; [lia |].
  destruct (JS.is_space c); cbn [String.length] in *; lia.
Qed.

Lemma trimEnd_length s : (String.length (JS.trimEnd s) <= String.length s)%nat.
Proof.
  induction s as [| c s IH]; cbn [JS.trimEnd]; [lia |].
  destruct (JS.is_space c && String.eqb (JS.trimEnd s) ""); cbn [String.length] in *; lia.
Qed.

Lemma trim_length s : (String.length (JS.trim s) <= String.length s)%nat.
Proof.
  unfold JS.trim. pose proof (trimEnd_length (JS.trimStart s)).
  pose proof (trimStart_length s). lia.
Qed.

Lemma trimEnd_idem s : JS.trimEnd (JS.trimEnd s) = JS.trimEnd s.
Proof.
  induction s as [| c s IH]; [reflexivity |]. cbn [JS.trimEnd].
  destruct (JS.is_space c && String.eqb (JS.trimEnd s) "") eqn:E; [reflexivity |].
  cbn [JS.trimEnd]. now rewrite IH, E.
Qed.

(** What [trimStart] leaves does not start with white space. *)
Lemma trimStart_head s :
  JS.trimStart s = EmptyString \/
  exists c t, JS.trimStart s = String c t /\ JS.is_space c = false.
Proof.
  induction s as [| c s IH]; [now left |]. cbn [JS.trimStart].
  destruct (JS.is_space c) eqn:E; [exact IH |]. right. eauto.
Qed.

Lemma trim_idem s : JS.trim (JS.trim s) = JS.trim s.
Proof.
  unfold JS.trim.
  destruct (trimStart_head s) as [-> | (c & t & -> & Hc)]; [reflexivity |].
  cbn [JS.trimEnd]. rewrite Hc. cbn [andb JS.trimStart]. rewrite Hc.
  cbn [JS.trimEnd]. rewrite Hc. cbn [andb]. now rewrite trimEnd_idem.
Qed.

Lemma extractExcerpt_trimmed rangeText :
  (String.length (Bookmarks.extractExcerpt rangeText) <= 100)%nat /\
  JS.trim (Bookmarks.extractExcerpt rangeText) = Bookmarks.extractExcerpt rangeText.
Proof.
  destruct rangeText as [textContent |]; cbn [Bookmarks.extractExcerpt].
  - split; [| apply trim_idem].
    pose proof (trim_length (String.substring 0 100 textContent)).
    pose proof (substring_0_length 100 textContent). lia.
  - split; [cbn; lia | reflexivity].
Qed.
End SliceAndTrim.

(** X14. [handleSelection], on a selection whose range the renderer
    gives, never throws and changes nothing but the popup: it makes no
    call to the store and leaves list, overlays and the native
    selection.  Without a rendition, or on a selection of
    white space only, it changes nothing at all.  Otherwise it opens the
    colour picker of a new highlight: no id, the range selected, the
    default colour, no note, and as text the first 500 characters of the
    selection.  Cancelling that colour picker clears the native
    selection. *)
Theorem handleSelection_opens_colour_picker
    (cfiRange rangeText : string) (position : Z * Z) (s : Notes.State) :
  let s' := fst (handleSelection cfiRange rangeText position s) in
  snd (handleSelection cfiRange rangeText position s) = inr tt /\
  Notes.db s' = Notes.db s /\
  Notes.highlights s' = Notes.highlights s /\
  Notes.rendition s' = Notes.rendition s /\
  Notes.selection s' = Notes.selection s /\
  (Notes.rendition s = None \/ allSpace rangeText = true -> s' = s) /\
  (Notes.rendition s <> None -> allSpace rangeText = false ->
   exists text,
     Notes.highlightPopup s' =
       Some (HighlightPopupState.mk position true color_picker None cfiRange text
                                    DEFAULT_HIGHLIGHT_COLOR None) /\
     String.length text = Nat.min 500 (String.length rangeText) /\
     String.prefix text rangeText = true /\
     Notes.selection (fst (handleCancelHighlight s')) =
       (fun _ => false) <$> Notes.selection s).
Proof.
  intros s'. subst s'. rewrite handleSelection_run. cbn [fst snd].
  assert (Hblank : JS.truthy (JS.trim rangeText) = negb (allSpace rangeText)).
  { unfold JS.truthy. destruct (String.eqb_spec (JS.trim rangeText) "") as [E | Hne].
    - apply trim_empty_iff in E. now rewrite E.
    - destruct (allSpace rangeText) eqn:E; [| reflexivity].
      apply trim_empty_iff in E. contradiction. }
  rewrite Hblank.
  split; [reflexivity |].
  destruct s as [db hl pop [annotations |] selection];
    cbn [Notes.db Notes.highlights Notes.rendition Notes.selection Notes.highlightPopup].
  - destruct (allSpace rangeText) eqn:Hall; cbn [negb];
      cbn [Notes.db Notes.highlights Notes.rendition Notes.selection
           Notes.highlightPopup];
      do 4 (split; [reflexivity |]); (split; [| intros _ Hno]).
    + reflexivity.
    + discriminate.
    + intros [H | H]; discriminate.
    + eexists. split; [reflexivity |].
      split; [apply substring_0_length |]. split; [apply substring_0_prefix |].
      rewrite handleCancelHighlight_state. reflexivity.
  - do 4 (split; [reflexivity |]). split; [reflexivity |].
    intros Hno. now destruct Hno.
Qed.

(** X14 on the sample data: the passage selected opens the colour
    picker. *)
Lemma handleSelection_opens_colour_picker_witness :
  exists text,
    Notes.highlightPopup (fst (handleSelection Demo.selectedRange "The chief mate"
                                 (120, 80)%Z Demo.idle)) =
      Some (HighlightPopupState.mk (120, 80)%Z true color_picker None Demo.selectedRange
              text DEFAULT_HIGHLIGHT_COLOR None) /\
    String.length text = Nat.min 500 (String.length "The chief mate") /\
    String.prefix text "The chief mate" = true /\
    Notes.selection
      (fst (handleCancelHighlight
              (fst (handleSelection Demo.selectedRange "The chief mate" (120, 80)%Z
                      Demo.idle)))) =
      (fun _ => false) <$> Notes.selection Demo.idle.
Proof.
  apply (proj2 (proj2 (proj2 (proj2 (proj2 (proj2
           (handleSelection_opens_colour_picker Demo.selectedRange "The chief mate"
              (120, 80)%Z Demo.idle))))))).
  - discriminate.
  - reflexivity.
Defined.

(** X15. A bookmark that is in the list after a toggle and was not
    before is the one the toggle created: at the position of the
    toggle, of the book, with the id drawn, and stored under that id.
    Its excerpt is trimmed and has at most 100 characters, and is empty
    when no text could be read at the position. *)
Theorem handleToggleBookmark_new_bookmark
    (compare : string -> string -> Z) (spinePos : string -> Z) (bookId : string)
    (location : option string) (rangeText : option string) (uuid : string) (now : Z)
    (s : Bookmarks.State) (b : Bookmark.t) :
  let s' := fst (handleToggleBookmark compare spinePos bookId location rangeText uuid now s) in
  In b (Bookmarks.bookmarks s') ->
  ~ In b (Bookmarks.bookmarks s) ->
  location = Some (Bookmark.cfi b) /\
  Bookmark.id b = uuid /\
  Bookmark.bookId b = bookId /\
  Bookmark.createdAt b = now /\
  Bookmark.excerpt b = Bookmarks.extractExcerpt rangeText /\
  (String.length (Bookmark.excerpt b) <= 100)%nat /\
  JS.trim (Bookmark.excerpt b) = Bookmark.excerpt b /\
  (rangeText = None -> Bookmark.excerpt b = EmptyString) /\
  Db.bookmarks (Bookmarks.db s') !! uuid = Some b.
Proof.
  intros s' Hin Hnew.
  destruct (toggle_cases compare spinePos bookId location rangeText uuid now s)
    as [[Hl _] | [(p & existing & _ & _ & _ & Hl & _) | (p & Hloc & _ & _ & _ & Hl & Hdb)]];
    fold s' in Hl.
  - exfalso. rewrite Hl in Hin. contradiction.
  - exfalso. rewrite Hl in Hin. apply filter_In in Hin. tauto.
  - fold s' in Hdb. rewrite Hl in Hin. apply in_app_iff in Hin.
    destruct Hin as [Hin | [<- | []]]; [contradiction |].
    cbn [Bookmark.cfi Bookmark.id Bookmark.bookId Bookmark.createdAt Bookmark.excerpt].
    destruct (extractExcerpt_trimmed rangeText) as [Hlen Htrim].
    repeat (split; [first [assumption | reflexivity] |]).
    split; [now intros -> |].
    rewrite Hdb. apply lookup_insert_eq.
Qed.

(** X15 on the sample data: the excerpt of the bookmark of chapter 26. *)
Lemma handleToggleBookmark_new_bookmark_witness :
  let b := Bookmark.mk "bm-1" Demo.bookId Demo.a26 "The chief mate of the Pequod" 10 in
  (String.length (Bookmark.excerpt b) <= 100)%nat /\
  JS.trim (Bookmark.excerpt b) = Bookmark.excerpt b.
Proof.
  intros b.
  destruct (handleToggleBookmark_new_bookmark RefCfi.compare RefCfi.spinePos Demo.bookId
              (Some Demo.a26) (Some "  The chief mate of the Pequod ") "bm-1" 10
              Demo.noBookmarks b (or_introl eq_refl) (fun H : False => H))
    as (_ & _ & _ & _ & _ & Hlen & Htrim & _).
  split; [exact Hlen | exact Htrim].
Defined.

(* ===================================================================== *)
(** * [getCurrentChapterLabel] *)
(* ===================================================================== *)

Section CurrentChapterFacts.
Variable currentHref : string.

#[local] Abbreviation here := (currentHrefMatches currentHref).
#[local] Abbreviation labelOf := (fun e : NavItem.t => JS.trim (NavItem.label e)).

Lemma find_app {A} (f : A -> bool) (l k : list A) :
  List.find f (l ++ k) =
  match List.find f l with Some x => Some x | None => List.find f k end.
Proof.
  induction l as [| x l IH]; [reflexivity |]. cbn [app List.find].
  destruct (f x); [reflexivity | exact IH].
Qed.

(** What the loop returns on an entry is the trimmed label of an entry
    at or below it that matches. *)
Lemma findInToc_item_sound (item : NavItem.t) :
  forall r,
    findInToc_item currentHref item = Some r ->
    exists e, In e (flattenNavItem item) /\ here e = true /\ r = labelOf e.
Proof.
  induction item as [label href subitems IH] using NavItem_tree_ind.
  intros r. cbn [findInToc_item flattenNavItem].
  assert (Hloop : forall r,
    (fix findInToc (items : list NavItem.t) : option string :=
       match items with
       | [] => None
       | i :: rest =>
           match findInToc_item currentHref i with
           | Some r => Some r
           | None => findInToc rest
           end
       end) subitems = Some r ->
    exists e,
      In e ((fix go (items : list NavItem.t) : list NavItem.t :=
               match items with
               | [] => []
               | i :: rest => flattenNavItem i ++ go rest
               end) subitems) /\ here e = true /\ r = labelOf e).
  { induction IH as [| i rest Hi _ IHrest]; intros r0; [discriminate |].
    destruct (findInToc_item currentHref i) as [ri |] eqn:Ei.
    - intros [= <-]. destruct (Hi ri eq_refl) as (e & Hin & He & Hr).
      exists e. split; [apply in_app_iff; now left | auto].
    - intros H. destruct (IHrest r0 H) as (e & Hin & He & Hr).
      exists e. split; [apply in_app_iff; now right | auto]. }
  destruct (here (NavItem.mk label href subitems)) eqn:Hhere.
  - intros [= <-]. exists (NavItem.mk label href subitems).
    split; [now left | auto].
  - destruct (0 <? length subitems)%nat; [| discriminate].
    destruct ((fix findInToc (items : list NavItem.t) : option string := _) subitems)
      as [found |] eqn:Ef; [| discriminate].
    destruct (JS.truthy found); [| discriminate].
    intros [= <-]. destruct (Hloop found eq_refl) as (e & Hin & He & Hr).
    exists e. split; [now right | auto].
Qed.

Lemma findInToc_sound (items : list NavItem.t) :
  forall r,
    findInToc currentHref items = Some r ->
    exists e, In e (flattenToc items) /\ here e = true /\ r = labelOf e.
Proof.
  induction items as [| i rest IH]; intros r; [discriminate |].
  cbn [findInToc flattenToc].
  destruct (findInToc_item currentHref i) as [ri |] eqn:Ei.
  - intros [= <-]. destruct (findInToc_item_sound i ri Ei) as (e & Hin & He & Hr).
    exists e. split; [apply in_app_iff; now left | auto].
  - intros H. destruct (IH r H) as (e & Hin & He & Hr).
    exists e. split; [apply in_app_iff; now right | auto].
Qed.

(** When no matching entry has a blank label, the loop returns on the
    first matching entry of the traversal. *)
Lemma findInToc_item_first (item : NavItem.t) :
  (forall e, In e (flattenNavItem item) -> here e = true -> JS.truthy (labelOf e) = true) ->
  findInToc_item currentHref item =
  labelOf <$> List.find here (flattenNavItem item).
Proof.
  induction item as [label href subitems IH] using NavItem_tree_ind.
  cbn [findInToc_item flattenNavItem List.find].
  assert (Hloop :
    (forall e,
       In e ((fix go (items : list NavItem.t) : list NavItem.t :=
                match items with
                | [] => []
                | i :: rest => flattenNavItem i ++ go rest
                end) subitems) ->
       here e = true -> JS.truthy (labelOf e) = true) ->
    (fix findInToc (items : list NavItem.t) : option string :=
       match items with
       | [] => None
       | i :: rest =>
           match findInToc_item currentHref i with
           | Some r => Some r
           | None => findInToc rest
           end
       end) subitems =
    labelOf <$> List.find here
      ((fix go (items : list NavItem.t) : list NavItem.t :=
          match items with
          | [] => []
          | i :: rest => flattenNavItem i ++ go rest
          end) subitems)).
  { induction IH as [| i rest Hi _ IHrest]; intros Hlab; [reflexivity |].
    rewrite find_app, Hi by (intros e He; apply Hlab, in_app_iff; now left).
    destruct (List.find here (flattenNavItem i)); [reflexivity |].
    apply IHrest. intros e He. apply Hlab, in_app_iff. now right. }
  intros Hlab.
  destruct (here (NavItem.mk label href subitems)) eqn:Hhere; [reflexivity |].
  rewrite Hloop by (intros e He; apply Hlab; now right).
  destruct subitems as [| i rest]; [reflexivity |]. cbn [length Nat.ltb Nat.leb].
  destruct (List.find here _) as [e |] eqn:Ef; [| reflexivity].
  apply find_some in Ef. destruct Ef as [Hin He]. cbn [fmap option_fmap option_map].
  now rewrite (Hlab e (or_intror Hin) He).
Qed.

Lemma findInToc_first (items : list NavItem.t) :
  (forall e, In e (flattenToc items) -> here e = true -> JS.truthy (labelOf e) = true) ->
  findInToc currentHref items = labelOf <$> List.find here (flattenToc items).
Proof.
  induction items as [| i rest IH]; intros Hlab; [reflexivity |].
  cbn [findInToc flattenToc].
  rewrite find_app, findInToc_item_first
    by (intros e He; apply Hlab, in_app_iff; now left).
  destruct (List.find here (flattenNavItem i)); [reflexivity |].
  apply IH. intros e He. apply Hlab, in_app_iff. now right.
Qed.
End CurrentChapterFacts.

(** X16. [getCurrentChapterLabel] never returns the empty string.  It
    returns ["Unknown location"] when the renderer gives no location, a
    location with no start, or throws.  At a location in a file it
    returns ["Unknown chapter"] or the trimmed label of an entry of the
    table of contents whose file is that of the location; it returns
    ["Unknown chapter"] when no entry matches; and when no matching entry
    has a blank label it returns the trimmed label of the first matching
    entry in the order of the table: an entry before its subitems,
    before its next sibling. *)
Theorem getCurrentChapterLabel_first_match (location : CurrentLocation)
    (toc : list NavItem.t) :
  let label := getCurrentChapterLabel location toc in
  label <> EmptyString /\
  (location = NoLocation \/ location = NoStart \/ location = LocationThrows ->
   label = "Unknown location") /\
  (forall href,
     location = StartsAt href ->
     (label = "Unknown chapter" \/
      exists e, occursIn e toc /\ currentHrefMatches href e = true /\
                label = JS.trim (NavItem.label e)) /\
     ((forall e, occursIn e toc -> currentHrefMatches href e = false) ->
      label = "Unknown chapter") /\
     ((forall e, occursIn e toc -> currentHrefMatches href e = true ->
                 allSpace (NavItem.label e) = false) ->
      label = match List.find (currentHrefMatches href) (flattenToc toc) with
              | Some e => JS.trim (NavItem.label e)
              | None => "Unknown chapter"
              end)).
Proof.
  intros label. split; [| split].
  - subst label. unfold getCurrentChapterLabel.
    destruct location; try discriminate.
    destruct (findInToc href toc) as [l |]; [| discriminate].
    destruct l; [discriminate | discriminate].
  - subst label. intros [-> | [-> | ->]]; reflexivity.
  - intros href ->. subst label. cbn [getCurrentChapterLabel].
    split; [| split].
    + destruct (findInToc href toc) as [l |] eqn:Ef; [| now left].
      destruct (JS.truthy l); [| now left].
      right. destruct (findInToc_sound href toc l Ef) as (e & Hin & He & Hl).
      exists e. split; [now apply flattenToc_occurs | auto].
    + intros Hnone.
      destruct (findInToc href toc) as [l |] eqn:Ef; [| reflexivity].
      destruct (findInToc_sound href toc l Ef) as (e & Hin & He & Hl).
      apply flattenToc_occurs in Hin. rewrite (Hnone e Hin) in He. discriminate.
    + intros Hlab.
      assert (Hlab' : forall e, In e (flattenToc toc) -> currentHrefMatches href e = true ->
                JS.truthy (JS.trim (NavItem.label e)) = true).
      { intros e Hin He. apply flattenToc_occurs in Hin.
        pose proof (Hlab e Hin He) as Hns. unfold JS.truthy.
        destruct (String.eqb_spec (JS.trim (NavItem.label e)) "") as [E | _];
          [| reflexivity].
        apply trim_empty_iff in E. congruence. }
      rewrite (findInToc_first href toc Hlab').
      destruct (List.find _ _) as [e |] eqn:Ef; [| reflexivity].
      apply find_some in Ef. cbn [fmap option_fmap option_map].
      now rewrite (Hlab' e (proj1 Ef) (proj2 Ef)).
Qed.

(** X16 on the sample table of contents: a location in the file shared
    by chapters 22 to 27 is labelled by the part, the first entry of
    that file. *)
Lemma getCurrentChapterLabel_first_match_witness :
  getCurrentChapterLabel (StartsAt "OEBPS/chapters22-27.xhtml") Demo.toc = "Part".
Proof.
  apply (proj2 (proj2 (proj2 (proj2
           (getCurrentChapterLabel_first_match (StartsAt "OEBPS/chapters22-27.xhtml")
              Demo.toc))
           "OEBPS/chapters22-27.xhtml" eq_refl))).
  intros e He _. apply flattenToc_occurs in He. cbn in He.
  repeat (destruct He as [<- | He]; [reflexivity |]). destruct He.
Defined.

(** A matching entry with a blank label hides the matching entries
    after it. *)
Example getCurrentChapterLabel_blank_label :
  getCurrentChapterLabel (StartsAt "OEBPS/c1.xhtml")
    [NavItem.mk "  " "c1.xhtml" []; NavItem.mk "One" "c1.xhtml#a" []] = "Unknown chapter".
Proof. reflexivity. Qed.

(* ===================================================================== *)
(** * [sortByCfi]: the order of the input *)
(* ===================================================================== *)

Section SortOrder.
Context {A : Type}.

Lemma filter_Permutation_list (f : A -> bool) (l k : list A) :
  Permutation l k -> Permutation (List.filter f l) (List.filter f k).
Proof.
  induction 1 as [| x l k _ IH | x y l | l k m _ IH1 _ IH2]; cbn [List.filter].
  - constructor.
  - destruct (f x); [now constructor | exact IH].
  - destruct (f x), (f y); try reflexivity. constructor.
  - now transitivity (List.filter f k).
Qed.

(** A list whose elements are all the same has one arrangement. *)
Lemma Permutation_all_same (l k : list A) :
  Permutation l k -> (forall a b, In a l -> In b l -> a = b) -> l = k.
Proof.
  induction 1 as [| x l k Hp IH | x y l | l k m Hp1 IH1 Hp2 IH2]; intros Hsame.
  - reflexivity.
  - f_equal. apply IH. intros a b Ha Hb. apply Hsame; now right.
  - rewrite (Hsame x y); [reflexivity | right; now left | now left].
  - pose proof (IH1 Hsame) as E. subst k. apply IH2. exact Hsame.
Qed.
End SortOrder.

(** X17. When the items at one position are one and the same item,
    [sortByCfi] gives the same list whatever the order the items come
    in: the sorted list of bookmarks or highlights does not depend on
    the order in which they were added ([compare] being consistent). *)
Theorem sortByCfi_order_independent
    (compare : string -> string -> Z) (cfiToString : string -> string)
    {T : Type} (getCfi : T -> string) (items items' : list T) :
  Consistent compare ->
  Permutation items items' ->
  (forall a b, In a items -> In b items ->
     compare (cfiToString (getCfi a)) (cfiToString (getCfi b)) = 0%Z -> a = b) ->
  sortByCfi compare cfiToString items getCfi = sortByCfi compare cfiToString items' getCfi.
Proof.
  intros Hc Hperm Hdistinct.
  set (pos := fun x : T => cfiToString (getCfi x)).
  set (cmp := fun a b : T => (- compare (pos a) (pos b))%Z).
  assert (Hcmp : Consistent cmp).
  { exact (@Consistent_opp T _ (Consistent_on compare pos)). }
  rewrite !sortByCfi_sort. change (JS.sort cmp items = JS.sort cmp items').
  assert (Hclass : forall p a b,
            (cmp a p =? 0)%Z = true -> (cmp b p =? 0)%Z = true -> cmp a b = 0%Z).
  { intros p a b Ha Hb. apply Z.eqb_eq in Ha, Hb.
    apply (cmp_zero_trans cmp a p b Ha). now apply (cmp_zero_sym cmp). }
  apply (sorted_same_classes cmp);
    [now apply sort_sorted | now apply sort_sorted |].
  intros p. rewrite !sort_stable by apply Hclass.
  apply Permutation_all_same; [now apply filter_Permutation_list |].
  intros a b Ha Hb. apply filter_In in Ha, Hb.
  destruct Ha as [Ha Hap], Hb as [Hb Hbp].
  apply Hdistinct; [exact Ha | exact Hb |].
  pose proof (Hclass p a b Hap Hbp) as H0. unfold cmp, pos in H0. lia.
Qed.

(** X17 on the sample data: two bookmarks, added in either order. *)
Lemma sortByCfi_order_independent_witness :
  sortByCfi RefCfi.compare RefCfi.cfiToString [Demo.bm1; Demo.bm2] Bookmark.cfi =
  sortByCfi RefCfi.compare RefCfi.cfiToString [Demo.bm2; Demo.bm1] Bookmark.cfi.
Proof.
  apply sortByCfi_order_independent.
  - exact RefCfi_Consistent.
  - apply perm_swap.
  - intros a b [<- | [<- | []]] [<- | [<- | []]] H;
      first [reflexivity | vm_compute in H; discriminate].
Defined.

(* ===================================================================== *)
(** * [SearchModal]: [performSearch] *)
(* ===================================================================== *)

(** X18. [performSearch] never throws and never leaves the modal
    searching; whatever it did, [hasSearched] says whether the query has
    two characters or more.  With a rendition and a query of two
    characters or more that is not white space only it runs one search
    of the book and shows what it returns: section by section in spine
    order, the matches of the section up to the first whose attribution
    throws, and none for a section that does not load or cannot be
    matched; when no attribution throws these are the matches of the
    sections processed.  Otherwise it shows no result and makes no call
    to any section: [searchBook] is never called with a query it would
    refuse. *)
Theorem performSearch_shows_results (compare : string -> string -> Z)
    (cfiReturns : string -> list string -> bool)
    (rendition : option Book.t) (searchQuery : string) (st : SearchModal.State) :
  let st' := fst (performSearch compare cfiReturns rendition searchQuery st) in
  snd (performSearch compare cfiReturns rendition searchQuery st) = inr tt /\
  SearchModal.isSearching st' = false /\
  SearchModal.hasSearched st' = (2 <=? String.length searchQuery)%nat /\
  (forall book,
     rendition = Some book -> allSpace searchQuery = false ->
     (2 <= String.length searchQuery)%nat ->
     let toc := default [] (Book.toc book) in
     SearchModal.results st' =
       flat_map (sectionYield compare cfiReturns toc searchQuery) (Book.spine book) /\
     SearchModal.calls st' =
       SearchModal.calls st ++
       flat_map (sectionTrace cfiReturns toc searchQuery) (Book.spine book) /\
     ((forall item matches m,
         In item (Book.spine book) -> SpineItem.find item searchQuery = Some matches ->
         In m matches -> attributes cfiReturns toc item m = true) ->
      SearchModal.results st' =
        flat_map (sectionMatches compare toc searchQuery)
                 (List.filter (sectionSucceeds cfiReturns toc searchQuery)
                              (Book.spine book)))) /\
  (rendition = None \/ allSpace searchQuery = true \/ (String.length searchQuery < 2)%nat ->
   SearchModal.results st' = [] /\ SearchModal.calls st' = SearchModal.calls st).
Proof.
  intros st'. subst st'.
  assert (Hblank : JS.truthy (JS.trim searchQuery) = negb (allSpace searchQuery)).
  { unfold JS.truthy. destruct (String.eqb_spec (JS.trim searchQuery) "") as [E | Hne].
    - apply trim_empty_iff in E. now rewrite E.
    - destruct (allSpace searchQuery) eqn:E; [| reflexivity].
      apply trim_empty_iff in E. contradiction. }
  destruct st as [results isSearching hasSearched calls].
  destruct rendition as [book |].
  2:{ cbn. repeat (split; [reflexivity |]). split; [discriminate | auto]. }
  unfold performSearch. rewrite Hblank, negb_involutive.
  destruct (allSpace searchQuery) eqn:Hall.
  { cbn. repeat (split; [reflexivity |]). split; [discriminate | auto]. }
  cbn [orb]. destruct (Nat.ltb_spec (String.length searchQuery) 2) as [Hlen | Hlen].
  { cbn. repeat (split; [reflexivity |]). split; [intros; lia | auto]. }
  assert (Htrim : JS.truthy (JS.trim searchQuery) = true) by exact Hblank.
  unfold SearchModal.setIsSearching, SearchModal.setHasSearched, SearchModal.setResults,
    SearchModal.runSearch.
  run_eff. rewrite (searchBook_yields compare cfiReturns book searchQuery Htrim Hlen).
  cbn [SearchModal.results SearchModal.isSearching SearchModal.hasSearched
       SearchModal.calls Search.trace fst snd].
  split; [reflexivity |]. split; [reflexivity |].
  split; [symmetry; now apply Nat.leb_le |].
  split.
  - intros book' [= <-] _ _. cbv zeta. split; [reflexivity |]. split; [reflexivity |].
    intros Hok. now apply flat_map_sectionYield.
  - intros [H | [H | H]]; [discriminate | discriminate | lia].
Qed.

(** X18 on the sample book. *)
Lemma performSearch_shows_results_witness :
  SearchModal.results
    (fst (performSearch RefCfi.compare RefCfi.cfiReturns (Some Demo.book) "mate"
            (SearchModal.mkState [] false false []))) =
  flat_map (sectionYield RefCfi.compare RefCfi.cfiReturns (default [] (Book.toc Demo.book))
              "mate")
           (Book.spine Demo.book).
Proof.
  assert (Hlen : (2 <= String.length "mate")%nat) by (cbn; lia).
  destruct (performSearch_shows_results RefCfi.compare RefCfi.cfiReturns
              (Some Demo.book) "mate"
              (SearchModal.mkState [] false false []))
    as (_ & _ & _ & Hsearched & _).
  exact (proj1 (Hsearched Demo.book eq_refl eq_refl Hlen)).
Defined.

(* ===================================================================== *)
(** * The database: reading a store, deleting the records of a book *)
(* ===================================================================== *)

Section StoreFacts.
Context {V : Type}.
Variable idOf : V -> string.
Variable bookIdOf : V -> string.

Lemma getAll_In (store : gmap string V) (v : V) :
  In v (getAll store) <-> exists k, store !! k = Some v.
Proof.
  unfold getAll. rewrite in_map_iff. split.
  - intros ([k v'] & Hv & Hin). cbn in Hv. subst v'.
    apply sort_In, list_elem_of_In, elem_of_map_to_list in Hin. eauto.
  - intros [k Hk]. exists (k, v). split; [reflexivity |].
    apply sort_In, list_elem_of_In. now apply elem_of_map_to_list.
Qed.

Lemma getAllFromIndex_In (store : gmap string V) (bookId : string) (v : V) :
  In v (getAllFromIndex bookIdOf store bookId) <->
  (exists k, store !! k = Some v) /\ bookIdOf v = bookId.
Proof.
  unfold getAllFromIndex. now rewrite filter_In, getAll_In, String.eqb_eq.
Qed.

(** The records read from a store have different ids. *)
Lemma getAll_NoDup (store : gmap string V) :
  Library.keyed idOf store -> NoDup (map idOf (getAll store)).
Proof.
  intros Hkeyed. unfold getAll. rewrite map_map.
  set (sorted := JS.sort _ (map_to_list store)).
  assert (Hperm : Permutation sorted (map_to_list store)) by apply sort_Permutation.
  rewrite (map_ext_in (fun p => idOf (snd p)) fst).
  - change (NoDup (sorted.*1)). rewrite Hperm. apply NoDup_fst_map_to_list.
  - intros [k v] Hin. cbn. apply Hkeyed.
    apply elem_of_map_to_list, list_elem_of_In. now rewrite <- Hperm.
Qed.

Lemma filter_NoDup_map (f : V -> bool) (l : list V) :
  NoDup (map idOf l) -> NoDup (map idOf (List.filter f l)).
Proof.
  clear bookIdOf. induction l as [| x l IH]; [trivial |]. cbn [map List.filter].
  intros Hnd. apply NoDup_cons in Hnd. destruct Hnd as [Hx Hnd].
  destruct (f x); [| now apply IH]. cbn [map]. apply NoDup_cons. split; [| now apply IH].
  intros Hin. apply Hx. apply list_elem_of_In in Hin. apply list_elem_of_In.
  apply in_map_iff in Hin. destruct Hin as (y & Hy & Hin). apply filter_In in Hin.
  apply in_map_iff. exists y. tauto.
Qed.

Lemma deleteEach_lookup (records : list V) (store : gmap string V) (k : string) :
  deleteEach idOf records store !! k =
  if existsb (fun r => String.eqb (idOf r) k) records then None else store !! k.
Proof.
  revert store. induction records as [| r rs IH]; intros store; [reflexivity |].
  unfold deleteEach in *. cbn [fold_left existsb]. rewrite IH.
  destruct (String.eqb_spec (idOf r) k) as [-> | Hne]; cbn [orb].
  - rewrite lookup_delete_eq. now destruct (existsb _ rs).
  - now rewrite lookup_delete_ne.
Qed.

(** Deleting the records the index gives for a book leaves exactly the
    records of the other books. *)
Lemma cascade_lookup (store : gmap string V) (bookId k : string) (v : V) :
  Library.keyed idOf store ->
  deleteEach idOf (getAllFromIndex bookIdOf store bookId) store !! k = Some v <->
  store !! k = Some v /\ bookIdOf v <> bookId.
Proof.
  intros Hkeyed. rewrite deleteEach_lookup.
  destruct (existsb _ _) eqn:Hex.
  - apply existsb_exists in Hex. destruct Hex as (r & Hin & Hid).
    apply String.eqb_eq in Hid. apply getAllFromIndex_In in Hin.
    destruct Hin as [[k' Hk'] Hbook].
    assert (k' = k) by (rewrite <- (Hkeyed k' r Hk'); exact Hid). subst k'.
    split; [discriminate |]. intros [Hv Hne]. congruence.
  - split; [| tauto]. intros Hv. split; [exact Hv |]. intros Hbook.
    assert (Hin : In v (getAllFromIndex bookIdOf store bookId))
      by (apply getAllFromIndex_In; eauto).
    assert (Htrue : existsb (fun r => String.eqb (idOf r) k)
                      (getAllFromIndex bookIdOf store bookId) = true).
    { apply existsb_exists. exists v. split; [exact Hin |].
      apply String.eqb_eq. now apply Hkeyed. }
    congruence.
Qed.

Lemma cascade_keyed (store : gmap string V) (bookId : string) :
  Library.keyed idOf store ->
  Library.keyed idOf (deleteEach idOf (getAllFromIndex bookIdOf store bookId) store).
Proof.
  intros Hkeyed k v Hv. apply cascade_lookup in Hv; [| exact Hkeyed].
  now apply Hkeyed.
Qed.

Lemma filter_none {A} (f : A -> bool) (l : list A) :
  (forall x, In x l -> f x = false) -> List.filter f l = [].
Proof.
  induction l as [| x l IH]; [reflexivity |]. intros H. cbn [List.filter].
  rewrite (H x (or_introl eq_refl)). apply IH. intros y Hy. apply H. now right.
Qed.

Lemma cascade_index_empty (store : gmap string V) (bookId : string) :
  Library.keyed idOf store ->
  getAllFromIndex bookIdOf
    (deleteEach idOf (getAllFromIndex bookIdOf store bookId) store) bookId = [].
Proof.
  intros Hkeyed. unfold getAllFromIndex at 1. apply filter_none.
  intros v Hin. apply getAll_In in Hin. destruct Hin as [k Hk].
  apply cascade_lookup in Hk; [| exact Hkeyed]. now apply String.eqb_neq.
Qed.

Lemma cascade_index_other (store : gmap string V) (bookId other : string) (v : V) :
  Library.keyed idOf store -> other <> bookId ->
  In v (getAllFromIndex bookIdOf
          (deleteEach idOf (getAllFromIndex bookIdOf store bookId) store) other) <->
  In v (getAllFromIndex bookIdOf store other).
Proof.
  intros Hkeyed Hne. rewrite !getAllFromIndex_In. split.
  - intros [[k Hk] Hb]. apply cascade_lookup in Hk; [| exact Hkeyed]. split; [| exact Hb].
    exists k. tauto.
  - intros [[k Hk] Hb]. split; [| exact Hb]. exists k.
    apply cascade_lookup; [exact Hkeyed |]. split; [exact Hk | congruence].
Qed.
End StoreFacts.

(** X19. [deleteBook] removes the book, its file and every bookmark,
    highlight and chat message of the book, and nothing else: the
    records of the other books are as they were, in every store, and the
    settings too.  Afterwards the indexes give no record for the book
    and the records they gave for any other book; deleting the book
    again changes nothing.  (Every record being stored under its id, as
    the key path of the stores has it.) *)
Theorem deleteBook_cascade (id : string) (db : Library.t) :
  Library.wellKeyed db ->
  let db' := Library.deleteBook id db in
  Library.getBook id db' = None /\
  Library.getEpub id db' = None /\
  (forall k, k <> id ->
     Library.books db' !! k = Library.books db !! k /\
     Library.epubs db' !! k = Library.epubs db !! k) /\
  (forall k b, Library.bookmarks db' !! k = Some b <->
               Library.bookmarks db !! k = Some b /\ Bookmark.bookId b <> id) /\
  (forall k h, Library.highlights db' !! k = Some h <->
               Library.highlights db !! k = Some h /\ Highlight.bookId h <> id) /\
  (forall k m, Library.chatMessages db' !! k = Some m <->
               Library.chatMessages db !! k = Some m /\ ChatMessage.bookId m <> id) /\
  Library.settings db' = Library.settings db /\
  Library.getBookmarksByBookId id db' = [] /\
  Library.getHighlightsByBookId id db' = [] /\
  Library.getChatMessagesByBookId id db' = [] /\
  (forall other, other <> id ->
     (forall b, In b (Library.getBookmarksByBookId other db') <->
                In b (Library.getBookmarksByBookId other db)) /\
     (forall h, In h (Library.getHighlightsByBookId other db') <->
                In h (Library.getHighlightsByBookId other db))) /\
  Library.wellKeyed db' /\
  Library.deleteBook id db' = db'.
Proof.
  intros (Hbooks & Hepubs & Hbm & Hhl & Hchat & Hset) db'. subst db'.
  unfold Library.deleteBook, Library.getBook, Library.getEpub,
    Library.getBookmarksByBookId, Library.getHighlightsByBookId,
    Library.getChatMessagesByBookId.
  cbn [Library.books Library.epubs Library.bookmarks Library.highlights
       Library.chatMessages Library.settings].
  split; [apply lookup_delete_eq |]. split; [apply lookup_delete_eq |].
  split; [intros k Hk; split; now apply lookup_delete_ne |].
  split; [intros k b; now apply cascade_lookup |].
  split; [intros k h; now apply cascade_lookup |].
  split; [intros k m; now apply cascade_lookup |].
  split; [reflexivity |].
  split; [now apply cascade_index_empty |].
  split; [now apply cascade_index_empty |].
  split; [now rewrite cascade_index_empty |].
  split.
  { intros other Hother. split; intros x; now apply cascade_index_other. }
  split.
  { unfold Library.wellKeyed.
    cbn [Library.books Library.epubs Library.bookmarks Library.highlights
         Library.chatMessages Library.settings].
    split; [intros k v Hv; apply lookup_delete_Some in Hv; now apply Hbooks |].
    split; [intros k v Hv; apply lookup_delete_Some in Hv; now apply Hepubs |].
    split; [now apply cascade_keyed |]. split; [now apply cascade_keyed |].
    split; [now apply cascade_keyed | exact Hset]. }
  rewrite !cascade_index_empty by assumption. cbn [deleteEach fold_left].
  f_equal; apply delete_id, lookup_delete_eq.
Qed.

Section KeyedFacts.
Context {V : Type}.
Variable idOf : V -> string.

Lemma keyed_empty : Library.keyed idOf (∅ : gmap string V).
Proof. intros k v H. rewrite lookup_empty in H. discriminate. Qed.

Lemma keyed_insert (store : gmap string V) (k : string) (v : V) :
  idOf v = k -> Library.keyed idOf store -> Library.keyed idOf (<[k := v]> store).
Proof.
  intros Hid Hkeyed k' v' H. apply lookup_insert_Some in H.
  destruct H as [[<- <-] | [_ H]]; [exact Hid | now apply Hkeyed].
Qed.

End KeyedFacts.

Lemma DemoLibrary_wellKeyed : Library.wellKeyed DemoLibrary.db.
Proof.
  unfold Library.wellKeyed, DemoLibrary.db.
  cbn [Library.books Library.epubs Library.bookmarks Library.highlights
       Library.chatMessages Library.settings].
  repeat split; repeat (apply keyed_insert; [reflexivity |]); apply keyed_empty.
Qed.

(** X19 on the sample library: the first book is deleted; its bookmark
    goes, that of the second book stays. *)
Lemma deleteBook_cascade_witness :
  Library.getBookmarksByBookId "book-1" (Library.deleteBook "book-1" DemoLibrary.db) = [] /\
  Library.bookmarks (Library.deleteBook "book-1" DemoLibrary.db) !! "bm-9" =
    Some DemoLibrary.economy.
Proof.
  destruct (deleteBook_cascade "book-1" DemoLibrary.db DemoLibrary_wellKeyed)
    as (_ & _ & _ & Hbm & _ & _ & _ & Hnone & _).
  split; [exact Hnone |].
  apply Hbm. split; [reflexivity | discriminate].
Defined.

(* ===================================================================== *)
(** * The database: the list of books, the position in a book *)
(* ===================================================================== *)

Section LibraryFacts.

Lemma byCreatedAtAscending_Consistent : Consistent Library.byCreatedAtAscending.
Proof. split; unfold Library.byCreatedAtAscending; intros; lia. Qed.

Lemma getAllBooks_In (db : Library.t) (b : BookRecord.t) :
  In b (Library.getAllBooks db) <-> exists k, Library.books db !! k = Some b.
Proof. unfold Library.getAllBooks. now rewrite sort_In, getAll_In. Qed.


Lemma updateBookLocation_run (id location : string) (now : Z) (db : Library.t)
    (book : BookRecord.t) :
  Library.keyed BookRecord.id (Library.books db) ->
  Library.books db !! id = Some book ->
  Library.updateBookLocation id location now db =
  (Library.mk
     (<[id := BookRecord.mk id (BookRecord.title book) (BookRecord.author book)
                (BookRecord.cover book) (BookRecord.createdAt book) now
                (Some location) (BookRecord.fullText book)]> (Library.books db))
     (Library.epubs db) (Library.bookmarks db) (Library.highlights db)
     (Library.chatMessages db) (Library.settings db),
   inr tt).
Proof.
  intros Hkeyed Hbook. unfold Library.updateBookLocation. rewrite Hbook.
  cbn [BookRecord.id]. now rewrite (Hkeyed id book Hbook).
Qed.
End LibraryFacts.



(** X21. [handleLocationChange] always sets the position shown, and
    never throws: when the book is not in the store the rejection is
    logged and the store is left as it is.  When the book is in the
    store, nothing is logged, and loading the page of the book again
    gives the book at the position last reported, with the bookmarks and
    the highlights the loader gave before. *)
Theorem handleLocationChange_resumes
    (bookId newLocation : string) (now loadedAt : Z) (st : Navigation.State) :
  let st' := fst (handleLocationChange bookId newLocation now st) in
  let logged := snd (handleLocationChange bookId newLocation now st) in
  Navigation.location st' = Some newLocation /\
  (Library.getBook bookId (Navigation.db st) = None ->
   Navigation.db st' = Navigation.db st /\ logged = true) /\
  (forall data,
     Library.wellKeyed (Navigation.db st) ->
     clientLoader bookId loadedAt (Navigation.db st) = Some data ->
     logged = false /\
     exists data',
       clientLoader bookId loadedAt (Navigation.db st') = Some data' /\
       BookRecord.location (LoaderData.book data') = Some newLocation /\
       BookRecord.updatedAt (LoaderData.book data') = now /\
       BookRecord.id (LoaderData.book data') = bookId /\
       BookRecord.title (LoaderData.book data') = BookRecord.title (LoaderData.book data) /\
       BookRecord.author (LoaderData.book data') = BookRecord.author (LoaderData.book data) /\
       LoaderData.blob data' = LoaderData.blob data /\
       LoaderData.bookmarks data' = LoaderData.bookmarks data /\
       LoaderData.highlights data' = LoaderData.highlights data /\
       LoaderData.settings data' = LoaderData.settings data).
Proof.
  intros st' logged. subst st' logged. destruct st as [loc db].
  cbn [Navigation.db]. split; [| split].
  - unfold handleLocationChange. cbn [Navigation.db Navigation.location].
    destruct (Library.updateBookLocation _ _ _ _) as [db' [e | []]]; reflexivity.
  - unfold Library.getBook, handleLocationChange, Library.updateBookLocation.
    cbn [Navigation.db]. intros ->. split; reflexivity.
  - intros data Hkeyed Hload. unfold clientLoader, Library.getBook in Hload.
    destruct (Library.books db !! bookId) as [book |] eqn:Hbook; [| discriminate].
    unfold Library.getEpub in Hload.
    destruct (Library.epubs db !! bookId) as [epub |] eqn:Hepub; [| discriminate].
    injection Hload as <-.
    unfold handleLocationChange. cbn [Navigation.db Navigation.location].
    rewrite (updateBookLocation_run bookId newLocation now db book (proj1 Hkeyed) Hbook).
    cbn [fst snd Navigation.db]. split; [reflexivity |].
    unfold clientLoader, Library.getBook, Library.getEpub. cbn [Library.books Library.epubs].
    rewrite lookup_insert_eq, Hepub. eexists. split; [reflexivity |].
    cbn. auto 10.
Qed.

(** X21 on the sample library: the first book is read on, closed and
    opened again. *)
Lemma handleLocationChange_resumes_witness :
  exists data',
    clientLoader "book-1" 0
      (Navigation.db (fst (handleLocationChange "book-1" Demo.inChapter26 9
                             (Navigation.mkState (Some Demo.a22) DemoLibrary.db)))) =
      Some data' /\
    BookRecord.location (LoaderData.book data') = Some Demo.inChapter26.
Proof.
  destruct (handleLocationChange_resumes "book-1" Demo.inChapter26 9 0
              (Navigation.mkState (Some Demo.a22) DemoLibrary.db))
    as (_ & _ & Hload).
  destruct (Hload _ DemoLibrary_wellKeyed eq_refl) as (_ & data' & Hdata & Hloc & _).
  exists data'. split; [exact Hdata | exact Hloc].
Defined.

(** X22. What the page of a book starts from.  The loader gives the
    book of the id asked for, and, every record being stored under its
    id, the hooks start in agreement with the store: the list of
    bookmarks mirrors the store (the bookmarks of the book, each once),
    every highlight of the list is in the store and is of the book, and
    the popup is closed. *)
Theorem clientLoader_starts_in_agreement
    (bookId : string) (loadedAt : Z) (db : Library.t) (data : LoaderData.t)
    (rendition : option (gmap string Annotation.t)) (selection : option bool) :
  Library.wellKeyed db ->
  clientLoader bookId loadedAt db = Some data ->
  BookRecord.id (LoaderData.book data) = bookId /\
  mirrorsStore bookId (initialBookmarksState db data) /\
  listInStore (initialNotesState db data rendition selection) /\
  popupAgrees (initialNotesState db data rendition selection) /\
  NoDup (map Highlight.id (LoaderData.highlights data)) /\
  (forall h, In h (LoaderData.highlights data) <->
             Library.highlights db !! Highlight.id h = Some h /\
             Highlight.bookId h = bookId).
Proof.
  intros (Hbooks & _ & Hbm & Hhl & _) Hload.
  unfold clientLoader, Library.getBook, Library.getEpub in Hload.
  destruct (Library.books db !! bookId) as [book |] eqn:Hbook; [| discriminate].
  destruct (Library.epubs db !! bookId) as [epub |]; [| discriminate].
  injection Hload as <-.
  assert (Hmember : forall V (idOf bookIdOf : V -> string) (store : gmap string V) v,
            Library.keyed idOf store ->
            (In v (getAllFromIndex bookIdOf store bookId) <->
             store !! idOf v = Some v /\ bookIdOf v = bookId)).
  { intros V idOf bookIdOf store v Hkeyed. rewrite getAllFromIndex_In. split.
    - intros [[k Hk] Hb]. now rewrite (Hkeyed k v Hk).
    - intros [Hk Hb]. eauto. }
  cbn [LoaderData.book LoaderData.highlights].
  split; [now apply Hbooks |]. split; [| split; [| split; [| split]]].
  - unfold mirrorsStore, initialBookmarksState, Library.getBookmarksByBookId.
    cbn [Bookmarks.bookmarks Bookmarks.db Db.bookmarks LoaderData.bookmarks].
    split; [unfold getAllFromIndex; apply filter_NoDup_map, getAll_NoDup; exact Hbm |].
    intros b. now apply Hmember.
  - intros h Hin. cbn in Hin |- *.
    apply (Hmember _ Highlight.id Highlight.bookId) in Hin; [tauto | exact Hhl].
  - exact I.
  - unfold Library.getHighlightsByBookId, getAllFromIndex.
    apply filter_NoDup_map, getAll_NoDup. exact Hhl.
  - intros h. now apply Hmember.
Qed.

(** X22 on the sample library: the page of the first book. *)
Lemma clientLoader_starts_in_agreement_witness :
  exists data,
    clientLoader "book-1" 0 DemoLibrary.db = Some data /\
    mirrorsStore "book-1" (initialBookmarksState DemoLibrary.db data).
Proof.
  eexists. split; [reflexivity |].
  exact (proj1 (proj2 (clientLoader_starts_in_agreement "book-1" 0 DemoLibrary.db _
                         None None DemoLibrary_wellKeyed eq_refl))).
Defined.

(* ===================================================================== *)
(** * The database: chat messages, settings, new books *)
(* ===================================================================== *)

Section SortedEnds.
Context {A : Type} (R : A -> A -> Prop).

(** In a sorted list everything but the last element is before it. *)
Lemma StronglySorted_last (l : list A) (z : A) :
  StronglySorted R l -> last l = Some z ->
  forall d, In d l -> d = z \/ R d z.
Proof.
  induction 1 as [| c l Hs IH Hc]; intros Hl d Hd; [destruct Hd |].
  destruct l as [| c' l'].
  - cbn in Hl. injection Hl as <-. destruct Hd as [<- | []]. now left.
  - change (last (c' :: l') = Some z) in Hl.
    destruct Hd as [<- | Hd]; [| now apply IH].
    right. rewrite List.Forall_forall in Hc. apply Hc.
    apply list_elem_of_In, last_Some_elem_of, Hl.
Qed.
End SortedEnds.

Section ChatFacts.
Lemma getChatMessagesByBookId_In (bookId : string) (db : Library.t) (m : ChatMessage.t) :
  In m (Library.getChatMessagesByBookId bookId db) <->
  (exists k, Library.chatMessages db !! k = Some m) /\ ChatMessage.bookId m = bookId.
Proof.
  unfold Library.getChatMessagesByBookId. now rewrite sort_In, getAllFromIndex_In.
Qed.

Lemma getChatMessagesByBookId_sorted (bookId : string) (db : Library.t) :
  StronglySorted (fun a b => (ChatMessage.createdAt a <= ChatMessage.createdAt b)%Z)
                 (Library.getChatMessagesByBookId bookId db).
Proof.
  pose proof (@sort_sorted _ Library.byCreatedAtAscending byCreatedAtAscending_Consistent
                (getAllFromIndex ChatMessage.bookId (Library.chatMessages db) bookId))
    as Hs.
  fold (Library.getChatMessagesByBookId bookId db) in Hs.
  induction Hs as [| x l _ IH Hx]; constructor; [exact IH |].
  eapply List.Forall_impl; [| exact Hx].
  intros y. unfold notAfter, Library.byCreatedAtAscending. lia.
Qed.
End ChatFacts.

(** X23. The chat of a book.  [getChatMessagesByBookId] gives the
    messages of the book that the store holds, oldest first.  A message
    created later than all of them comes last.
    [deleteChatMessagesByBookId] leaves no message of the book, leaves
    the messages of the other books, and touches no other store. *)
Theorem chat_messages_oldest_first (bookId : string) (db : Library.t) :
  Library.wellKeyed db ->
  StronglySorted (fun a b => (ChatMessage.createdAt a <= ChatMessage.createdAt b)%Z)
                 (Library.getChatMessagesByBookId bookId db) /\
  (forall m, In m (Library.getChatMessagesByBookId bookId db) <->
             Library.chatMessages db !! ChatMessage.id m = Some m /\
             ChatMessage.bookId m = bookId) /\
  (forall role content locationCfi locationLabel locationExcerpt uuid now,
     Library.chatMessages db !! uuid = None ->
     (forall m, In m (Library.getChatMessagesByBookId bookId db) ->
                (ChatMessage.createdAt m < now)%Z) ->
     let message :=
       ChatMessage.mk uuid bookId role content locationCfi locationLabel
                      locationExcerpt now in
     let created :=
       Library.createChatMessage bookId role content locationCfi locationLabel
                                 locationExcerpt uuid now db in
     snd created = inr message /\
     last (Library.getChatMessagesByBookId bookId (fst created)) = Some message /\
     forall m, In m (Library.getChatMessagesByBookId bookId (fst created)) <->
               m = message \/ In m (Library.getChatMessagesByBookId bookId db)) /\
  (let db' := Library.deleteChatMessagesByBookId bookId db in
   Library.getChatMessagesByBookId bookId db' = [] /\
   (forall other m, other <> bookId ->
      In m (Library.getChatMessagesByBookId other db') <->
      In m (Library.getChatMessagesByBookId other db)) /\
   Library.books db' = Library.books db /\
   Library.epubs db' = Library.epubs db /\
   Library.bookmarks db' = Library.bookmarks db /\
   Library.highlights db' = Library.highlights db /\
   Library.settings db' = Library.settings db).
Proof.
  intros (_ & _ & _ & _ & Hchat & _).
  assert (Hmem : forall db0 m,
            Library.keyed ChatMessage.id (Library.chatMessages db0) ->
            (In m (Library.getChatMessagesByBookId bookId db0) <->
             Library.chatMessages db0 !! ChatMessage.id m = Some m /\
             ChatMessage.bookId m = bookId)).
  { intros db0 m Hk. rewrite getChatMessagesByBookId_In. split.
    - intros [[k Hm] Hb]. now rewrite (Hk k m Hm).
    - intros [Hm Hb]. eauto. }
  split; [apply getChatMessagesByBookId_sorted |].
  split; [intros m; now apply Hmem |].
  split.
  - intros role content locationCfi locationLabel locationExcerpt uuid now Hfresh Hlater
           message created.
    subst created. unfold Library.createChatMessage. rewrite Hfresh. cbn [fst snd].
    fold message.
    set (db1 := Library.mk _ _ _ _ (<[uuid := message]> (Library.chatMessages db)) _).
    assert (Hk1 : Library.keyed ChatMessage.id (Library.chatMessages db1))
      by (apply keyed_insert; [reflexivity | exact Hchat]).
    assert (Hin1 : forall m, In m (Library.getChatMessagesByBookId bookId db1) <->
              m = message \/ In m (Library.getChatMessagesByBookId bookId db)).
    { intros m. rewrite (Hmem db1 m Hk1), (Hmem db m Hchat).
      cbn [db1 Library.chatMessages]. rewrite lookup_insert_Some. split.
      - intros [[[_ <-] | [_ Hm]] Hb]; [now left | right; tauto].
      - intros [-> | [Hm Hb]]; [split; [left |]; auto |].
        split; [right; split; [| exact Hm] | exact Hb].
        intros E. rewrite <- E, Hfresh in Hm. discriminate. }
    split; [reflexivity |]. split; [| exact Hin1].
    pose proof (getChatMessagesByBookId_sorted bookId db1) as Hs.
    assert (Hmsg : In message (Library.getChatMessagesByBookId bookId db1))
      by (apply Hin1; now left).
    destruct (last (Library.getChatMessagesByBookId bookId db1)) as [z |] eqn:Hlast.
    2:{ apply last_None in Hlast. rewrite Hlast in Hmsg. destruct Hmsg. }
    f_equal.
    assert (Hz : In z (Library.getChatMessagesByBookId bookId db1))
      by (apply list_elem_of_In, last_Some_elem_of, Hlast).
    apply Hin1 in Hz. destruct Hz as [-> | Hz]; [reflexivity |]. exfalso.
    apply Hlater in Hz.
    destruct (StronglySorted_last _ _ z Hs Hlast message Hmsg) as [E | Hle].
    + rewrite <- E in Hz. cbn in Hz. lia.
    + cbn in Hle. lia.
  - unfold Library.deleteChatMessagesByBookId.
    cbn [Library.books Library.epubs Library.bookmarks Library.highlights
         Library.settings].
    split; [| split; [| repeat split]].
    + unfold Library.getChatMessagesByBookId. cbn [Library.chatMessages].
      now rewrite cascade_index_empty.
    + intros other m Hother. unfold Library.getChatMessagesByBookId.
      cbn [Library.chatMessages]. rewrite !sort_In. now apply cascade_index_other.
Qed.

(** X23 on the sample library: the messages of the first book, and the
    chat cleared. *)
Lemma chat_messages_oldest_first_witness :
  StronglySorted (fun a b => (ChatMessage.createdAt a <= ChatMessage.createdAt b)%Z)
                 (Library.getChatMessagesByBookId "book-1" DemoLibrary.db) /\
  Library.getChatMessagesByBookId "book-1"
    (Library.deleteChatMessagesByBookId "book-1" DemoLibrary.db) = [].
Proof.
  destruct (chat_messages_oldest_first "book-1" DemoLibrary.db DemoLibrary_wellKeyed)
    as (Hsorted & _ & _ & Hdeleted & _).
  split; [exact Hsorted | exact Hdeleted].
Defined.

(** X24. The settings.  [getSettings] gives the record stored under
    ["global"], and the defaults when there is none.  [updateSettings]
    stores, under ["global"], the current settings with the fields given
    replaced and the time of the update, returns that record, and
    touches nothing else; [getSettings] then gives the record returned.
    A patch with no field changes nothing but the time. *)
Theorem updateSettings_round_trip
    (data : ReaderSettings.Patch) (loadedAt now : Z) (db : Library.t) :
  let current := Library.getSettings loadedAt db in
  let db' := fst (Library.updateSettings data loadedAt now db) in
  let updated := snd (Library.updateSettings data loadedAt now db) in
  (Library.settings db !! "global" = None -> current = defaultSettings loadedAt) /\
  (forall stored, Library.settings db !! "global" = Some stored -> current = stored) /\
  (forall loadedAt', Library.getSettings loadedAt' db' = updated) /\
  ReaderSettings.id updated = "global" /\
  ReaderSettings.updatedAt updated = now /\
  ReaderSettings.theme updated =
    default (ReaderSettings.theme current) (ReaderSettings.newTheme data) /\
  ReaderSettings.fontSize updated =
    default (ReaderSettings.fontSize current) (ReaderSettings.newFontSize data) /\
  ReaderSettings.spacing updated =
    default (ReaderSettings.spacing current) (ReaderSettings.newSpacing data) /\
  ReaderSettings.lineHeight updated =
    default (ReaderSettings.lineHeight current) (ReaderSettings.newLineHeight data) /\
  (data = ReaderSettings.mkPatch None None None None ->
   updated = ReaderSettings.mk "global" (ReaderSettings.theme current)
               (ReaderSettings.fontSize current) (ReaderSettings.spacing current)
               (ReaderSettings.lineHeight current) now) /\
  (forall k, k <> "global" -> Library.settings db' !! k = Library.settings db !! k) /\
  Library.books db' = Library.books db /\
  Library.epubs db' = Library.epubs db /\
  Library.bookmarks db' = Library.bookmarks db /\
  Library.highlights db' = Library.highlights db /\
  Library.chatMessages db' = Library.chatMessages db.
Proof.
  intros current db' updated. subst current db' updated.
  unfold Library.updateSettings, Library.getSettings.
  cbn [fst snd Library.settings Library.books Library.epubs Library.bookmarks
       Library.highlights Library.chatMessages ReaderSettings.id
       ReaderSettings.updatedAt ReaderSettings.theme ReaderSettings.fontSize
       ReaderSettings.spacing ReaderSettings.lineHeight].
  split; [now intros -> |]. split; [now intros stored -> |].
  split; [intros loadedAt'; now rewrite lookup_insert_eq |].
  do 6 (split; [reflexivity |]).
  split; [now intros -> |].
  split; [intros k Hk; now rewrite lookup_insert_ne |].
  repeat split.
Qed.

(** X24 on the sample library: the theme is set to dark on a store with
    no settings. *)
Lemma updateSettings_round_trip_witness :
  snd (Library.updateSettings
         (ReaderSettings.mkPatch (Some ReaderSettings.dark) None None None) 0 9
         DemoLibrary.db) =
  ReaderSettings.mk "global" ReaderSettings.dark ReaderSettings.m ReaderSettings.normal
                    ReaderSettings.regular 9.
Proof.
  destruct (updateSettings_round_trip
              (ReaderSettings.mkPatch (Some ReaderSettings.dark) None None None) 0 9
              DemoLibrary.db)
    as (Hdefault & _ & Hget & _).
  rewrite <- (Hget 0%Z). reflexivity.
Defined.

Section FilesFacts.
Lemma filesMatch_insert (db : Library.t) (k : string) (book : BookRecord.t) (epub : Epub.t)
    bookmarks highlights chatMessages settings :
  filesMatch db ->
  filesMatch (Library.mk (<[k := book]> (Library.books db)) (<[k := epub]> (Library.epubs db))
                bookmarks highlights chatMessages settings).
Proof.
  intros Hm k'. cbn [Library.books Library.epubs].
  destruct (String.eqb_spec k k') as [<- | Hne].
  - rewrite !lookup_insert_eq. split; eauto.
  - rewrite !lookup_insert_ne by exact Hne. apply Hm.
Qed.

Lemma filesMatch_update (db : Library.t) (k : string) (book book' : BookRecord.t)
    bookmarks highlights chatMessages settings :
  filesMatch db -> Library.books db !! k = Some book ->
  filesMatch (Library.mk (<[k := book']> (Library.books db)) (Library.epubs db)
                bookmarks highlights chatMessages settings).
Proof.
  intros Hm Hk k'. cbn [Library.books Library.epubs].
  destruct (String.eqb_spec k k') as [<- | Hne].
  - rewrite lookup_insert_eq. split; [intros _; apply Hm; eauto | eauto].
  - rewrite lookup_insert_ne by exact Hne. apply Hm.
Qed.
End FilesFacts.

(** X25. The books and their files.  [createBook] with an id new to the
    store adds the book, with no position and the time of creation as
    time of update, and its file, under the same id, and touches nothing
    else; with an id already taken it fails and changes nothing.
    Creating, deleting and updating books keep every book with its file
    and every file with its book; so the loader of the page of a book
    fails only when the book is not in the store. *)
Theorem createBook_keeps_files_matched
    (title author : string) (cover : option Blob) (epubBlob : Blob)
    (uuid : string) (now : Z) (db : Library.t) :
  Library.wellKeyed db ->
  filesMatch db ->
  let created := Library.createBook title author cover epubBlob uuid now db in
  let book := BookRecord.mk uuid title author cover now now None None in
  (Library.getBook uuid db = None ->
   snd created = inr uuid /\
   Library.getBook uuid (fst created) = Some book /\
   Library.getEpub uuid (fst created) = Some (Epub.mk uuid epubBlob) /\
   (forall k, k <> uuid ->
      Library.books (fst created) !! k = Library.books db !! k /\
      Library.epubs (fst created) !! k = Library.epubs db !! k) /\
   Library.bookmarks (fst created) = Library.bookmarks db /\
   Library.highlights (fst created) = Library.highlights db /\
   Library.chatMessages (fst created) = Library.chatMessages db /\
   Library.settings (fst created) = Library.settings db /\
   In book (Library.getAllBooks (fst created))) /\
  (Library.getBook uuid db <> None -> created = (db, inl (Library.KeyExists uuid))) /\
  Library.wellKeyed (fst created) /\
  filesMatch (fst created) /\
  (forall id, filesMatch (Library.deleteBook id db)) /\
  (forall id location now', filesMatch (fst (Library.updateBookLocation id location now' db))) /\
  (forall id fullText, filesMatch (fst (Library.updateBookFullText id fullText db))) /\
  (forall bookId loadedAt,
     clientLoader bookId loadedAt db = None <-> Library.getBook bookId db = None).
Proof.
  intros Hkeyed Hfiles created book.
  assert (Hfresh : Library.books db !! uuid = None -> Library.epubs db !! uuid = None).
  { intros Hb. destruct (Library.epubs db !! uuid) as [e |] eqn:He; [| reflexivity].
    assert (Hs : is_Some (Library.books db !! uuid)) by (apply Hfiles; eauto).
    rewrite Hb in Hs. now destruct Hs. }
  destruct Hkeyed as (Hbooks & Hepubs & Hrest).
  subst created. unfold Library.getBook, Library.getEpub, Library.createBook.
  fold book.
  destruct (Library.books db !! uuid) as [taken |] eqn:Hb.
  - cbn [fst snd]. split; [discriminate |]. split; [reflexivity |].
    split; [unfold Library.wellKeyed; tauto |]. split; [exact Hfiles |].
    split; [| split; [| split]].
    + intros id k. unfold Library.deleteBook. cbn [Library.books Library.epubs].
      destruct (String.eqb_spec id k) as [<- | Hne].
      * rewrite !lookup_delete_eq. split; intros [x Hx]; discriminate.
      * rewrite !lookup_delete_ne by exact Hne. apply Hfiles.
    + intros id location now'. unfold Library.updateBookLocation.
      destruct (Library.books db !! id) as [b |] eqn:Hid; [| exact Hfiles].
      cbn [fst BookRecord.id]. rewrite (Hbooks id b Hid).
      now apply (filesMatch_update db id b).
    + intros id fullText. unfold Library.updateBookFullText.
      destruct (Library.books db !! id) as [b |] eqn:Hid; [| exact Hfiles].
      cbn [fst BookRecord.id]. rewrite (Hbooks id b Hid).
      now apply (filesMatch_update db id b).
    + intros bookId loadedAt. unfold clientLoader, Library.getBook, Library.getEpub.
      destruct (Library.books db !! bookId) as [b |] eqn:Hid; [| tauto].
      destruct (Library.epubs db !! bookId) as [e |] eqn:He; [split; discriminate |].
      assert (Hs : is_Some (Library.epubs db !! bookId)) by (apply Hfiles; eauto).
      rewrite He in Hs. now destruct Hs.
  - rewrite (Hfresh eq_refl). cbn [fst snd Library.books Library.epubs
      Library.bookmarks Library.highlights Library.chatMessages Library.settings].
    split.
    { intros _. split; [reflexivity |].
      split; [apply lookup_insert_eq |]. split; [apply lookup_insert_eq |].
      split; [intros k Hk; now rewrite !lookup_insert_ne by congruence |].
      do 4 (split; [reflexivity |]).
      apply getAllBooks_In. exists uuid. apply lookup_insert_eq. }
    split; [intros H; now destruct H |].
    split.
    { unfold Library.wellKeyed. cbn [Library.books Library.epubs Library.bookmarks
        Library.highlights Library.chatMessages Library.settings].
      split; [now apply keyed_insert |]. split; [now apply keyed_insert | exact Hrest]. }
    split; [now apply filesMatch_insert |].
    split; [| split; [| split]].
    + intros id k. unfold Library.deleteBook. cbn [Library.books Library.epubs].
      destruct (String.eqb_spec id k) as [<- | Hne].
      * rewrite !lookup_delete_eq. split; intros [x Hx]; discriminate.
      * rewrite !lookup_delete_ne by exact Hne. apply Hfiles.
    + intros id location now'. unfold Library.updateBookLocation.
      destruct (Library.books db !! id) as [b |] eqn:Hid; [| exact Hfiles].
      cbn [fst BookRecord.id]. rewrite (Hbooks id b Hid).
      now apply (filesMatch_update db id b).
    + intros id fullText. unfold Library.updateBookFullText.
      destruct (Library.books db !! id) as [b |] eqn:Hid; [| exact Hfiles].
      cbn [fst BookRecord.id]. rewrite (Hbooks id b Hid).
      now apply (filesMatch_update db id b).
    + intros bookId loadedAt. unfold clientLoader, Library.getBook, Library.getEpub.
      destruct (Library.books db !! bookId) as [b |] eqn:Hid; [| tauto].
      destruct (Library.epubs db !! bookId) as [e |] eqn:He; [split; discriminate |].
      assert (Hs : is_Some (Library.epubs db !! bookId)) by (apply Hfiles; eauto).
      rewrite He in Hs. now destruct Hs.
Qed.

Lemma DemoLibrary_filesMatch : filesMatch DemoLibrary.db.
Proof.
  intros k. unfold DemoLibrary.db. cbn [Library.books Library.epubs].
  destruct (String.eqb_spec "book-1" k) as [<- | H1].
  { rewrite !lookup_insert_eq. split; eauto. }
  rewrite !(lookup_insert_ne _ "book-1") by exact H1.
  destruct (String.eqb_spec "book-2" k) as [<- | H2].
  { rewrite !lookup_insert_eq. split; eauto. }
  rewrite !(lookup_insert_ne _ "book-2") by exact H2.
  rewrite !lookup_empty. split; intros [x Hx]; discriminate.
Qed.

(** X25 on the sample library: a third book is added. *)
Lemma createBook_keeps_files_matched_witness :
  Library.getBook "book-3"
    (fst (Library.createBook "Typee" "Herman Melville" None "typee.epub" "book-3" 9
            DemoLibrary.db)) =
  Some (BookRecord.mk "book-3" "Typee" "Herman Melville" None 9 9 None None) /\
  filesMatch
    (fst (Library.createBook "Typee" "Herman Melville" None "typee.epub" "book-3" 9
            DemoLibrary.db)).
Proof.
  destruct (createBook_keeps_files_matched "Typee" "Herman Melville" None "typee.epub"
              "book-3" 9 DemoLibrary.db DemoLibrary_wellKeyed DemoLibrary_filesMatch)
    as (Hnew & _ & _ & Hfiles & _).
  split; [| exact Hfiles].
  destruct (Hnew eq_refl) as (_ & Hbook & _). exact Hbook.
Defined.

(* ===================================================================== *)
(** * The two matchers of the table of contents; the keys of the store *)
(* ===================================================================== *)

(** X26. The entries [getCurrentChapterLabel] can take its label from
    are among those the search attributes matches to: an entry of the
    table of contents that matches the file of a location for
    [getCurrentChapterLabel] is one of the entries
    [getMatchingTocEntries] returns for that file.  So the label shown
    for a location, when it is not a fallback, is the trimmed label of
    one of them. *)
Theorem current_chapter_among_search_chapters (toc : list NavItem.t) (href : string) :
  (forall e,
     occursIn e toc -> currentHrefMatches href e = true ->
     In e (getMatchingTocEntries toc (JS.split_hash_0 href))) /\
  (getCurrentChapterLabel (StartsAt href) toc = "Unknown chapter" \/
   exists e,
     In e (getMatchingTocEntries toc (JS.split_hash_0 href)) /\
     getCurrentChapterLabel (StartsAt href) toc = JS.trim (NavItem.label e)).
Proof.
  assert (Hamong : forall e,
            occursIn e toc -> currentHrefMatches href e = true ->
            In e (getMatchingTocEntries toc (JS.split_hash_0 href))).
  { intros e Hocc He. unfold getMatchingTocEntries. rewrite traverse_flatten.
    cbn [app]. apply filter_In. split; [now apply flattenToc_occurs |].
    unfold currentHrefMatches in He. unfold tocHrefMatches.
    apply orb_true_iff in He. apply orb_true_iff. right.
    destruct He as [He | He]; [| exact He].
    apply String.eqb_eq in He. rewrite He. apply endsWith_spec.
    now exists EmptyString. }
  split; [exact Hamong |].
  cbn [getCurrentChapterLabel].
  destruct (findInToc href toc) as [l |] eqn:Ef; [| now left].
  destruct (JS.truthy l); [| now left].
  right. destruct (findInToc_sound href toc l Ef) as (e & Hin & He & Hl).
  exists e. split; [| exact Hl]. apply Hamong; [now apply flattenToc_occurs | exact He].
Qed.

(** X26 on the sample table of contents: the part is among the entries
    of the shared file. *)
Lemma current_chapter_among_search_chapters_witness :
  In (NavItem.mk "Part" "chapters22-27.xhtml"
        [ NavItem.mk "22" "chapters22-27.xhtml#c22" [];
          NavItem.mk "26" "chapters22-27.xhtml#c26"
            [ NavItem.mk "26, second half" "chapters22-27.xhtml#c26b" [] ];
          NavItem.mk "27" "chapters22-27.xhtml#c27" [] ])
     (getMatchingTocEntries Demo.toc (JS.split_hash_0 "OEBPS/chapters22-27.xhtml")).
Proof.
  apply (proj1 (current_chapter_among_search_chapters Demo.toc
                  "OEBPS/chapters22-27.xhtml")).
  - apply occurs_later, occurs_here.
  - reflexivity.
Defined.

Section StoreSteps.
Variable bookId : string.

End StoreSteps.


